(** * PayMo fraud alerts: the relationship-graph core of
      [fraud-alert-bfs.cpp] and [fraud-alert.cpp]

    The two programs share the user registry, the payment graph (a Boost
    [adjacency_list<vecS, vecS, undirectedS>]) and the main loop; they differ
    in the direct-connection index ([map<long, bool>] keyed by [perfect_hash]
    against [set<Connection>]) and in the search ([breadth_first_search]
    with a throwing [tree_edge] visitor against [dijkstra_shortest_paths]
    with a throwing [finish_vertex] visitor).

    Layout: machine integers, the Boost graph container, the two searches,
    the two programs (modules [Bfs] and [Dijkstra]), then the specification
    vocabulary (walks, distances, invariants) and the theorems. *)

From Stdlib Require Import ZArith Lia Bool Ascii String.
From stdpp Require Import gmap list strings pretty.

(** ** Machine integers *)

(** [int] is 32 bits, [long] and [unsigned long] (also [size_t], the vertex
    descriptor) are 64 bits.  Conversions and arithmetic wrap. *)

Definition INT_MAX : Z := 2147483647.
Definition INT_MIN : Z := -2147483648.

Definition wrap_int (z : Z) : Z := ((z + 2 ^ 31) mod 2 ^ 32 - 2 ^ 31)%Z.
Definition wrap_long (z : Z) : Z := ((z + 2 ^ 63) mod 2 ^ 64 - 2 ^ 63)%Z.
Definition wrap_ulong (z : Z) : Z := (z mod 2 ^ 64)%Z.

Definition is_int (a : Z) : Prop := (INT_MIN <= a <= INT_MAX)%Z.

(** A vertex descriptor of a [vecS] graph is an index into the vertex
    vector. *)
Abbreviation Vertex := nat (only parsing).
Abbreviation UID := Z (only parsing).
Abbreviation Connection := (nat * nat)%type (only parsing).

(** The implicit conversion of a [Vertex] argument to the [int] parameter of
    [perfect_hash]. *)
Definition to_int (v : Vertex) : Z := wrap_int (wrap_ulong (Z.of_nat v)).

(** [(unsigned long)(a >= 0 ? 2 * (long)a : -2 * (long)a - 1)] *)
Definition zigzag (a : Z) : Z :=
  wrap_ulong (if (0 <=? a)%Z then wrap_long (2 * a)
              else wrap_long (wrap_long (-2 * a) - 1)).

Definition perfect_hash (a b : Z) : Z :=
  let A := zigzag a in
  let B := zigzag b in
  let C := wrap_long
    ((if (B <=? A)%Z
      then wrap_ulong (wrap_ulong (wrap_ulong (A * A) + A) + B)
      else wrap_ulong (A + wrap_ulong (B * B))) / 2)%Z in
  if (a <? 0)%Z && (b <? 0)%Z || (0 <=? a)%Z && (0 <=? b)%Z
  then C else wrap_long (- C - 1).

(** ** The payment record *)

Record payment_t := mk_payment {
  time : string;
  id1 : UID;
  id2 : UID;
  amount : string;
  message : string
}.

Abbreviation data_t := (list payment_t) (only parsing).

(** ** The Boost graph container

    [adjacency_list<vecS, vecS, undirectedS, no_property, EP>]: a vector of
    out-edge vectors, each stored edge holding its target and the edge
    property, and the global edge list.  [W] is the edge property: [unit] in
    [fraud-alert-bfs.cpp], the [int] weight in [fraud-alert.cpp]. *)

Record Graph (W : Type) := mk_graph {
  m_vertices : list (list (Vertex * W));
  m_edges : list (Vertex * Vertex * W)
}.
Arguments mk_graph {W} _ _.
Arguments m_vertices {W} _.
Arguments m_edges {W} _.

Definition empty_graph {W} : Graph W := mk_graph [] [].

Definition num_vertices {W} (g : Graph W) : nat := length (m_vertices g).

Definition out_edges {W} (g : Graph W) (u : Vertex) : list (Vertex * W) :=
  default [] (m_vertices g !! u).

(** [add_vertex(g)]: a new vertex with no out-edges; its descriptor is the
    old vertex count. *)
Definition add_vertex {W} (g : Graph W) : Vertex * Graph W :=
  (num_vertices g, mk_graph (m_vertices g ++ [[]]) (m_edges g)).

(** [edge(u, v, g).second]: a scan of the out-edge vector of [u]. *)
Definition edge {W} (u v : Vertex) (g : Graph W) : bool :=
  existsb (λ e, Nat.eqb e.1 v) (out_edges g u).

(** [add_edge(u, v, p, g)]: the vertex vector grows when a descriptor is out
    of range; the edge goes to the edge list, then [v] to the out-edges of
    [u], then [u] to the out-edges of [v].  A [vecS] out-edge vector accepts
    parallel edges and self-loops. *)
Definition add_edge {W} (u v : Vertex) (p : W) (g : Graph W) : Graph W :=
  let n := num_vertices g in
  let vs := m_vertices g ++ replicate (S (Nat.max u v) - n) [] in
  mk_graph (alter (λ l, l ++ [(u, p)]) v (alter (λ l, l ++ [(v, p)]) u vs))
           (m_edges g ++ [(u, v, p)]).

(** ** Shared helpers of the two programs *)

Definition create_connection (node1 node2 : Vertex) : Connection :=
  if node1 <? node2 then (node1, node2) else (node2, node1).

(** [std::map::insert]: no effect when the key is present. *)
Definition map_insert_new `{Countable K} {V} (k : K) (v : V) (m : gmap K V) : gmap K V :=
  match m !! k with
  | Some _ => m
  | None => <[k := v]> m
  end.

(** A visitor callback either returns or throws the [int] exception 404. *)
Inductive outcome (A : Type) : Type :=
| Normal (a : A)
| Thrown (a : A).
Arguments Normal {A} _.
Arguments Thrown {A} _.

(** What [catch (int exception) { /* Ignored */ }] leaves behind. *)
Definition caught {A} (o : outcome A) : A :=
  match o with Normal a => a | Thrown a => a end.

Inductive Color := White | Gray | Black.

Global Instance Color_eq_dec : EqDecision Color.
Proof. solve_decision. Defined.

(** The trust verdict written to one output file for one payment. *)
Definition verdict (threshold friendship : Z) : string :=
  if (threshold <? friendship)%Z then "Unverified" else "Trusted".

(** ** [boost::breadth_first_search]

    Every vertex starts white; the source is coloured gray and queued; the
    loop pops the front vertex [u], walks its out-edges in order, and for a
    white target calls the visitor's [tree_edge], colours the target gray and
    queues it; then [u] turns black.  The visitor owns the distance vector.
    [fuel] bounds the number of queue pops; a vertex is queued once, so
    [num_vertices + 2] is never exhausted (lemma [bfs_visit_total]). *)

Record bfs_state := mk_bfs {
  color : list Color;
  dist : list Z;
  queue : list Vertex
}.

Section BreadthFirstSearch.
Context {W : Type}.
Variable tree_edge : Vertex → Vertex → list Z → outcome (list Z).

Fixpoint bfs_out_edges (u : Vertex) (es : list (Vertex * W)) (st : bfs_state)
  : outcome bfs_state :=
  match es with
  | [] => Normal st
  | e :: es' =>
    let v := e.1 in
    match color st !! v with
    | Some White =>
      match tree_edge u v (dist st) with
      | Thrown d' => Thrown (mk_bfs (color st) d' (queue st))
      | Normal d' =>
        bfs_out_edges u es'
          (mk_bfs (<[v := Gray]> (color st)) d' (queue st ++ [v]))
      end
    | _ => bfs_out_edges u es' st
    end
  end.

Fixpoint breadth_first_visit (fuel : nat) (g : Graph W) (st : bfs_state)
  : option (outcome bfs_state) :=
  match fuel with
  | O => None
  | S fuel' =>
    match queue st with
    | [] => Some (Normal st)
    | u :: q =>
      match bfs_out_edges u (out_edges g u) (mk_bfs (color st) (dist st) q) with
      | Thrown st' => Some (Thrown st')
      | Normal st' =>
        breadth_first_visit fuel' g
          (mk_bfs (<[u := Black]> (color st')) (dist st') (queue st'))
      end
    end
  end.

Definition breadth_first_search (g : Graph W) (s : Vertex) (d : list Z)
  : option (outcome bfs_state) :=
  let n := num_vertices g in
  breadth_first_visit (S (S n)) g
    (mk_bfs (<[s := Gray]> (replicate n White)) d [s]).

End BreadthFirstSearch.

(** ** [boost::dijkstra_shortest_paths]

    The same traversal over a priority queue keyed by the distance map, with
    Boost's own relaxation as the visitor.  The queue is a 4-ary indirect
    heap; the model keeps the set of queued vertices and pops a vertex of
    minimal distance.  Which one is popped among several of minimal distance
    depends on the heap's layout: the model takes it from [tie], an
    arbitrary sequence of choices, so every tie-breaking order is covered.
    Releases of Boost differ in the relaxation: the older ones call [relax],
    which on an undirected graph also tries the edge towards its source, the
    later ones [relax_target]; the model takes the choice as [both_ways].
    A negative edge weight makes [examine_edge] throw [negative_edge], which
    [catch (int)] does not catch: the model returns [None] there. *)

Definition closed_plus (inf a b : Z) : Z :=
  if decide (a = inf) then inf
  else if decide (b = inf) then inf
  else wrap_int (a + b).

(** [relax_target]: the new distance vector and whether it decreased. *)
Definition relax_target (u v : Vertex) (w : Z) (d : list Z) : list Z * bool :=
  let d_u := d !!! u in
  let d_v := d !!! v in
  if (closed_plus INT_MAX d_u w <? d_v)%Z
  then (<[v := closed_plus INT_MAX d_u w]> d, true)
  else (d, false).

(** [relax] on an undirected graph. *)
Definition relax (u v : Vertex) (w : Z) (d : list Z) : list Z * bool :=
  let d_u := d !!! u in
  let d_v := d !!! v in
  if (closed_plus INT_MAX d_u w <? d_v)%Z
  then (<[v := closed_plus INT_MAX d_u w]> d, true)
  else if (closed_plus INT_MAX d_v w <? d_u)%Z
  then (<[u := closed_plus INT_MAX d_v w]> d, true)
  else (d, false).

Definition min_key (d : list Z) (q : list Vertex) : Z :=
  match q with
  | [] => 0%Z
  | v :: q' => foldr (λ x m, Z.min (d !!! x) m) (d !!! v) q'
  end.

Definition heap_top (d : list Z) (choice : nat) (q : list Vertex) : option Vertex :=
  let cands := filter (λ v, d !!! v = min_key d q) q in
  cands !! (choice mod length cands).

Definition heap_pop (u : Vertex) (q : list Vertex) : list Vertex :=
  filter (λ v, v ≠ u) q.

Section DijkstraShortestPaths.
Variable both_ways : bool.
Variable tie : nat → nat.
Variable finish_vertex : Vertex → outcome unit.

Definition edge_relax (u v : Vertex) (w : Z) (d : list Z) : list Z * bool :=
  if both_ways then relax u v w d else relax_target u v w d.

Fixpoint dijkstra_out_edges (u : Vertex) (es : list (Vertex * Z)) (st : bfs_state)
  : option bfs_state :=
  match es with
  | [] => Some st
  | e :: es' =>
    let v := e.1 in
    let w := e.2 in
    if (w <? 0)%Z then None
    else
      match color st !! v with
      | Some White =>
        let d' := (edge_relax u v w (dist st)).1 in
        dijkstra_out_edges u es'
          (mk_bfs (<[v := Gray]> (color st)) d' (queue st ++ [v]))
      | Some Gray =>
        let d' := (edge_relax u v w (dist st)).1 in
        dijkstra_out_edges u es' (mk_bfs (color st) d' (queue st))
      | _ => dijkstra_out_edges u es' st
      end
  end.

Fixpoint dijkstra_visit (fuel : nat) (g : Graph Z) (st : bfs_state)
  : option (outcome bfs_state) :=
  match fuel with
  | O => None
  | S fuel' =>
    match heap_top (dist st) (tie fuel') (queue st) with
    | None => Some (Normal st)
    | Some u =>
      match dijkstra_out_edges u (out_edges g u)
              (mk_bfs (color st) (dist st) (heap_pop u (queue st))) with
      | None => None
      | Some st' =>
        let st'' := mk_bfs (<[u := Black]> (color st')) (dist st') (queue st') in
        match finish_vertex u with
        | Thrown _ => Some (Thrown st'')
        | Normal _ => dijkstra_visit fuel' g st''
        end
      end
    end
  end.

(** Every distance is reset to the maximal [int], the source to zero. *)
Definition dijkstra_shortest_paths (g : Graph Z) (s : Vertex)
  : option (outcome bfs_state) :=
  let n := num_vertices g in
  dijkstra_visit (S (S n)) g
    (mk_bfs (<[s := Gray]> (replicate n White))
            (<[s := 0%Z]> (replicate n INT_MAX)) [s]).

End DijkstraShortestPaths.

(** ** [fraud-alert-bfs.cpp] *)

Module Bfs.

Record State := mk_state {
  users : gmap UID Vertex;
  nodes : gmap Vertex UID;
  friends : gmap Z bool;
  g : Graph unit
}.

Definition init : State := mk_state ∅ ∅ ∅ empty_graph.

Definition add_user (uid : UID) (st : State) : Vertex * State :=
  match users st !! uid with
  | Some node => (node, st)
  | None =>
    let '(node, g') := add_vertex (g st) in
    (node, mk_state (map_insert_new uid node (users st))
                    (map_insert_new node uid (nodes st))
                    (friends st) g')
  end.

(** The key under which a connection is filed in [friends]. *)
Definition friend_key (connection : Connection) : Z :=
  perfect_hash (to_int connection.1) (to_int connection.2).

(** Reading [friends[k]] with [operator[]]: an absent key is inserted with
    the value [false]. *)
Definition friends_index (k : Z) (m : gmap Z bool) : bool * gmap Z bool :=
  match m !! k with
  | Some b => (b, m)
  | None => (false, <[k := false]> m)
  end.

Definition update_network (connection : Connection) (st : State) : State :=
  let v0 := connection.1 in
  let v1 := connection.2 in
  if negb (edge v0 v1 (g st))
  then mk_state (users st) (nodes st)
         (<[friend_key (v0, v1) := true]> (friends st))
         (add_edge v0 v1 () (g st))
  else st.

Definition build_paymo_network (payment_data : data_t) (st : State) : State :=
  foldl (λ st payment,
    let '(node1, st1) := add_user (id1 payment) st in
    let '(node2, st2) := add_user (id2 payment) st1 in
    update_network (create_connection node1 node2) st2) st payment_data.

(** [bfs_distance_visitor::tree_edge] *)
Definition tree_edge (stop_vertex : Vertex) (u v : Vertex) (d : list Z)
  : outcome (list Z) :=
  let d' := <[v := wrap_int (d !!! u + 1)]> d in
  if decide (v = stop_vertex) then Thrown d' else Normal d'.

(** [None] stands for a run that yields no value: the search out of fuel or
    [d[stop_node]] read out of range. *)
Definition friendship_degree (connection : Connection) (g : Graph unit) : option Z :=
  let start_node := connection.1 in
  let stop_node := connection.2 in
  let d := <[start_node := 0%Z]> (replicate (num_vertices g) INT_MAX) in
  r ← breadth_first_search (tree_edge stop_node) g start_node d;
  dist (caught r) !! stop_node.

(** One round of the main loop of STEP 4: the friendship value and the
    state left behind. *)
Definition main_loop_body (payment : payment_t) (st : State) : option (Z * State) :=
  let '(node1, st1) := add_user (id1 payment) st in
  let '(node2, st2) := add_user (id2 payment) st1 in
  let connection := create_connection node1 node2 in
  let '(connected, friends') := friends_index (friend_key connection) (friends st2) in
  let st3 := mk_state (users st2) (nodes st2) friends' (g st2) in
  if connected then Some (1%Z, st3)
  else
    friendship ← friendship_degree connection (g st3);
    Some (friendship, update_network connection st3).

(** The three output files, one line per payment, and the final state. *)
Record Output := mk_output {
  output1 : list string;
  output2 : list string;
  output3 : list string
}.

Definition write_verdicts (friendship : Z) (out : Output) : Output :=
  mk_output (output1 out ++ [verdict 1 friendship])
            (output2 out ++ [verdict 2 friendship])
            (output3 out ++ [verdict 4 friendship]).

Fixpoint main_loop (payment_data : data_t) (st : State) (out : Output)
  : option (Output * State) :=
  match payment_data with
  | [] => Some (out, st)
  | payment :: rest =>
    '(friendship, st') ← main_loop_body payment st;
    main_loop rest st' (write_verdicts friendship out)
  end.

(** STEP 2 and STEP 4 of [main] on the parsed batch and stream files. *)
Definition main (batch stream : data_t) : option (Output * State) :=
  main_loop stream (build_paymo_network batch init) (mk_output [] [] []).

End Bfs.

(** ** [fraud-alert.cpp] *)

Module Dijkstra.

Record State := mk_state {
  users : gmap UID Vertex;
  nodes : gmap Vertex UID;
  connections : gset Connection;
  g : Graph Z
}.

Definition init : State := mk_state ∅ ∅ ∅ empty_graph.

Definition add_user (uid : UID) (st : State) : Vertex * State :=
  match users st !! uid with
  | Some node => (node, st)
  | None =>
    let '(node, g') := add_vertex (g st) in
    (node, mk_state (map_insert_new uid node (users st))
                    (map_insert_new node uid (nodes st))
                    (connections st) g')
  end.

Definition update_network (connection : Connection) (st : State) : State :=
  let weight := 1%Z in
  let v0 := connection.1 in
  let v1 := connection.2 in
  if negb (edge v0 v1 (g st))
  then mk_state (users st) (nodes st)
         ({[ connection ]} ∪ connections st)
         (add_edge connection.1 connection.2 weight (g st))
  else st.

Definition build_paymo_network (payment_data : data_t) (st : State) : State :=
  foldl (λ st payment,
    let '(node1, st1) := add_user (id1 payment) st in
    let '(node2, st2) := add_user (id2 payment) st1 in
    update_network (create_connection node1 node2) st2) st payment_data.

(** [early_stop_visitor::finish_vertex] *)
Definition finish_vertex (target_node : Vertex) (s : Vertex) : outcome unit :=
  if decide (target_node = s) then Thrown () else Normal ().

(** The default [dijkstra_visitor], used without early stop. *)
Definition default_finish_vertex (s : Vertex) : outcome unit := Normal ().

(** The predecessor map of the early-stop branch is written and never read;
    it is left out.  [None] stands for a run that yields no value. *)
Definition friendship_degree (both_ways : bool) (tie : nat → nat)
    (connection : Connection) (g : Graph Z) (use_early_stop : bool) : option Z :=
  let start_node := connection.1 in
  let stop_node := connection.2 in
  r ← (if use_early_stop
       then dijkstra_shortest_paths both_ways tie (finish_vertex stop_node) g start_node
       else dijkstra_shortest_paths both_ways tie default_finish_vertex g start_node);
  dist (caught r) !! stop_node.

Definition main_loop_body (both_ways : bool) (tie : nat → nat)
    (payment : payment_t) (st : State) : option (Z * State) :=
  let '(node1, st1) := add_user (id1 payment) st in
  let '(node2, st2) := add_user (id2 payment) st1 in
  let connection := create_connection node1 node2 in
  if decide (connection ∈ connections st2) then Some (1%Z, st2)
  else
    let use_early_stop := true in
    friendship ← friendship_degree both_ways tie connection (g st2) use_early_stop;
    Some (friendship, update_network connection st2).

Record Output := mk_output {
  output1 : list string;
  output2 : list string;
  output3 : list string
}.

Definition write_verdicts (friendship : Z) (out : Output) : Output :=
  mk_output (output1 out ++ [verdict 1 friendship])
            (output2 out ++ [verdict 2 friendship])
            (output3 out ++ [verdict 4 friendship]).

Fixpoint main_loop (both_ways : bool) (tie : nat → nat)
    (payment_data : data_t) (st : State) (out : Output) : option (Output * State) :=
  match payment_data with
  | [] => Some (out, st)
  | payment :: rest =>
    '(friendship, st') ← main_loop_body both_ways tie payment st;
    main_loop both_ways tie rest st' (write_verdicts friendship out)
  end.

Definition main (both_ways : bool) (tie : nat → nat) (batch stream : data_t)
  : option (Output * State) :=
  main_loop both_ways tie stream (build_paymo_network batch init) (mk_output [] [] []).

End Dijkstra.

(** ** Reading the payment files

    An input stream is the text still to be read with its [eofbit] and
    [failbit] ([badbit] is never set: the device does not fail). *)

Record istream := mk_istream {
  buffer : string;
  eofbit : bool;
  failbit : bool
}.

Definition good (input : istream) : bool := negb (eofbit input) && negb (failbit input).

(** [std::ifstream file(name)]: a file that cannot be opened sets
    [failbit]. *)
Definition ifstream (file : option string) : istream :=
  match file with
  | Some text => mk_istream text false false
  | None => mk_istream "" false true
  end.

Definition stringstream (text : string) : istream := mk_istream text false false.

(** The text before the first [delim], and the text behind it when there is
    one. *)
Fixpoint until_delim (delim : ascii) (s : string) : string * option string :=
  match s with
  | EmptyString => (EmptyString, None)
  | String c s' =>
    if decide (c = delim) then (EmptyString, Some s')
    else let '(l, r) := until_delim delim s' in (String c l, r)
  end.

(** [std::getline(is, str, delim)]: a stream that is not good gets
    [failbit] and [str] is left alone; otherwise [str] is erased and filled
    up to the delimiter, which is discarded, or to the end of the text,
    which sets [eofbit], and [failbit] too when nothing was extracted. *)
Definition getline (input : istream) (str : string) (delim : ascii) : istream * string :=
  if good input then
    match until_delim delim (buffer input) with
    | (line, Some rest) => (mk_istream rest false false, line)
    | (line, None) => (mk_istream "" true (bool_decide (line = "")), line)
    end
  else (mk_istream (buffer input) (eofbit input) true, str).

(** [isspace] in the classic locale. *)
Definition isspace (c : ascii) : bool :=
  bool_decide (c ∈ [" "; "009"; "010"; "011"; "012"; "013"]%char).

Fixpoint skipws (s : string) : string :=
  match s with
  | EmptyString => EmptyString
  | String c s' => if isspace c then skipws s' else s
  end.

Definition digit_of (c : ascii) : option Z :=
  let n := Z.of_nat (nat_of_ascii c) in
  if decide (48 ≤ n ≤ 57)%Z then Some (n - 48)%Z else None.

(** The value of the leading decimal digits, [None] when there is none. *)
Fixpoint digits (s : string) (acc : option Z) : option Z :=
  match s with
  | EmptyString => acc
  | String c s' =>
    match digit_of c with
    | Some d => digits s' (Some (10 * default 0 acc + d)%Z)
    | None => acc
    end
  end.

Definition LONG_MAX : Z := 9223372036854775807.
Definition LONG_MIN : Z := -9223372036854775808.

Definition clamp (lo hi z : Z) : Z := Z.max lo (Z.min hi z).

(** [num_get::get] for a [long] in base 10: an optional sign and digits;
    zero when there is no digit (from C++11 on), the nearest [long] when the
    value does not fit. *)
Definition num_get_long (s : string) : Z :=
  let '(negative, s') :=
    match s with
    | String "-" r => (true, r)
    | String "+" r => (false, r)
    | _ => (false, s)
    end in
  match digits s' None with
  | None => 0
  | Some v => clamp LONG_MIN LONG_MAX (if negative : bool then - v else v)
  end.

(** [stringstream fss(field); fss >> val] for an [int]: leading white space
    is skipped; when nothing is left the sentry fails and [val] keeps its
    value; otherwise the [long] read is stored, cut to the range of [int]. *)
Definition extract_int (field : string) (val : Z) : Z :=
  match skipws field with
  | EmptyString => val
  | s => clamp INT_MIN INT_MAX (num_get_long s)
  end.

(** [istream& operator>>(istream& is, payment_t& record)] *)
Definition extract_payment (input : istream) (record : payment_t) : istream * payment_t :=
  let '(input', line) := getline input "" "010" in
  let ss := stringstream line in
  let '(ss, time') := getline ss (time record) "," in
  let '(ss, id1_field) := getline ss "" "," in
  let '(ss, id2_field) := getline ss "" "," in
  let '(ss, amount') := getline ss (amount record) "," in
  let '(ss, message') := getline ss (message record) "010" in
  (input', mk_payment time' (extract_int id1_field (id1 record))
                   (extract_int id2_field (id2 record)) amount' message').

(** The loop [while (is >> record) data.push_back(record)]; [fuel] bounds
    the number of rounds. *)
Fixpoint extract_records (fuel : nat) (input : istream) (record : payment_t) (data : data_t)
  : option (istream * data_t) :=
  match fuel with
  | O => None
  | S fuel' =>
    let '(input', record') := extract_payment input record in
    if failbit input' then Some (input', data)
    else extract_records fuel' input' record' (data ++ [record'])
  end.

(** [istream& operator>>(istream& is, data_t& data)].  The two [int]s of the
    local [record] start out indeterminate: [uninit] stands for them. *)
Definition extract_data (input : istream) (uninit : Z * Z) : option (istream * data_t) :=
  let '(input', header_line) := getline input "" "010" in
  extract_records (S (S (String.length (buffer input')))) input'
    (mk_payment "" uninit.1 uninit.2 "" "") [].

(** ** [build_visualization] and [main] with its files

    A text file written line by line is the list of its lines.  [ostream <<]
    prints an [int] in decimal.  The directories of the output files are
    taken to exist, and the messages on [cout] are left out. *)

(** Reading [nodes[v]] with [operator[]]: an absent key is inserted with the
    value 0. *)
Definition nodes_index (v : Vertex) (m : gmap Vertex UID) : UID * gmap Vertex UID :=
  match m !! v with
  | Some uid => (uid, m)
  | None => (0%Z, <[v := 0%Z]> m)
  end.

Definition dot_header : list string :=
  [ "digraph A {";
    "  rankdir=LR";
    "size=" +:+ String "034" "5,3" +:+ String "034" "";
    "ratio=" +:+ String "034" "fill" +:+ String "034" "";
    "edge[style=" +:+ String "034" "bold" +:+ String "034" "]";
    "node[shape=" +:+ String "034" "oval" +:+ String "034" "]" ].

(** The loop over [edges(g)]: one line per entry of the edge list, in
    order. *)
Fixpoint dot_edges {W} (label : W → string) (es : list (Vertex * Vertex * W))
    (nodes : gmap Vertex UID) : list string * gmap Vertex UID :=
  match es with
  | [] => ([], nodes)
  | e :: es' =>
    let '(src, nodes1) := nodes_index e.1.1 nodes in
    let '(tgt, nodes2) := nodes_index e.1.2 nodes1 in
    let line := pretty src +:+ " -> " +:+ pretty tgt +:+ "[label=" +:+ label e.2 +:+ "]" in
    let '(lines, nodes3) := dot_edges label es' nodes2 in
    (line :: lines, nodes3)
  end.

Definition build_visualization {W} (label : W → string) (g : Graph W)
    (nodes : gmap Vertex UID) : list string * gmap Vertex UID :=
  let '(lines, nodes') := dot_edges label (m_edges g) nodes in
  (dot_header ++ lines ++ ["}"], nodes').

(** What a run leaves behind: the exit status and, when STEP 4 is reached,
    the three output files and [figs/paymo-network.dot]. *)
Record Files := mk_files {
  out1 : list string;
  out2 : list string;
  out3 : list string;
  dot : list string
}.

Module BfsMain.

(** [<< "[label=1]\n"] *)
Definition label (w : unit) : string := "1".

(** [main]; [None] only when a loop runs out of fuel. *)
Definition main (batch_file stream_file : option string) (uninit : Z * Z * (Z * Z))
  : option (Z * option Files) :=
  '(batch_input, payment_data) ← extract_data (ifstream batch_file) uninit.1;
  if negb (eofbit batch_input) then Some (1%Z, None)
  else
    let st := Bfs.build_paymo_network payment_data Bfs.init in
    '(stream_input, payment_data) ← extract_data (ifstream stream_file) uninit.2;
    if negb (eofbit stream_input) then Some (1%Z, None)
    else
      '(out, st') ← Bfs.main_loop payment_data st (Bfs.mk_output [] [] []);
      let '(figure, nodes') := build_visualization label (Bfs.g st') (Bfs.nodes st') in
      Some (0%Z, Some (mk_files (Bfs.output1 out) (Bfs.output2 out) (Bfs.output3 out)
                                figure)).

End BfsMain.

Module DijkstraMain.

(** [<< "[label=" << get(edge_weight, g)[*ei] << "]\n"] *)
Definition label (w : Z) : string := pretty w.

Definition main (both_ways : bool) (tie : nat → nat)
    (batch_file stream_file : option string) (uninit : Z * Z * (Z * Z))
  : option (Z * option Files) :=
  '(batch_input, payment_data) ← extract_data (ifstream batch_file) uninit.1;
  if negb (eofbit batch_input) then Some (1%Z, None)
  else
    let st := Dijkstra.build_paymo_network payment_data Dijkstra.init in
    '(stream_input, payment_data) ← extract_data (ifstream stream_file) uninit.2;
    if negb (eofbit stream_input) then Some (1%Z, None)
    else
      '(out, st') ← Dijkstra.main_loop both_ways tie payment_data st
                      (Dijkstra.mk_output [] [] []);
      let '(figure, nodes') :=
        build_visualization label (Dijkstra.g st') (Dijkstra.nodes st') in
      Some (0%Z, Some (mk_files (Dijkstra.output1 out) (Dijkstra.output2 out)
                                (Dijkstra.output3 out) figure)).

End DijkstraMain.

(** * Specification vocabulary

    Everything below this line is about the programs above: the graph
    notions the claims speak of, the loop invariants of the two searches, the
    state invariants of the two programs, and closed forms of
    [perfect_hash]. *)

(** ** Graphs *)

(** [adjacent g u v]: [v] is stored in the out-edge vector of [u]; this is
    what [edge], [breadth_first_search] and [dijkstra_shortest_paths] read. *)
Definition adjacent {W} (g : Graph W) (u v : Vertex) : Prop :=
  ∃ w, (v, w) ∈ out_edges g u.

(** [linked g u v]: the edge list joins [u] and [v], in either order. *)
Definition linked {W} (g : Graph W) (u v : Vertex) : Prop :=
  ∃ w, (u, v, w) ∈ m_edges g ∨ (v, u, w) ∈ m_edges g.

Definition targets_in_range {W} (g : Graph W) : Prop :=
  ∀ u v, adjacent g u v → v < num_vertices g.

(** The representation invariant of the container: out-edge vectors and edge
    list describe the same undirected graph over the existing vertices. *)
Record graph_ok {W} (g : Graph W) : Prop := {
  ok_range : targets_in_range g;
  ok_edges : ∀ u v, adjacent g u v ↔ linked g u v
}.

(** No two entries of the edge list join the same unordered pair. *)
Definition simple_edges {W} (g : Graph W) : Prop :=
  NoDup (m_edges g).*1 ∧ ∀ e, e ∈ (m_edges g).*1 → e.1 ≤ e.2.

Definition unit_weights (g : Graph Z) : Prop :=
  ∀ u e, e ∈ out_edges g u → e.2 = 1%Z.

(** The graph of [fraud-alert.cpp] seen as a graph of
    [fraud-alert-bfs.cpp]: same vertices and edges, no weights. *)
Definition forget_weight {A} (e : A * Z) : A * unit := (e.1, ()).

Definition forget_weights (g : Graph Z) : Graph unit :=
  mk_graph ((λ l : list (nat * Z), forget_weight <$> l) <$> m_vertices g)
           (forget_weight <$> m_edges g).

(** Walks of [k] steps along out-edge vectors, and along the edge list. *)
Inductive walk {W} (g : Graph W) (s : Vertex) : nat → Vertex → Prop :=
| walk_here : walk g s 0 s
| walk_step k u v : walk g s k u → adjacent g u v → walk g s (S k) v.

Inductive path {W} (g : Graph W) (s : Vertex) : nat → Vertex → Prop :=
| path_here : path g s 0 s
| path_step k u v : path g s k u → linked g u v → path g s (S k) v.

Definition reachable {W} (g : Graph W) (s t : Vertex) : Prop := ∃ k, walk g s k t.

Definition distance {W} (g : Graph W) (s t : Vertex) (k : nat) : Prop :=
  walk g s k t ∧ ∀ k', walk g s k' t → k ≤ k'.

Definition connected {W} (g : Graph W) (s t : Vertex) : Prop := ∃ k, path g s k t.

(** [k] is the degree of separation of [s] and [t]: the length of a shortest
    path in edge count. *)
Definition shortest_path {W} (g : Graph W) (s t : Vertex) (k : nat) : Prop :=
  path g s k t ∧ ∀ k', path g s k' t → k ≤ k'.

(** What the contract of the search asks of a result: a value is returned,
    it is the degree of separation when there is one, and the maximal [int]
    when the target cannot be reached. *)
Definition degree_spec {W} (g : Graph W) (s t : Vertex) (result : option Z) : Prop :=
  is_Some result ∧
  (∀ k, shortest_path g s t k → result = Some (Z.of_nat k)) ∧
  (¬ connected g s t → result = Some INT_MAX).

(** ** The searches *)

Fixpoint whites (c : list Color) : nat :=
  match c with
  | [] => 0
  | x :: c' => (if decide (x = White) then 1 else 0) + whites c'
  end.

Definition visited (c : list Color) (v : Vertex) : Prop :=
  ∃ x, c !! v = Some x ∧ x ≠ White.

(** [bfs_distance_visitor::tree_edge] without the [throw]: the run it
    describes is the one the early stop cuts short. *)
Definition record_distance (u v : Vertex) (d : list Z) : outcome (list Z) :=
  Normal (<[v := wrap_int (d !!! u + 1)]> d).

(** The state both searches start from. *)
Definition bfs_init {W} (g : Graph W) (s : Vertex) (d : list Z) : bfs_state :=
  mk_bfs (<[s := Gray]> (replicate (num_vertices g) White)) d [s].

Fixpoint q_sorted (d : list Z) (q : list Vertex) : Prop :=
  match q with
  | [] => True
  | a :: q' => (∀ b, b ∈ q' → (d !!! a ≤ d !!! b)%Z) ∧ q_sorted d q'
  end.

(** What holds of the colours and distances throughout either search from
    [s]: a visited vertex carries the length of a walk from [s], a white one
    the maximal [int], and the out-edges of a black vertex lead to visited
    vertices at most one step further. *)
Record search_core {W} (g : Graph W) (s : Vertex) (st : bfs_state) : Prop := {
  core_len_color : length (color st) = num_vertices g;
  core_len_dist : length (dist st) = num_vertices g;
  core_walk : ∀ v, visited (color st) v →
    ∃ k, dist st !!! v = Z.of_nat k ∧ walk g s k v;
  core_white : ∀ v, color st !! v = Some White → dist st !!! v = INT_MAX;
  core_black : ∀ b x, color st !! b = Some Black → adjacent g b x →
    visited (color st) x ∧ (dist st !!! x ≤ dist st !!! b + 1)%Z;
  core_source : visited (color st) s ∧ dist st !!! s = 0%Z;
  core_bound : ∀ v, visited (color st) v →
    (dist st !!! v + Z.of_nat (whites (color st)) < Z.of_nat (num_vertices g))%Z;
  core_nodup : NoDup (queue st)
}.

(** Between two pops of the breadth first search. *)
Record bfs_outer {W} (g : Graph W) (s : Vertex) (st : bfs_state) : Prop := {
  bo_core : search_core g s st;
  bo_near : ∀ w q, visited (color st) w → q ∈ queue st →
    (dist st !!! w ≤ dist st !!! q + 1)%Z;
  bo_sorted : q_sorted (dist st) (queue st);
  bo_gray : ∀ v, v ∈ queue st ↔ color st !! v = Some Gray
}.

(** While the out-edges of [u] are walked, [done] being those behind. *)
Record bfs_inner {W} (g : Graph W) (s u : Vertex) (done : list Vertex)
    (st : bfs_state) : Prop := {
  bi_core : search_core g s st;
  bi_done : ∀ x, x ∈ done →
    visited (color st) x ∧ (dist st !!! x ≤ dist st !!! u + 1)%Z;
  bi_near : ∀ w, visited (color st) w → (dist st !!! w ≤ dist st !!! u + 1)%Z;
  bi_min : ∀ q, q ∈ queue st → (dist st !!! u ≤ dist st !!! q)%Z;
  bi_sorted : q_sorted (dist st) (queue st);
  bi_gray : ∀ v, v ∈ queue st ↔ color st !! v = Some Gray ∧ v ≠ u;
  bi_cur : color st !! u = Some Gray
}.

(** The same two for Dijkstra's algorithm with unit weights. *)
Record dij_outer (g : Graph Z) (s : Vertex) (st : bfs_state) : Prop := {
  do_core : search_core g s st;
  do_mono : ∀ b w, color st !! b = Some Black → color st !! w = Some Gray →
    (dist st !!! b ≤ dist st !!! w)%Z;
  do_gray : ∀ v, v ∈ queue st ↔ color st !! v = Some Gray
}.

Record dij_inner (g : Graph Z) (s u : Vertex) (done : list Vertex)
    (st : bfs_state) : Prop := {
  di_core : search_core g s st;
  di_done : ∀ x, x ∈ done →
    visited (color st) x ∧ (dist st !!! x ≤ dist st !!! u + 1)%Z;
  di_mono : ∀ b w, color st !! b = Some Black → color st !! w = Some Gray →
    (dist st !!! b ≤ dist st !!! w)%Z;
  di_min : ∀ w, color st !! w = Some Gray → (dist st !!! u ≤ dist st !!! w)%Z;
  di_gray : ∀ v, v ∈ queue st ↔ color st !! v = Some Gray ∧ v ≠ u;
  di_cur : color st !! u = Some Gray
}.

(** The values a distance map holds: none is negative. *)
Definition int_distance (x : Z) : Prop := (0 ≤ x ≤ INT_MAX)%Z.

(** ** The programs *)

Definition canonical (c : Connection) : Prop := c.1 ≤ c.2.

(** Two payments between the same two users, in either order. *)
Definition same_pair (p p' : payment_t) : Prop :=
  (id1 p' = id1 p ∧ id2 p' = id2 p) ∨ (id1 p' = id2 p ∧ id2 p' = id1 p).

(** The truth value the main loop reads from the index. *)
Definition bfs_is_connected (st : Bfs.State) (c : Connection) : bool :=
  default false (Bfs.friends st !! Bfs.friend_key c).

Definition dij_is_connected (st : Dijkstra.State) (c : Connection) : bool :=
  bool_decide (c ∈ Dijkstra.connections st).

(** What holds of every state [fraud-alert-bfs.cpp] reaches (lemmas
    [bfs_build_spec], [bfs_main_loop_spec]). *)
Record bfs_inv (st : Bfs.State) : Prop := {
  binv_graph : graph_ok (Bfs.g st);
  binv_simple : simple_edges (Bfs.g st);
  binv_users : ∀ uid v, Bfs.users st !! uid = Some v → v < num_vertices (Bfs.g st);
  binv_complete : ∀ a b, a ≤ b → edge a b (Bfs.g st) = true →
    Bfs.friends st !! Bfs.friend_key (a, b) = Some true;
  binv_sound : ∀ k, Bfs.friends st !! k = Some true →
    ∃ a b, a ≤ b ∧ k = Bfs.friend_key (a, b) ∧ edge a b (Bfs.g st) = true
}.

(** The state only grows: users, vertices, edges and index entries stay. *)
Record bfs_extends (st st' : Bfs.State) : Prop := {
  bext_vertices : num_vertices (Bfs.g st) ≤ num_vertices (Bfs.g st');
  bext_users : ∀ uid v, Bfs.users st !! uid = Some v → Bfs.users st' !! uid = Some v;
  bext_edges : ∀ a b, edge a b (Bfs.g st) = true → edge a b (Bfs.g st') = true;
  bext_friends : ∀ k, Bfs.friends st !! k = Some true → Bfs.friends st' !! k = Some true
}.

(** The connection of a payment and the state once both users are resolved:
    the state a live-mode search runs against. *)
Definition bfs_resolve (payment : payment_t) (st : Bfs.State) : Connection * Bfs.State :=
  let '(node1, st1) := Bfs.add_user (id1 payment) st in
  let '(node2, st2) := Bfs.add_user (id2 payment) st1 in
  (create_connection node1 node2, st2).

(** The state after the [friends[...]] read of the main loop. *)
Definition bfs_after_read (c : Connection) (st : Bfs.State) : Bfs.State :=
  Bfs.mk_state (Bfs.users st) (Bfs.nodes st)
    (Bfs.friends_index (Bfs.friend_key c) (Bfs.friends st)).2 (Bfs.g st).

(** The user ids of a payment record fit the record's [int] fields. *)
Definition int_payment (p : payment_t) : Prop := is_int (id1 p) ∧ is_int (id2 p).

(** The registry holds one vertex per user, and the users are [int]s: the
    graph then has at most 2^32 vertices (lemma [bfs_registry_bound]). *)
Record bfs_registry (st : Bfs.State) : Prop := {
  breg_count : num_vertices (Bfs.g st) = size (Bfs.users st);
  breg_int : ∀ uid v, Bfs.users st !! uid = Some v → is_int uid
}.

(** The same for [fraud-alert.cpp] (lemmas [dij_build_spec],
    [dij_main_loop_spec]). *)
Record dij_inv (st : Dijkstra.State) : Prop := {
  dinv_graph : graph_ok (Dijkstra.g st);
  dinv_simple : simple_edges (Dijkstra.g st);
  dinv_unit : unit_weights (Dijkstra.g st);
  dinv_users : ∀ uid v, Dijkstra.users st !! uid = Some v →
    v < num_vertices (Dijkstra.g st);
  dinv_index : ∀ c, c ∈ Dijkstra.connections st ↔
    canonical c ∧ edge c.1 c.2 (Dijkstra.g st) = true
}.

Record dij_extends (st st' : Dijkstra.State) : Prop := {
  dext_vertices : num_vertices (Dijkstra.g st) ≤ num_vertices (Dijkstra.g st');
  dext_users : ∀ uid v, Dijkstra.users st !! uid = Some v →
    Dijkstra.users st' !! uid = Some v;
  dext_edges : ∀ a b, edge a b (Dijkstra.g st) = true → edge a b (Dijkstra.g st') = true;
  dext_connections : ∀ c, c ∈ Dijkstra.connections st → c ∈ Dijkstra.connections st'
}.

Definition dij_resolve (payment : payment_t) (st : Dijkstra.State)
  : Connection * Dijkstra.State :=
  let '(node1, st1) := Dijkstra.add_user (id1 payment) st in
  let '(node2, st2) := Dijkstra.add_user (id2 payment) st1 in
  (create_connection node1 node2, st2).

(** The friendship values of the rounds of the main loop, in order. *)
Fixpoint bfs_degrees (data : data_t) (st : Bfs.State) : option (list Z) :=
  match data with
  | [] => Some []
  | payment :: rest =>
    '(friendship, st') ← Bfs.main_loop_body payment st;
    fs ← bfs_degrees rest st';
    Some (friendship :: fs)
  end.

Fixpoint dij_degrees (both_ways : bool) (tie : nat → nat)
    (data : data_t) (st : Dijkstra.State) : option (list Z) :=
  match data with
  | [] => Some []
  | payment :: rest =>
    '(friendship, st') ← Dijkstra.main_loop_body both_ways tie payment st;
    fs ← dij_degrees both_ways tie rest st';
    Some (friendship :: fs)
  end.

(** One round of [fraud-alert.cpp] with its search replaced by the breadth
    first search of [fraud-alert-bfs.cpp] on the same graph. *)
Definition dij_body_by_bfs (payment : payment_t) (st : Dijkstra.State)
  : option (Z * Dijkstra.State) :=
  let c := (dij_resolve payment st).1 in
  let st2 := (dij_resolve payment st).2 in
  if dij_is_connected st2 c then Some (1%Z, st2)
  else friendship ← Bfs.friendship_degree c (forget_weights (Dijkstra.g st2));
       Some (friendship, Dijkstra.update_network c st2).

Fixpoint dij_degrees_by_bfs (data : data_t) (st : Dijkstra.State) : option (list Z) :=
  match data with
  | [] => Some []
  | payment :: rest =>
    '(friendship, st') ← dij_body_by_bfs payment st;
    fs ← dij_degrees_by_bfs rest st';
    Some (friendship :: fs)
  end.

(** A payment record with only the two user ids filled in, and the history
    of the scenario: payments between users 1-2, 2-3 and 3-4. *)
Definition pay (a b : UID) : payment_t := mk_payment "" a b "" "".

Definition batch3 : data_t := [pay 1 2; pay 2 3; pay 3 4].

Definition bfs_history : Bfs.State := Bfs.build_paymo_network batch3 Bfs.init.

Definition dij_history : Dijkstra.State :=
  Dijkstra.build_paymo_network batch3 Dijkstra.init.

(** ** [perfect_hash] in closed form *)

Definition zz (a : Z) : Z := (if 0 <=? a then 2 * a else -2 * a - 1)%Z.

Definition szudzik (A B : Z) : Z := (if B <=? A then A * A + A + B else A + B * B)%Z.

Definition same_sign (a b : Z) : bool :=
  ((a <? 0) && (b <? 0) || (0 <=? a) && (0 <=? b))%Z.

(** [perfect_hash] without the wrap-around. *)
Definition hash_spec (a b : Z) : Z :=
  let C := (szudzik (zz a) (zz b) / 2)%Z in
  if same_sign a b then C else (- C - 1)%Z.

(** The same value as a polynomial on each sign quadrant. *)
Definition hash_poly (a b : Z) : Z :=
  (if 0 <=? a then
     if 0 <=? b then (if b <=? a then 2*a*a + a + b else a + 2*b*b)
     else (if -b <=? a then - (2*a*a + a - b) else - (2*b*b + 2*b + a) - 1)
   else
     if 0 <=? b then (if b <? -a then - (2*a*a + a + b) - 1 else - (2*b*b - a))
     else (if a <=? b then 2*a*a + a - b - 1 else 2*b*b + 2*b - a))%Z.

(** [hash_poly a b] is [2 m² + r], or its complement, with
    [0 ≤ r ≤ 4 m + 1]: the shell [m] and the offset [r] of a pair. *)
Definition shell (a b : Z) : Z * Z :=
  (if 0 <=? a then
     if 0 <=? b then (if b <=? a then (a, a + b) else (b, a))
     else (if -b <=? a then (a, a - b - 1) else (- b - 1, - 2 * b - 2 + a))
   else
     if 0 <=? b then (if b <? -a then (- a - 1, - 3 * a - 2 + b) else (b, - a - 1))
     else (if a <=? b then (- a - 1, - 3 * a - 3 - b) else (- b - 1, - 2 * b - 2 - a)))%Z.

Ltac split_comparisons :=
  repeat match goal with
  | |- context [(?x <=? ?y)%Z] => destruct (Z.leb_spec x y)
  | |- context [(?x <? ?y)%Z] => destruct (Z.ltb_spec x y)
  end.

(** ** Vocabulary of the further properties *)

(** [users] and [nodes] are inverse to each other and hold the vertices
    [0 .. n-1], one per user. *)
Record registry_ok (users : gmap Z nat) (nodes : gmap nat Z) (n : nat) : Prop := {
  reg_inverse : ∀ uid v, users !! uid = Some v ↔ nodes !! v = Some uid;
  reg_dense : ∀ v, is_Some (nodes !! v) ↔ v < n;
  reg_count : size users = n
}.

Definition bfs_registry_ok (st : Bfs.State) : Prop :=
  registry_ok (Bfs.users st) (Bfs.nodes st) (num_vertices (Bfs.g st)).

Definition dij_registry_ok (st : Dijkstra.State) : Prop :=
  registry_ok (Dijkstra.users st) (Dijkstra.nodes st) (num_vertices (Dijkstra.g st)).

(** The two programs hold the same registry and the same graph, weights
    apart. *)
Record same_network (sb : Bfs.State) (sd : Dijkstra.State) : Prop := {
  sn_users : Bfs.users sb = Dijkstra.users sd;
  sn_nodes : Bfs.nodes sb = Dijkstra.nodes sd;
  sn_graph : Bfs.g sb = forget_weights (Dijkstra.g sd)
}.

(** What a search from [s] returns for [t]: the maximal [int] when [t] is
    out of reach, else the distance, which is below the vertex count. *)
Definition degree_of {W} (g : Graph W) (s t : Vertex) (d : Z) : Prop :=
  d = INT_MAX ∧ ¬ reachable g s t ∨
  ∃ k, d = Z.of_nat k ∧ distance g s t k ∧ k < num_vertices g.

(** [uid] pays or is paid in [data]. *)
Definition occurs (data : data_t) (uid : UID) : Prop :=
  ∃ p, p ∈ data ∧ (id1 p = uid ∨ id2 p = uid).

(** Users [a] and [b] are registered and an edge joins their vertices. *)
Definition bfs_joined (st : Bfs.State) (a b : UID) : Prop :=
  ∃ va vb, Bfs.users st !! a = Some va ∧ Bfs.users st !! b = Some vb ∧
           edge va vb (Bfs.g st) = true.

Definition dij_joined (st : Dijkstra.State) (a b : UID) : Prop :=
  ∃ va vb, Dijkstra.users st !! a = Some va ∧ Dijkstra.users st !! b = Some vb ∧
           edge va vb (Dijkstra.g st) = true.

(** A payment between [a] and [b], in either direction. *)
Definition pays (p : payment_t) (a b : UID) : Prop :=
  (id1 p = a ∧ id2 p = b) ∨ (id1 p = b ∧ id2 p = a).

(** Two states of [fraud-alert-bfs.cpp] that differ at most in entries of
    [friends] that hold [false]. *)
Record same_answers (st st' : Bfs.State) : Prop := {
  sa_users : Bfs.users st = Bfs.users st';
  sa_nodes : Bfs.nodes st = Bfs.nodes st';
  sa_graph : Bfs.g st = Bfs.g st';
  sa_friends : ∀ k, default false (Bfs.friends st !! k)
                    = default false (Bfs.friends st' !! k)
}.

(** A chain of [k] payments of [data] leads from user [a] to user [b], each
    payment taken in either direction. *)
Inductive chain (data : data_t) (a : UID) : nat → UID → Prop :=
| chain_here : chain data a 0 a
| chain_step k u v q :
    chain data a k u → q ∈ data → pays q u v → chain data a (S k) v.

(** The two users of [p] are at most [th] payments of [data] apart. *)
Definition near (data : data_t) (p : payment_t) (th : Z) : Prop :=
  ∃ k, (Z.of_nat k ≤ th)%Z ∧ chain data (id1 p) k (id2 p).

(** The line [v] of an output file says whether [P] holds. *)
Definition verdict_is (v : string) (P : Prop) : Prop :=
  P ∧ v = "Trusted" ∨ ¬ P ∧ v = "Unverified".

(** The lines of a text: every newline ends one, and so does the end of the
    text after a character that is not a newline. *)
Fixpoint lines (s : string) : list string :=
  match s with
  | EmptyString => []
  | String c s' =>
    if decide (c = "010"%char) then EmptyString :: lines s'
    else match lines s' with
         | [] => [String c EmptyString]
         | l :: ls => String c l :: ls
         end
  end.

(** The record [operator>>] leaves when it reads [line], [record] being
    what the previous round left. *)
Definition parse_line (record : payment_t) (line : string) : payment_t :=
  (extract_payment (stringstream line) record).2.

Fixpoint parse_lines (ls : list string) (record : payment_t) : data_t :=
  match ls with
  | [] => []
  | l :: ls' => parse_line record l :: parse_lines ls' (parse_line record l)
  end.

(** No character of [s] is [c]. *)
Fixpoint free_of (c : ascii) (s : string) : Prop :=
  match s with
  | EmptyString => True
  | String c' s' => c' ≠ c ∧ free_of c s'
  end.

(** What is still to be read of a stream, line by line. *)
Definition pending (input : istream) : list string :=
  if good input then lines (buffer input) else [].

(** [s] does not begin with a decimal digit. *)
Definition no_digit_ahead (s : string) : Prop :=
  match s with
  | EmptyString => True
  | String c _ => digit_of c = None
  end.

(** The payments a file holds: its lines but the first, each read into the
    record the line before left. *)
Definition payments_of (text : string) (uninit : Z * Z) : data_t :=
  parse_lines (tail (lines text)) (mk_payment "" uninit.1 uninit.2 "" "").

(** The user id [build_visualization] prints for a vertex. *)
Definition uid_of (nodes : gmap Vertex UID) (v : Vertex) : UID :=
  default 0%Z (nodes !! v).

Definition dot_line {W} (label : W → string) (nodes : gmap Vertex UID)
    (e : Vertex * Vertex * W) : string :=
  pretty (uid_of nodes e.1.1) +:+ " -> " +:+ pretty (uid_of nodes e.1.2)
    +:+ "[label=" +:+ label e.2 +:+ "]".

(** Every entry of the edge list has weight 1. *)
Definition unit_edge_list (g : Graph Z) : Prop := ∀ e, e ∈ m_edges g → e.2 = 1%Z.

(** * Lemmas *)

(** ** Colours, counting and the queue order *)

Lemma wrap_int_id z : (INT_MIN ≤ z ≤ INT_MAX)%Z → wrap_int z = z.
Proof. unfold INT_MIN, INT_MAX, wrap_int. intros H. rewrite Z.mod_small; lia. Qed.

Lemma whites_insert_white c v y :
  c !! v = Some White → y ≠ White → whites (<[v := y]> c) + 1 = whites c.
Proof.
  revert v. induction c as [|x c IH]; intros [|v] Hv Hy; simplify_eq/=.
  - destruct (decide (y = White)); [done|]. lia.
  - rewrite <- (IH v) by done. lia.
Qed.

Lemma whites_insert_le c v y : y ≠ White → whites (<[v := y]> c) ≤ whites c.
Proof.
  intros Hy. revert v. induction c as [|x c IH]; intros [|v]; simpl; try lia.
  - destruct (decide (y = White)); [done|]. destruct (decide _); lia.
  - specialize (IH v). lia.
Qed.

Lemma whites_insert_same c v x y :
  c !! v = Some x → x ≠ White → y ≠ White → whites (<[v := y]> c) = whites c.
Proof.
  revert v. induction c as [|z c IH]; intros [|v] Hv Hx Hy; simplify_eq/=.
  - by repeat destruct (decide _).
  - by rewrite (IH v).
Qed.

Lemma whites_pos c v : c !! v = Some White → 0 < whites c.
Proof.
  revert v. induction c as [|x c IH]; intros [|v] Hv; simplify_eq/=; [lia|].
  specialize (IH _ Hv). lia.
Qed.

Lemma visited_insert c v z y x :
  c !! v = Some z → y ≠ White →
  visited (<[v := y]> c) x ↔ visited c x ∨ x = v.
Proof.
  intros Hv Hy. unfold visited. assert (v < length c) by by eapply lookup_lt_Some.
  destruct (decide (x = v)) as [->|Hne].
  - rewrite list_lookup_insert_eq by done. naive_solver.
  - rewrite list_lookup_insert_ne by done. naive_solver.
Qed.

Lemma visited_insert_same c v z y x :
  c !! v = Some z → z ≠ White → y ≠ White →
  visited (<[v := y]> c) x ↔ visited c x.
Proof.
  intros Hv Hz Hy. rewrite visited_insert by done. unfold visited. naive_solver.
Qed.

Lemma q_sorted_ext d d' q :
  (∀ a, a ∈ q → d' !!! a = d !!! a) → q_sorted d q → q_sorted d' q.
Proof.
  induction q as [|a q IH]; simpl; [done|]. intros Heq [H1 H2]. split.
  - intros b Hb. rewrite !Heq by (set_solver). by apply H1.
  - apply IH; [|done]. intros; apply Heq; set_solver.
Qed.

Lemma q_sorted_snoc d q v :
  q_sorted d q → (∀ a, a ∈ q → (d !!! a ≤ d !!! v)%Z) → q_sorted d (q ++ [v]).
Proof.
  induction q as [|a q IH]; simpl.
  - intros _ _. split; [|done]. intros b Hb. by apply not_elem_of_nil in Hb.
  - intros [H1 H2] Hv. split.
    + intros b Hb. apply elem_of_app in Hb as [Hb|Hb]; [by apply H1|].
      apply list_elem_of_singleton in Hb as ->. apply Hv. set_solver.
    + apply IH; [done|]. intros; apply Hv; set_solver.
Qed.

(** ** The invariant shared by the two searches *)

Section SearchCore.
Context {W : Type} (g : Graph W) (s : Vertex).
Hypothesis Hrange : targets_in_range g.
Hypothesis Hsize : (Z.of_nat (num_vertices g) ≤ INT_MAX)%Z.

Lemma visited_lt st v : search_core g s st → visited (color st) v → v < num_vertices g.
Proof.
  intros C (x & Hx & _). rewrite <- (core_len_color _ _ _ C). by eapply lookup_lt_Some.
Qed.

Lemma core_succ_small st u v :
  search_core g s st → visited (color st) u → color st !! v = Some White →
  (0 ≤ dist st !!! u)%Z ∧ (dist st !!! u + 1 < INT_MAX)%Z ∧
  wrap_int (dist st !!! u + 1) = (dist st !!! u + 1)%Z.
Proof.
  intros C Hu Hv.
  destruct (core_walk _ _ _ C u Hu) as (k & Hk & _).
  pose proof (core_bound _ _ _ C u Hu) as Hb.
  pose proof (whites_pos _ _ Hv) as Hw.
  assert (0 ≤ dist st !!! u)%Z by lia.
  assert (dist st !!! u + 1 < INT_MAX)%Z by lia.
  split_and!; [done..|]. apply wrap_int_id. unfold INT_MIN, INT_MAX in *. lia.
Qed.

Lemma core_discover st u v :
  search_core g s st → visited (color st) u → adjacent g u v →
  color st !! v = Some White → v ∉ queue st →
  search_core g s
    (mk_bfs (<[v := Gray]> (color st)) (<[v := (dist st !!! u + 1)%Z]> (dist st))
            (queue st ++ [v])).
Proof.
  intros C Hu Hadj Hv Hq.
  assert (v < num_vertices g) as Hvn by (by eapply Hrange).
  assert (v < length (dist st)) as Hvd by (by rewrite (core_len_dist _ _ _ C)).
  assert (Hvis : ∀ x, visited (<[v := Gray]> (color st)) x ↔ visited (color st) x ∨ x = v).
  { intros x. by eapply visited_insert. }
  assert (Hnv : ∀ x, visited (color st) x → x ≠ v).
  { intros x (c & Hc & Hne) ->. congruence. }
  assert (Hd : ∀ x, x ≠ v → <[v := (dist st !!! u + 1)%Z]> (dist st) !!! x = dist st !!! x).
  { intros x Hx. by rewrite list_lookup_total_insert_ne. }
  assert (Hdv : <[v := (dist st !!! u + 1)%Z]> (dist st) !!! v = (dist st !!! u + 1)%Z).
  { by rewrite list_lookup_total_insert_eq. }
  destruct (core_succ_small st u v C Hu Hv) as (Hu0 & Hu1 & _).
  constructor; cbn [color dist queue].
  - rewrite length_insert. apply C.
  - rewrite length_insert. apply C.
  - intros x Hx. apply Hvis in Hx as [Hx | ->].
    + rewrite Hd by auto. by apply C.
    + rewrite Hdv. destruct (core_walk _ _ _ C u Hu) as (k & Hk & Hw).
      exists (S k). split; [lia|]. by eapply walk_step.
  - intros x Hx. destruct (decide (x = v)) as [->|Hne].
    + rewrite list_lookup_insert_eq in Hx by (by rewrite (core_len_color _ _ _ C)). done.
    + rewrite list_lookup_insert_ne in Hx by done. rewrite Hd by done. by apply C.
  - intros b x Hb Hbx.
    assert (b ≠ v) as Hbv.
    { intros ->. rewrite list_lookup_insert_eq in Hb by (by rewrite (core_len_color _ _ _ C)). done. }
    rewrite list_lookup_insert_ne in Hb by done.
    destruct (core_black _ _ _ C b x Hb Hbx) as [Hx Hle].
    split; [apply Hvis; by left|]. rewrite !Hd by auto. done.
  - destruct (core_source _ _ _ C) as [Hs Hs0]. split; [apply Hvis; by left|].
    rewrite Hd by auto. done.
  - intros x Hx. pose proof (whites_insert_white (color st) v Gray Hv ltac:(done)) as Hwh.
    apply Hvis in Hx as [Hx | ->].
    + rewrite Hd by auto. pose proof (core_bound _ _ _ C x Hx). lia.
    + rewrite Hdv. pose proof (core_bound _ _ _ C u Hu). lia.
  - apply NoDup_app. split_and!; [apply C| |apply NoDup_singleton].
    intros x Hx Hx'. apply list_elem_of_singleton in Hx' as ->. done.
Qed.

Lemma core_finish st u :
  search_core g s st → color st !! u = Some Gray →
  (∀ x, adjacent g u x → visited (color st) x ∧ (dist st !!! x ≤ dist st !!! u + 1)%Z) →
  search_core g s (mk_bfs (<[u := Black]> (color st)) (dist st) (queue st)).
Proof.
  intros C Hu Hdone.
  assert (Hvis : ∀ x, visited (<[u := Black]> (color st)) x ↔ visited (color st) x).
  { intros x. by eapply visited_insert_same. }
  assert (u < length (color st)) as Hul by (by eapply lookup_lt_Some).
  constructor; cbn [color dist queue].
  - rewrite length_insert. apply C.
  - apply C.
  - intros x Hx. apply Hvis in Hx. by apply C.
  - intros x Hx. destruct (decide (x = u)) as [->|Hne].
    + rewrite list_lookup_insert_eq in Hx by done. done.
    + rewrite list_lookup_insert_ne in Hx by done. by apply C.
  - intros b x Hb Hbx. rewrite Hvis. destruct (decide (b = u)) as [->|Hne].
    + by apply Hdone.
    + rewrite list_lookup_insert_ne in Hb by done. by apply C.
  - rewrite Hvis. apply C.
  - intros x Hx. apply Hvis in Hx.
    rewrite (whites_insert_same _ _ Gray) by done. by apply C.
  - apply C.
Qed.

Lemma core_requeue st q :
  search_core g s st → NoDup q → search_core g s (mk_bfs (color st) (dist st) q).
Proof. intros C Hq. constructor; cbn [color dist queue]; try apply C. done. Qed.

(** at the end of a run no vertex is gray: distances are exact *)
Lemma core_closed_walk st :
  search_core g s st → (∀ v, color st !! v ≠ Some Gray) →
  ∀ k v, walk g s k v → visited (color st) v ∧ (dist st !!! v ≤ Z.of_nat k)%Z.
Proof.
  intros C Hgray k v Hw. induction Hw as [|k u v Hw [IHv IHd] Hadj].
  - destruct (core_source _ _ _ C) as [? ->]. split; [done|lia].
  - assert (color st !! u = Some Black) as Hb.
    { destruct IHv as ([] & Hc & Hne); [done| |done]. by apply Hgray in Hc. }
    destruct (core_black _ _ _ C u v Hb Hadj) as [? ?]. split; [done|lia].
Qed.

End SearchCore.

(** ** The breadth first search run to the end *)

Lemma whites_replicate n : whites (replicate n White) = n.
Proof. induction n as [|n IH]; simpl; [done|]. by rewrite IH. Qed.

Lemma adjacent_elem {W} (g : Graph W) u (e : nat * W) :
  e ∈ out_edges g u → adjacent g u e.1.
Proof. destruct e as [v w]. intros He. by exists w. Qed.

Lemma adjacent_fst {W} (g : Graph W) u v :
  adjacent g u v ↔ v ∈ (out_edges g u).*1.
Proof.
  split.
  - intros [w Hw]. apply list_elem_of_fmap. by exists (v, w).
  - intros Hv. apply list_elem_of_fmap in Hv as ([v' w] & -> & Hw). by exists w.
Qed.

Section BfsCorrect.
Context {W : Type} (g : Graph W) (s : Vertex).
Hypothesis Hrange : targets_in_range g.
Hypothesis Hsize : (Z.of_nat (num_vertices g) ≤ INT_MAX)%Z.

Lemma bfs_inner_skip u done st v :
  bfs_inner g s u done st → visited (color st) v →
  bfs_inner g s u (done ++ [v]) st.
Proof.
  intros [J1 J2 J3 J4 J5 J6 J7] Hv. constructor; try done.
  intros x Hx. apply elem_of_app in Hx as [Hx|Hx]; [by apply J2|].
  apply list_elem_of_singleton in Hx as ->. split; [done|]. by apply J3.
Qed.

Lemma bfs_inner_discover u done st v :
  bfs_inner g s u done st → adjacent g u v → color st !! v = Some White →
  bfs_inner g s u (done ++ [v])
    (mk_bfs (<[v := Gray]> (color st)) (<[v := (dist st !!! u + 1)%Z]> (dist st))
            (queue st ++ [v])).
Proof.
  intros J Hadj Hv. pose proof J as [J1 J2 J3 J4 J5 J6 J7].
  pose proof (bi_core _ _ _ _ _ J) as C.
  pose proof (bi_cur _ _ _ _ _ J) as Hu.
  assert (visited (color st) u) as Huv by (by exists Gray).
  assert (u ≠ v) as Huv' by (intros ->; congruence).
  assert (v < length (color st)) as Hvl by (by eapply lookup_lt_Some).
  assert (v < length (dist st)) as Hvd.
  { rewrite (core_len_dist _ _ _ C), <- (core_len_color _ _ _ C). done. }
  assert (Hvis : ∀ x, visited (<[v := Gray]> (color st)) x ↔ visited (color st) x ∨ x = v).
  { intros x. by eapply visited_insert. }
  assert (Hnv : ∀ x, visited (color st) x → x ≠ v).
  { intros x (c & Hc & Hne) ->. congruence. }
  assert (Hd : ∀ x, x ≠ v → <[v := (dist st !!! u + 1)%Z]> (dist st) !!! x = dist st !!! x).
  { intros x Hx. by rewrite list_lookup_total_insert_ne. }
  assert (Hdv : <[v := (dist st !!! u + 1)%Z]> (dist st) !!! v = (dist st !!! u + 1)%Z).
  { by rewrite list_lookup_total_insert_eq. }
  assert (Hqv : ∀ q, q ∈ queue st → visited (color st) q).
  { intros q Hq. apply (bi_gray _ _ _ _ _ J) in Hq as [Hq _]. by exists Gray. }
  assert (v ∉ queue st) as Hvq.
  { intros Hq. apply Hqv in Hq. by apply Hnv in Hq. }
  constructor; cbn [color dist queue].
  - by apply core_discover.
  - intros x Hx. rewrite (Hd u) by done. apply elem_of_app in Hx as [Hx|Hx].
    + destruct (bi_done _ _ _ _ _ J x Hx) as [Hxv Hle]. split; [apply Hvis; by left|].
      rewrite Hd by auto. done.
    + apply list_elem_of_singleton in Hx as ->. split; [apply Hvis; by right|].
      rewrite Hdv. lia.
  - intros w Hw. rewrite (Hd u) by done. apply Hvis in Hw as [Hw| ->].
    + rewrite Hd by auto. by apply J3.
    + rewrite Hdv. lia.
  - intros q Hq. rewrite (Hd u) by done. apply elem_of_app in Hq as [Hq|Hq].
    + rewrite Hd by auto. by apply J4.
    + apply list_elem_of_singleton in Hq as ->. rewrite Hdv. lia.
  - apply q_sorted_snoc.
    + apply (q_sorted_ext (dist st)); [|apply J5]. intros a Ha. apply Hd. auto.
    + intros a Ha. rewrite Hdv, Hd by auto. apply J3. auto.
  - intros x. rewrite elem_of_app, list_elem_of_singleton, (bi_gray _ _ _ _ _ J).
    destruct (decide (x = v)) as [->|Hne].
    + rewrite list_lookup_insert_eq by done. split; [auto|]. intros _. by right.
    + rewrite list_lookup_insert_ne by done. split; [intros [?|?]; done | by left].
  - by rewrite list_lookup_insert_ne.
Qed.

Lemma bfs_inner_edges u (es : list (nat * W)) : ∀ done st,
  bfs_inner g s u done st → (∀ e, e ∈ es → adjacent g u e.1) →
  ∃ st', bfs_out_edges record_distance u es st = Normal st' ∧
         bfs_inner g s u (done ++ es.*1) st' ∧
         whites (color st') + length (queue st') =
           whites (color st) + length (queue st).
Proof.
  induction es as [|e es IH]; intros done st J Hes.
  - exists st. rewrite app_nil_r. done.
  - assert (adjacent g u e.1) as Hadj by (apply Hes; set_solver).
    pose proof (bi_core _ _ _ _ _ J) as C.
    assert (is_Some (color st !! e.1)) as [c Hc].
    { apply lookup_lt_is_Some. rewrite (core_len_color _ _ _ C). by eapply Hrange. }
    assert (Hes' : ∀ e', e' ∈ es → adjacent g u e'.1) by (intros; apply Hes; set_solver).
    rewrite fmap_cons, (cons_middle e.1), app_assoc.
    cbn [bfs_out_edges]. rewrite Hc.
    destruct (decide (c = White)) as [->|Hne].
    + assert (visited (color st) u) as Hu by (exists Gray; split; [apply (bi_cur _ _ _ _ _ J)|done]).
      replace (record_distance u e.1 (dist st))
        with (Normal (<[e.1 := (dist st !!! u + 1)%Z]> (dist st))).
      2:{ unfold record_distance.
          by destruct (core_succ_small g s Hsize st u e.1 C Hu Hc) as (_ & _ & ->). }
      destruct (IH _ _ (bfs_inner_discover u done st e.1 J Hadj Hc) Hes')
        as (st' & Hrun & J' & Hm).
      exists st'. split_and!; [done..|]. rewrite Hm. cbn [color queue].
      rewrite length_app. simpl.
      pose proof (whites_insert_white (color st) e.1 Gray Hc ltac:(done)). lia.
    + assert (visited (color st) e.1) as Hv by (by exists c).
      destruct (IH _ _ (bfs_inner_skip u done st e.1 J Hv) Hes') as (st' & Hrun & J' & Hm).
      exists st'. split_and!; [|done..]. by destruct c.
Qed.

Lemma bfs_outer_pop st u q :
  bfs_outer g s st → queue st = u :: q →
  bfs_inner g s u [] (mk_bfs (color st) (dist st) q).
Proof.
  intros O Hq. pose proof (bo_core _ _ _ O) as C.
  pose proof (core_nodup _ _ _ C) as Hnd. rewrite Hq in Hnd.
  apply NoDup_cons in Hnd as [Hu Hnd].
  pose proof (bo_sorted _ _ _ O) as Hs. rewrite Hq in Hs. destruct Hs as [Hs1 Hs2].
  constructor; cbn [color dist queue].
  - by apply core_requeue.
  - intros x Hx. by apply not_elem_of_nil in Hx.
  - intros w Hw. apply (bo_near _ _ _ O); [done|]. rewrite Hq. set_solver.
  - done.
  - done.
  - intros v. rewrite <- (bo_gray _ _ _ O), Hq. split.
    + intros Hv. split; [set_solver|]. intros ->. done.
    + intros [Hv Hne]. set_solver.
  - apply (bo_gray _ _ _ O). rewrite Hq. set_solver.
Qed.

Lemma bfs_inner_finish st u :
  bfs_inner g s u (out_edges g u).*1 st →
  bfs_outer g s (mk_bfs (<[u := Black]> (color st)) (dist st) (queue st)).
Proof.
  intros J. pose proof (bi_core _ _ _ _ _ J) as C.
  pose proof (bi_cur _ _ _ _ _ J) as Hu.
  assert (u < length (color st)) as Hul by (by eapply lookup_lt_Some).
  assert (Hvis : ∀ x, visited (<[u := Black]> (color st)) x ↔ visited (color st) x).
  { intros x. by eapply visited_insert_same. }
  constructor; cbn [color dist queue].
  - apply core_finish; [done..|]. intros x Hx. apply (bi_done _ _ _ _ _ J). by apply adjacent_fst.
  - intros w q Hw Hq. apply Hvis in Hw.
    pose proof (bi_near _ _ _ _ _ J w Hw). pose proof (bi_min _ _ _ _ _ J q Hq). lia.
  - apply (bi_sorted _ _ _ _ _ J).
  - intros v. rewrite (bi_gray _ _ _ _ _ J). destruct (decide (v = u)) as [->|Hne].
    + rewrite list_lookup_insert_eq by done. split; [intros [_ ?]; done | done].
    + rewrite list_lookup_insert_ne by done. split; [by intros [? _] | done].
Qed.

Lemma bfs_visit_full fuel : ∀ st,
  bfs_outer g s st → whites (color st) + length (queue st) < fuel →
  ∃ st', breadth_first_visit record_distance fuel g st = Some (Normal st') ∧
         bfs_outer g s st' ∧ queue st' = [].
Proof.
  induction fuel as [|fuel IH]; intros st O Hm; [lia|]. simpl.
  destruct (queue st) as [|u q] eqn:Hq.
  - exists st. done.
  - pose proof (bfs_outer_pop st u q O Hq) as J.
    destruct (bfs_inner_edges u (out_edges g u) [] _ J) as (st' & -> & J' & Hm').
    { intros e He. by apply adjacent_elem. }
    cbn [color queue] in Hm'. simpl in Hm.
    pose proof (bi_cur _ _ _ _ _ J') as Hcur.
    apply bfs_inner_finish in J'. apply IH in J' as (st'' & Hrun & O'' & Hq'').
    + exists st''. done.
    + cbn [color queue]. rewrite (whites_insert_same _ _ Gray); [lia|done..].
Qed.

Lemma bfs_init_outer :
  s < num_vertices g →
  bfs_outer g s (bfs_init g s (<[s := 0%Z]> (replicate (num_vertices g) INT_MAX))).
Proof.
  intros Hs. unfold bfs_init.
  assert (Hvis : ∀ x, visited (<[s := Gray]> (replicate (num_vertices g) White)) x ↔ x = s).
  { intros x. unfold visited. destruct (decide (x = s)) as [->|Hne].
    - rewrite list_lookup_insert_eq by (by rewrite length_replicate). split; [done|].
      intros _. by exists Gray.
    - rewrite list_lookup_insert_ne by done. split; [|done].
      intros (c & Hc & Hne'). apply lookup_replicate in Hc as [-> _]. done. }
  assert (Hd0 : <[s := 0%Z]> (replicate (num_vertices g) INT_MAX) !!! s = 0%Z).
  { rewrite list_lookup_total_insert_eq; [done|]. by rewrite length_replicate. }
  constructor; [constructor|..]; cbn [color dist queue].
  - by rewrite length_insert, length_replicate.
  - by rewrite length_insert, length_replicate.
  - intros v ->%Hvis. exists 0. split; [done|constructor].
  - intros v Hv. assert (v ≠ s) as Hne.
    { intros ->. rewrite list_lookup_insert_eq in Hv by (by rewrite length_replicate). done. }
    rewrite list_lookup_insert_ne in Hv by done. apply lookup_replicate in Hv as [_ Hv].
    rewrite list_lookup_total_insert_ne by done. by rewrite lookup_total_replicate_2.
  - intros b x Hb. destruct (decide (b = s)) as [->|Hne].
    + rewrite list_lookup_insert_eq in Hb by (by rewrite length_replicate). done.
    + rewrite list_lookup_insert_ne in Hb by done. apply lookup_replicate in Hb as [? _]. done.
  - split; [by apply Hvis|done].
  - intros v ->%Hvis. rewrite Hd0.
    assert (whites (<[s := Gray]> (replicate (num_vertices g) White)) + 1 = num_vertices g).
    { rewrite whites_insert_white; [apply whites_replicate| |done].
      by apply lookup_replicate_2. }
    lia.
  - apply NoDup_singleton.
  - intros w q ->%Hvis ->%list_elem_of_singleton. lia.
  - simpl. split; [|done]. intros b Hb. by apply not_elem_of_nil in Hb.
  - intros v. rewrite list_elem_of_singleton. destruct (decide (v = s)) as [->|Hne].
    + rewrite list_lookup_insert_eq by (by rewrite length_replicate). done.
    + rewrite list_lookup_insert_ne by done. split; [done|].
      intros Hc. apply lookup_replicate in Hc as [? _]. done.
Qed.

End BfsCorrect.

(** ** The early stop of the breadth first search *)

Section BfsEarlyStop.
Context {W : Type} (g : Graph W).

Lemma visited_insert_keep c v y t :
  y ≠ White → visited c t → visited (<[v := y]> c) t.
Proof.
  intros Hy (x & Hx & Hne). unfold visited. rewrite list_lookup_insert.
  case_decide; [by exists y | by exists x].
Qed.

Lemma bfs_edges_keep t u (es : list (nat * W)) : ∀ st,
  visited (color st) t →
  ∃ st', bfs_out_edges record_distance u es st = Normal st' ∧
         visited (color st') t ∧ dist st' !! t = dist st !! t.
Proof.
  induction es as [|e es IH]; intros st Ht; cbn [bfs_out_edges].
  - by exists st.
  - destruct (color st !! e.1) as [[]|] eqn:Hc; try by apply IH.
    unfold record_distance at 1. cbv beta iota.
    destruct (IH (mk_bfs (<[e.1 := Gray]> (color st))
                   (<[e.1 := wrap_int (dist st !!! u + 1)]> (dist st))
                   (queue st ++ [e.1]))) as (st' & Hrun & Hv & Hd).
    { by apply visited_insert_keep. }
    exists st'. split_and!; [done..|]. rewrite Hd. cbn [dist].
    apply list_lookup_insert_ne. intros Heq. rewrite Heq in Hc. destruct Ht as (x & Hx & Hne). congruence.
Qed.

Lemma bfs_visit_keep t fuel : ∀ st stf,
  visited (color st) t →
  breadth_first_visit record_distance fuel g st = Some (Normal stf) →
  dist stf !! t = dist st !! t.
Proof.
  induction fuel as [|fuel IH]; intros st stf Ht Hrun; [done|]. simpl in Hrun.
  destruct (queue st) as [|u q]; [by simplify_eq|].
  destruct (bfs_edges_keep t u (out_edges g u) (mk_bfs (color st) (dist st) q) Ht)
    as (st' & Hin & Hv & Hd).
  rewrite Hin in Hrun. apply IH in Hrun; [cbn [dist] in *; by rewrite Hrun, Hd|].
  by apply visited_insert_keep.
Qed.

Lemma bfs_edges_sim t u (es : list (nat * W)) : ∀ st,
  match bfs_out_edges (Bfs.tree_edge t) u es st with
  | Normal st' => bfs_out_edges record_distance u es st = Normal st'
  | Thrown st' =>
    ∃ st'', bfs_out_edges record_distance u es st = Normal st'' ∧
            visited (color st'') t ∧ dist st'' !! t = dist st' !! t
  end.
Proof.
  induction es as [|e es IH]; intros st; cbn [bfs_out_edges]; [done|].
  destruct (color st !! e.1) as [[]|] eqn:Hc; try by apply IH.
  unfold Bfs.tree_edge at 1, record_distance at 1. cbv beta iota zeta.
  destruct (decide (e.1 = t)) as [Heq|Hne]; [|by apply IH].
  subst t.
  destruct (bfs_edges_keep e.1 u es (mk_bfs (<[e.1 := Gray]> (color st))
              (<[e.1 := wrap_int (dist st !!! u + 1)]> (dist st))
              (queue st ++ [e.1]))) as (st'' & Hrun & Hv & Hd).
  { exists Gray. split; [|done]. apply list_lookup_insert_eq. by eapply lookup_lt_Some. }
  exists st''. done.
Qed.

Lemma bfs_visit_sim t fuel : ∀ st stf,
  breadth_first_visit record_distance fuel g st = Some (Normal stf) →
  ∃ r, breadth_first_visit (Bfs.tree_edge t) fuel g st = Some r ∧
       dist (caught r) !! t = dist stf !! t.
Proof.
  induction fuel as [|fuel IH]; intros st stf Hrun; [done|]. simpl in *.
  destruct (queue st) as [|u q]; [simplify_eq; by eexists|].
  pose proof (bfs_edges_sim t u (out_edges g u) (mk_bfs (color st) (dist st) q)) as Hsim.
  destruct (bfs_out_edges (Bfs.tree_edge t) _ _ _) as [st1|st1].
  - rewrite Hsim in Hrun. by apply IH.
  - destruct Hsim as (st2 & Hfull & Hv & Hd). rewrite Hfull in Hrun.
    eexists. split; [done|]. cbn [caught]. rewrite <- Hd. symmetry.
    eapply bfs_visit_keep in Hrun; [done|]. by apply visited_insert_keep.
Qed.

End BfsEarlyStop.

Section BfsDegree.
Context (g : Graph unit) (s t : Vertex).
Hypothesis Hrange : targets_in_range g.
Hypothesis Hsize : (Z.of_nat (num_vertices g) ≤ INT_MAX)%Z.
Hypothesis Hs : s < num_vertices g.
Hypothesis Ht : t < num_vertices g.

Lemma bfs_search_full :
  ∃ stf, breadth_first_search record_distance g s
           (<[s := 0%Z]> (replicate (num_vertices g) INT_MAX)) = Some (Normal stf) ∧
         bfs_outer g s stf ∧ queue stf = [].
Proof.
  unfold breadth_first_search. apply bfs_visit_full; [done..| |].
  - by apply (bfs_init_outer g s).
  - cbn [color queue]. simpl.
    pose proof (whites_insert_le (replicate (num_vertices g) White) s Gray ltac:(done)).
    rewrite whites_replicate in *. lia.
Qed.

Lemma bfs_friendship_degree_full :
  ∃ stf, bfs_outer g s stf ∧ queue stf = [] ∧
         Bfs.friendship_degree (s, t) g = Some (dist stf !!! t).
Proof.
  destruct bfs_search_full as (stf & Hfull & O & Hq).
  exists stf. split_and!; [done..|]. unfold Bfs.friendship_degree. cbn [fst snd].
  unfold breadth_first_search in *.
  destruct (bfs_visit_sim g t _ _ _ Hfull) as (r & -> & Hd). simpl. rewrite Hd.
  apply list_lookup_lookup_total_lt.
  by rewrite (core_len_dist _ _ _ (bo_core _ _ _ O)).
Qed.

Lemma outer_no_gray stf : bfs_outer g s stf → queue stf = [] → ∀ v, color stf !! v ≠ Some Gray.
Proof.
  intros O Hq v Hv. apply (bo_gray _ _ _ O) in Hv. rewrite Hq in Hv.
  by apply not_elem_of_nil in Hv.
Qed.

Theorem bfs_friendship_degree_distance k :
  distance g s t k → Bfs.friendship_degree (s, t) g = Some (Z.of_nat k).
Proof.
  intros [Hw Hmin]. destruct bfs_friendship_degree_full as (stf & O & Hq & ->).
  pose proof (bo_core _ _ _ O) as C.
  destruct (core_closed_walk g s stf C (outer_no_gray stf O Hq) k t Hw) as [Hv Hle].
  destruct (core_walk _ _ _ C t Hv) as (k' & Hk' & Hw').
  apply Hmin in Hw'. f_equal. lia.
Qed.

Theorem bfs_friendship_degree_unreachable :
  ¬ reachable g s t → Bfs.friendship_degree (s, t) g = Some INT_MAX.
Proof.
  intros Hnr. destruct bfs_friendship_degree_full as (stf & O & Hq & ->).
  pose proof (bo_core _ _ _ O) as C. f_equal.
  assert (is_Some (color stf !! t)) as [c Hc].
  { apply lookup_lt_is_Some. by rewrite (core_len_color _ _ _ C). }
  destruct (decide (c = White)) as [->|Hne]; [by apply C|].
  destruct (core_walk _ _ _ C t) as (k & _ & Hw); [by exists c|].
  exfalso. apply Hnr. by exists k.
Qed.

End BfsDegree.

(** ** The priority queue and relaxation *)

Lemma min_key_le d q v : v ∈ q → (min_key d q ≤ d !!! v)%Z.
Proof.
  destruct q as [|a q]; [by intros ?%not_elem_of_nil|]. simpl.
  revert a v. induction q as [|b q IH]; intros a v Hv; simpl.
  - apply list_elem_of_singleton in Hv as ->. lia.
  - apply elem_of_cons in Hv as [->|Hv].
    + pose proof (IH a a ltac:(left)). lia.
    + apply elem_of_cons in Hv as [->|Hv].
      * lia.
      * pose proof (IH a v ltac:(by right)). lia.
Qed.

Lemma min_key_elem d q : q ≠ [] → ∃ v, v ∈ q ∧ d !!! v = min_key d q.
Proof.
  destruct q as [|a q]; [done|]. intros _. simpl.
  revert a. induction q as [|b q IH]; intros a; simpl.
  - exists a. split; [left|done].
  - destruct (IH a) as (v & Hv & Hd).
    destruct (Z.min_spec (d !!! b) (foldr (λ x m, (d !!! x) `min` m)%Z (d !!! a) q))
      as [[_ ->]|[_ ->]].
    + exists b. split; [right; left|done].
    + exists v. split; [|done]. apply elem_of_cons in Hv as [->|Hv]; [left|right; by right].
Qed.

Lemma heap_top_Some d choice q u :
  heap_top d choice q = Some u → u ∈ q ∧ ∀ v, v ∈ q → (d !!! u ≤ d !!! v)%Z.
Proof.
  unfold heap_top. intros Hu. apply list_elem_of_lookup_2 in Hu.
  apply list_elem_of_filter in Hu as [-> Hu]. split; [done|]. apply min_key_le.
Qed.

Lemma heap_top_None d choice q : heap_top d choice q = None → q = [].
Proof.
  unfold heap_top. intros Hn. destruct (decide (q = [])) as [|Hne]; [done|exfalso].
  destruct (min_key_elem d q Hne) as (v & Hv & Hd).
  assert (v ∈ filter (λ v, d !!! v = min_key d q) q) as Hin.
  { by apply list_elem_of_filter. }
  apply lookup_ge_None in Hn.
  destruct (filter _ q) as [|c cands]; [by apply not_elem_of_nil in Hin|].
  pose proof (Nat.mod_upper_bound choice (length (c :: cands))). simpl in *. lia.
Qed.

Lemma heap_pop_elem u q v : v ∈ heap_pop u q ↔ v ∈ q ∧ v ≠ u.
Proof. unfold heap_pop. rewrite list_elem_of_filter. tauto. Qed.

Lemma heap_pop_length u q : u ∈ q → length (heap_pop u q) < length q.
Proof. intros Hu. unfold heap_pop. eapply length_filter_lt; [done|]. tauto. Qed.

Section DijkstraCorrect.
Context (g : Graph Z) (s : Vertex).
Hypothesis Hrange : targets_in_range g.
Hypothesis Hunit : unit_weights g.
Hypothesis Hsize : (Z.of_nat (num_vertices g) ≤ INT_MAX)%Z.

Lemma closed_plus_unit st u :
  search_core g s st → visited (color st) u →
  (0 ≤ dist st !!! u)%Z ∧
  closed_plus INT_MAX (dist st !!! u) 1 = (dist st !!! u + 1)%Z.
Proof.
  intros C Hu.
  destruct (core_walk _ _ _ C u Hu) as (k & Hk & _).
  pose proof (core_bound _ _ _ C u Hu) as Hb.
  split; [lia|]. unfold closed_plus.
  destruct (decide (dist st !!! u = INT_MAX)); [lia|].
  destruct (decide (1%Z = INT_MAX)); [done|].
  apply wrap_int_id. unfold INT_MIN, INT_MAX in *. lia.
Qed.

Lemma core_relax st u v :
  search_core g s st → visited (color st) u → adjacent g u v →
  color st !! v = Some Gray → (dist st !!! u + 1 < dist st !!! v)%Z →
  search_core g s
    (mk_bfs (color st) (<[v := (dist st !!! u + 1)%Z]> (dist st)) (queue st)).
Proof.
  intros C Hu Hadj Hv Hlt.
  assert (v < num_vertices g) as Hvn by (by eapply Hrange).
  assert (v < length (dist st)) as Hvd by (by rewrite (core_len_dist _ _ _ C)).
  assert (Hd : ∀ x, x ≠ v → <[v := (dist st !!! u + 1)%Z]> (dist st) !!! x = dist st !!! x).
  { intros x Hx. by rewrite list_lookup_total_insert_ne. }
  assert (Hdv : <[v := (dist st !!! u + 1)%Z]> (dist st) !!! v = (dist st !!! u + 1)%Z).
  { by rewrite list_lookup_total_insert_eq. }
  destruct (closed_plus_unit st u C Hu) as [Hu0 _].
  constructor; cbn [color dist queue].
  - apply C.
  - rewrite length_insert. apply C.
  - intros x Hx. destruct (decide (x = v)) as [->|Hne].
    + rewrite Hdv. destruct (core_walk _ _ _ C u Hu) as (k & Hk & Hw).
      exists (S k). split; [lia|]. by eapply walk_step.
    + rewrite Hd by done. by apply C.
  - intros x Hx. rewrite Hd by congruence. by apply C.
  - intros b x Hb Hbx. destruct (core_black _ _ _ C b x Hb Hbx) as [Hx Hle].
    split; [done|]. rewrite (Hd b) by congruence.
    destruct (decide (x = v)) as [->|Hne]; [rewrite Hdv; lia | by rewrite Hd].
  - destruct (core_source _ _ _ C) as [Hs Hs0]. split; [done|].
    rewrite Hd; [done|]. intros ->. lia.
  - intros x Hx. pose proof (core_bound _ _ _ C x Hx).
    destruct (decide (x = v)) as [->|Hne]; [rewrite Hdv; lia | by rewrite Hd].
  - apply C.
Qed.

End DijkstraCorrect.

(** ** Dijkstra's algorithm run to the end *)

Section DijkstraLoops.
Context (g : Graph Z) (s : Vertex).
Hypothesis Hrange : targets_in_range g.
Hypothesis Hunit : unit_weights g.
Hypothesis Hsize : (Z.of_nat (num_vertices g) ≤ INT_MAX)%Z.
Variable tie : nat → nat.

Lemma dij_inner_skip u done st v :
  dij_inner g s u done st → visited (color st) v →
  (dist st !!! v ≤ dist st !!! u + 1)%Z →
  dij_inner g s u (done ++ [v]) st.
Proof.
  intros [J1 J2 J3 J4 J5 J6] Hv Hle. constructor; try done.
  intros x Hx. apply elem_of_app in Hx as [Hx|Hx]; [by apply J2|].
  by apply list_elem_of_singleton in Hx as ->.
Qed.

Lemma dij_inner_discover u done st v :
  dij_inner g s u done st → adjacent g u v → color st !! v = Some White →
  dij_inner g s u (done ++ [v])
    (mk_bfs (<[v := Gray]> (color st)) (<[v := (dist st !!! u + 1)%Z]> (dist st))
            (queue st ++ [v])).
Proof.
  intros J Hadj Hv. pose proof J as [C J2 J3 J4 J5 Hu].
  assert (visited (color st) u) as Huv by (by exists Gray).
  assert (u ≠ v) as Huv' by (intros ->; congruence).
  assert (v < length (color st)) as Hvl by (by eapply lookup_lt_Some).
  assert (v < length (dist st)) as Hvd.
  { rewrite (core_len_dist _ _ _ C), <- (core_len_color _ _ _ C). done. }
  assert (Hvis : ∀ x, visited (<[v := Gray]> (color st)) x ↔ visited (color st) x ∨ x = v).
  { intros x. by eapply visited_insert. }
  assert (Hnv : ∀ x, visited (color st) x → x ≠ v).
  { intros x (c & Hc & Hne) ->. congruence. }
  assert (Hd : ∀ x, x ≠ v → <[v := (dist st !!! u + 1)%Z]> (dist st) !!! x = dist st !!! x).
  { intros x Hx. by rewrite list_lookup_total_insert_ne. }
  assert (Hdv : <[v := (dist st !!! u + 1)%Z]> (dist st) !!! v = (dist st !!! u + 1)%Z).
  { by rewrite list_lookup_total_insert_eq. }
  assert (Hcol : ∀ x c, <[v := Gray]> (color st) !! x = Some c →
            x = v ∧ c = Gray ∨ x ≠ v ∧ color st !! x = Some c).
  { intros x c. destruct (decide (x = v)) as [->|Hne].
    - rewrite list_lookup_insert_eq by done. intros [= <-]. by left.
    - rewrite list_lookup_insert_ne by done. by right. }
  assert (v ∉ queue st) as Hvq.
  { intros [Hq _]%J5. congruence. }
  constructor; cbn [color dist queue].
  - by apply core_discover.
  - intros x Hx. rewrite (Hd u) by done. apply elem_of_app in Hx as [Hx|Hx].
    + destruct (J2 x Hx) as [Hxv Hle]. split; [apply Hvis; by left|].
      rewrite Hd by auto. done.
    + apply list_elem_of_singleton in Hx as ->. split; [apply Hvis; by right|].
      rewrite Hdv. lia.
  - intros b w Hb Hw. apply Hcol in Hb as [[_ ?]|[Hbv Hb]]; [done|].
    rewrite (Hd b) by done. apply Hcol in Hw as [[-> _]|[Hwv Hw]].
    + rewrite Hdv. pose proof (J3 b u Hb Hu). lia.
    + rewrite Hd by done. by apply J3.
  - intros w Hw. rewrite (Hd u) by done. apply Hcol in Hw as [[-> _]|[Hwv Hw]].
    + rewrite Hdv. lia.
    + rewrite Hd by done. by apply J4.
  - intros x. rewrite elem_of_app, list_elem_of_singleton, J5.
    destruct (decide (x = v)) as [->|Hne].
    + rewrite list_lookup_insert_eq by done. split; [auto|]. intros _. by right.
    + rewrite list_lookup_insert_ne by done. split; [intros [?|?]; done | by left].
  - by rewrite list_lookup_insert_ne.
Qed.

Lemma dij_inner_relax u done st v :
  dij_inner g s u done st → adjacent g u v → color st !! v = Some Gray →
  (dist st !!! u + 1 < dist st !!! v)%Z →
  dij_inner g s u (done ++ [v])
    (mk_bfs (color st) (<[v := (dist st !!! u + 1)%Z]> (dist st)) (queue st)).
Proof.
  intros J Hadj Hv Hlt. pose proof J as [C J2 J3 J4 J5 Hu].
  assert (visited (color st) u) as Huv by (by exists Gray).
  assert (u ≠ v) as Huv' by (intros ->; lia).
  assert (v < length (dist st)) as Hvd.
  { rewrite (core_len_dist _ _ _ C), <- (core_len_color _ _ _ C). by eapply lookup_lt_Some. }
  assert (Hd : ∀ x, x ≠ v → <[v := (dist st !!! u + 1)%Z]> (dist st) !!! x = dist st !!! x).
  { intros x Hx. by rewrite list_lookup_total_insert_ne. }
  assert (Hdv : <[v := (dist st !!! u + 1)%Z]> (dist st) !!! v = (dist st !!! u + 1)%Z).
  { by rewrite list_lookup_total_insert_eq. }
  constructor; cbn [color dist queue]; try done.
  - by apply core_relax.
  - intros x Hx. rewrite (Hd u) by done.
    assert (visited (color st) v) by (by exists Gray).
    apply elem_of_app in Hx as [Hx|Hx].
    + destruct (J2 x Hx) as [Hxv Hle]. split; [done|].
      destruct (decide (x = v)) as [->|Hne]; [rewrite Hdv; lia | by rewrite Hd].
    + apply list_elem_of_singleton in Hx as ->. split; [done|]. rewrite Hdv. lia.
  - intros b w Hb Hw. rewrite (Hd b) by congruence.
    destruct (decide (w = v)) as [->|Hne].
    + rewrite Hdv. pose proof (J3 b u Hb Hu). lia.
    + rewrite Hd by done. by apply J3.
  - intros w Hw. rewrite (Hd u) by done.
    destruct (decide (w = v)) as [->|Hne]; [rewrite Hdv; lia|].
    rewrite Hd by done. by apply J4.
Qed.

(** Where the source of the edge is no farther than its target, [relax]
    has nothing to do towards the source: the two relaxations agree. *)
Lemma edge_relax_forward both_ways u v (d : list Z) :
  (d !!! u ≤ closed_plus INT_MAX (d !!! v) 1)%Z →
  edge_relax both_ways u v 1 d = relax_target u v 1 d.
Proof.
  intros Hle. destruct both_ways; [|done]. unfold edge_relax, relax, relax_target.
  destruct (_ <? _)%Z; [done|]. by rewrite (proj2 (Z.ltb_ge _ _) Hle).
Qed.

Lemma dij_inner_edges u (es : list (nat * Z)) : ∀ done st,
  dij_inner g s u done st → (∀ e, e ∈ es → e ∈ out_edges g u) →
  ∃ st', (∀ both_ways, dijkstra_out_edges both_ways u es st = Some st') ∧
         dij_inner g s u (done ++ es.*1) st' ∧
         whites (color st') + length (queue st') =
           whites (color st) + length (queue st).
Proof.
  induction es as [|e es IH]; intros done st J Hes.
  - exists st. rewrite app_nil_r. done.
  - assert (e ∈ out_edges g u) as He by (apply Hes; left).
    assert (adjacent g u e.1) as Hadj by (by apply adjacent_elem).
    pose proof (Hunit u e He) as Hw.
    pose proof (di_core _ _ _ _ _ J) as C.
    pose proof (di_cur _ _ _ _ _ J) as Hu.
    assert (visited (color st) u) as Huv by (by exists Gray).
    destruct (closed_plus_unit g s Hsize st u C Huv) as [Hu0 Hplus].
    assert (is_Some (color st !! e.1)) as [c Hc].
    { apply lookup_lt_is_Some. rewrite (core_len_color _ _ _ C). by eapply Hrange. }
    assert (Hes' : ∀ e', e' ∈ es → e' ∈ out_edges g u) by (intros; apply Hes; by right).
    rewrite fmap_cons, (cons_middle e.1), app_assoc.
    assert (Hstep : ∀ both_ways, dijkstra_out_edges both_ways u (e :: es) st =
      match c with
      | White => dijkstra_out_edges both_ways u es
          (mk_bfs (<[e.1 := Gray]> (color st))
                  (relax_target u e.1 1 (dist st)).1 (queue st ++ [e.1]))
      | Gray => dijkstra_out_edges both_ways u es
          (mk_bfs (color st) (relax_target u e.1 1 (dist st)).1 (queue st))
      | Black => dijkstra_out_edges both_ways u es st
      end).
    { intros both_ways. cbn [dijkstra_out_edges]. rewrite Hw, Hc. cbv beta iota zeta.
      replace (1 <? 0)%Z with false by done.
      destruct c; [| |done]; rewrite edge_relax_forward; try done.
      - destruct (core_succ_small g s Hsize st u e.1 C Huv Hc) as (_ & Hlt & _).
        rewrite (core_white _ _ _ C e.1 Hc). unfold closed_plus.
        rewrite decide_True by done. lia.
      - assert (visited (color st) e.1) as Hv by (by exists Gray).
        destruct (closed_plus_unit g s Hsize st e.1 C Hv) as [_ ->].
        pose proof (di_min _ _ _ _ _ J e.1 Hc). lia. }
    unfold relax_target in Hstep. rewrite Hplus in Hstep.
    destruct c.
    + destruct (core_succ_small g s Hsize st u e.1 C Huv Hc) as (_ & Hlt & _).
      rewrite (core_white _ _ _ C e.1 Hc) in Hstep.
      replace (dist st !!! u + 1 <? INT_MAX)%Z with true in Hstep by lia.
      cbn [fst] in Hstep.
      destruct (IH _ _ (dij_inner_discover u done st e.1 J Hadj Hc) Hes')
        as (st' & Hrun & J' & Hm).
      exists st'. split_and!; [by intros b; rewrite Hstep|done|]. rewrite Hm.
      cbn [color queue]. rewrite length_app. simpl.
      pose proof (whites_insert_white (color st) e.1 Gray Hc ltac:(done)). lia.
    + destruct (Z.ltb_spec (dist st !!! u + 1) (dist st !!! e.1)) as [Hlt|Hge];
        cbn [fst] in Hstep.
      * destruct (IH _ _ (dij_inner_relax u done st e.1 J Hadj Hc Hlt) Hes')
          as (st' & Hrun & J' & Hm).
        exists st'. split_and!; [by intros b; rewrite Hstep|done..].
      * assert (visited (color st) e.1) as Hv by (by exists Gray).
        destruct (IH _ _ (dij_inner_skip u done st e.1 J Hv ltac:(lia)) Hes')
          as (st' & Hrun & J' & Hm).
        exists st'. split_and!; [|done..]. intros b. rewrite Hstep, <- (Hrun b).
        by destruct st.
    + assert (visited (color st) e.1) as Hv by (by exists Black).
      pose proof (di_mono _ _ _ _ _ J e.1 u Hc Hu).
      destruct (IH _ _ (dij_inner_skip u done st e.1 J Hv ltac:(lia)) Hes')
        as (st' & Hrun & J' & Hm).
      exists st'. split_and!; [by intros b; rewrite Hstep|done..].
Qed.

Lemma dij_outer_pop st u choice :
  dij_outer g s st → heap_top (dist st) choice (queue st) = Some u →
  dij_inner g s u [] (mk_bfs (color st) (dist st) (heap_pop u (queue st))).
Proof.
  intros [C O2 O3] [Hu Hmin]%heap_top_Some.
  constructor; cbn [color dist queue].
  - apply core_requeue; [done|]. apply NoDup_filter, C.
  - intros x Hx. by apply not_elem_of_nil in Hx.
  - done.
  - intros w Hw. apply Hmin. by apply O3.
  - intros v. by rewrite heap_pop_elem, O3.
  - by apply O3.
Qed.

Lemma dij_inner_finish st u :
  dij_inner g s u (out_edges g u).*1 st →
  dij_outer g s (mk_bfs (<[u := Black]> (color st)) (dist st) (queue st)).
Proof.
  intros [C J2 J3 J4 J5 Hu].
  assert (u < length (color st)) as Hul by (by eapply lookup_lt_Some).
  assert (Hcol : ∀ x c, <[u := Black]> (color st) !! x = Some c →
            x = u ∧ c = Black ∨ x ≠ u ∧ color st !! x = Some c).
  { intros x c. destruct (decide (x = u)) as [->|Hne].
    - rewrite list_lookup_insert_eq by done. intros [= <-]. by left.
    - rewrite list_lookup_insert_ne by done. by right. }
  constructor; cbn [color dist queue].
  - apply core_finish; [done..|]. intros x Hx. apply J2. by apply adjacent_fst.
  - intros b w Hb Hw. apply Hcol in Hw as [[_ ?]|[Hwu Hw]]; [done|].
    apply Hcol in Hb as [[-> _]|[Hbu Hb]]; [by apply J4 | by apply J3].
  - intros v. rewrite J5. destruct (decide (v = u)) as [->|Hne].
    + rewrite list_lookup_insert_eq by done. split; [intros [_ ?]; done | done].
    + rewrite list_lookup_insert_ne by done. split; [by intros [? _] | done].
Qed.

(** The run does not depend on the relaxation of the Boost release. *)
Lemma dijkstra_visit_relax both_ways fv fuel : ∀ st,
  dij_outer g s st →
  dijkstra_visit both_ways tie fv fuel g st = dijkstra_visit false tie fv fuel g st.
Proof.
  induction fuel as [|fuel IH]; intros st O; [done|]. simpl.
  destruct (heap_top (dist st) (tie fuel) (queue st)) as [u|] eqn:Hq; [|done].
  pose proof (dij_outer_pop st u _ O Hq) as J.
  destruct (dij_inner_edges u (out_edges g u) [] _ J) as (st' & Hrun & J' & _); [done|].
  rewrite (Hrun both_ways), (Hrun false).
  destruct (fv u); [|done]. apply IH. by apply dij_inner_finish.
Qed.

Lemma dijkstra_visit_full fuel : ∀ st,
  dij_outer g s st → whites (color st) + length (queue st) < fuel →
  ∃ st', dijkstra_visit false tie Dijkstra.default_finish_vertex fuel g st
           = Some (Normal st') ∧
         dij_outer g s st' ∧ queue st' = [].
Proof.
  induction fuel as [|fuel IH]; intros st O Hm; [lia|]. simpl.
  destruct (heap_top (dist st) (tie fuel) (queue st)) as [u|] eqn:Hq.
  - pose proof (dij_outer_pop st u _ O Hq) as J.
    destruct (dij_inner_edges u (out_edges g u) [] _ J) as (st' & Hrun & J' & Hm'); [done|].
    rewrite (Hrun false).
    cbn [color queue] in Hm'.
    pose proof (di_cur _ _ _ _ _ J') as Hcur.
    apply heap_top_Some in Hq as [Hq _]. apply (heap_pop_length u) in Hq.
    apply dij_inner_finish in J'. apply IH in J' as (st'' & Hrun2 & O'' & Hq'').
    + exists st''. done.
    + cbn [color queue]. rewrite (whites_insert_same _ _ Gray); [lia|done..].
  - exists st. split_and!; [done..|]. by eapply heap_top_None.
Qed.

Lemma dij_init_outer :
  s < num_vertices g →
  dij_outer g s (bfs_init g s (<[s := 0%Z]> (replicate (num_vertices g) INT_MAX))).
Proof.
  intros Hs. destruct (bfs_init_outer g s Hs) as [C _ _ Hg].
  constructor; [done| |done].
  intros b w Hb. unfold bfs_init in Hb. cbn [color] in Hb.
  rewrite list_lookup_insert in Hb. case_decide; [by simplify_eq|].
  apply lookup_replicate in Hb as [? _]. done.
Qed.

End DijkstraLoops.

(** ** The early stop of Dijkstra's algorithm *)

Section DijkstraEarlyStop.
Context (g : Graph Z) (tie : nat → nat).

Lemma relax_target_keep u v w d t :
  t ≠ v → (relax_target u v w d).1 !! t = d !! t.
Proof.
  intros Hne. unfold relax_target. destruct (_ <? _)%Z; [|done].
  cbn [fst]. by apply list_lookup_insert_ne.
Qed.

Lemma dij_edges_keep t u (es : list (nat * Z)) : ∀ st st',
  color st !! t = Some Black → dijkstra_out_edges false u es st = Some st' →
  color st' !! t = Some Black ∧ dist st' !! t = dist st !! t.
Proof.
  induction es as [|e es IH]; intros st st' Ht Hrun;
    cbn [dijkstra_out_edges edge_relax] in Hrun.
  - by simplify_eq.
  - destruct (e.2 <? 0)%Z; [done|].
    destruct (color st !! e.1) as [[]|] eqn:Hc; try by eapply IH.
    + assert (t ≠ e.1) as Hne by congruence.
      apply IH in Hrun as [H1 H2]; cbn [color dist] in *.
      * by rewrite H2, relax_target_keep.
      * by rewrite list_lookup_insert_ne.
    + assert (t ≠ e.1) as Hne by congruence.
      apply IH in Hrun as [H1 H2]; cbn [color dist] in *; [|done].
      by rewrite H2, relax_target_keep.
Qed.

Lemma dij_edges_length u (es : list (nat * Z)) : ∀ st st',
  dijkstra_out_edges false u es st = Some st' → length (color st') = length (color st).
Proof.
  induction es as [|e es IH]; intros st st' Hrun; cbn [dijkstra_out_edges] in Hrun.
  - by simplify_eq.
  - destruct (e.2 <? 0)%Z; [done|].
    destruct (color st !! e.1) as [[]|]; apply IH in Hrun; cbn [color] in *; try done.
    by rewrite length_insert in Hrun.
Qed.

Lemma black_insert_keep (c : list Color) (u t : nat) :
  c !! t = Some Black → <[u := Black]> c !! t = Some Black.
Proof. intros Ht. rewrite list_lookup_insert. by case_decide. Qed.

Lemma dij_visit_keep t fuel : ∀ st stf,
  color st !! t = Some Black →
  dijkstra_visit false tie Dijkstra.default_finish_vertex fuel g st = Some (Normal stf) →
  dist stf !! t = dist st !! t.
Proof.
  induction fuel as [|fuel IH]; intros st stf Ht Hrun; [done|]. simpl in Hrun.
  destruct (heap_top _ _ _) as [u|]; [|by simplify_eq].
  destruct (dijkstra_out_edges _ _ _) as [st'|] eqn:Hin; [|done].
  apply dij_edges_keep with (t := t) in Hin as [Hc Hd]; [|done].
  apply IH in Hrun; cbn [color dist] in *; [by rewrite Hrun|].
  by apply black_insert_keep.
Qed.

Lemma dij_visit_sim t fuel : ∀ st stf,
  t < length (color st) →
  dijkstra_visit false tie Dijkstra.default_finish_vertex fuel g st = Some (Normal stf) →
  ∃ r, dijkstra_visit false tie (Dijkstra.finish_vertex t) fuel g st = Some r ∧
       dist (caught r) !! t = dist stf !! t.
Proof.
  induction fuel as [|fuel IH]; intros st stf Ht Hrun; [done|]. simpl in *.
  destruct (heap_top _ _ _) as [u|]; [|simplify_eq; by eexists].
  destruct (dijkstra_out_edges _ _ _) as [st'|] eqn:Hin; [|done].
  apply dij_edges_length in Hin. cbn [color] in Hin.
  unfold Dijkstra.finish_vertex. destruct (decide (t = u)) as [<-|Hne].
  - eexists. split; [done|]. cbn [caught dist]. symmetry.
    eapply dij_visit_keep in Hrun; [done|]. cbn [color].
    apply list_lookup_insert_eq. lia.
  - apply IH; [|done]. cbn [color]. rewrite length_insert. lia.
Qed.

End DijkstraEarlyStop.

Section DijkstraDegree.
Context (g : Graph Z) (s t : Vertex) (both_ways : bool) (tie : nat → nat).
Hypothesis Hrange : targets_in_range g.
Hypothesis Hunit : unit_weights g.
Hypothesis Hsize : (Z.of_nat (num_vertices g) ≤ INT_MAX)%Z.
Hypothesis Hs : s < num_vertices g.
Hypothesis Ht : t < num_vertices g.

Lemma dijkstra_search_full :
  ∃ stf, dijkstra_shortest_paths false tie Dijkstra.default_finish_vertex g s
           = Some (Normal stf) ∧
         dij_outer g s stf ∧ queue stf = [].
Proof.
  unfold dijkstra_shortest_paths. apply dijkstra_visit_full; [done..| |].
  - by apply (dij_init_outer g s).
  - cbn [color queue]. simpl.
    pose proof (whites_insert_le (replicate (num_vertices g) White) s Gray ltac:(done)).
    rewrite whites_replicate in *. lia.
Qed.

Lemma dijkstra_friendship_degree_full use_early_stop :
  ∃ stf, dij_outer g s stf ∧ queue stf = [] ∧
         Dijkstra.friendship_degree both_ways tie (s, t) g use_early_stop
           = Some (dist stf !!! t).
Proof.
  destruct dijkstra_search_full as (stf & Hfull & O & Hq).
  exists stf. split_and!; [done..|]. unfold Dijkstra.friendship_degree. cbn [fst snd].
  assert (dist stf !! t = Some (dist stf !!! t)) as Hd.
  { apply list_lookup_lookup_total_lt. by rewrite (core_len_dist _ _ _ (do_core _ _ _ O)). }
  unfold dijkstra_shortest_paths in *.
  destruct use_early_stop;
    rewrite (dijkstra_visit_relax g s Hrange Hunit Hsize tie both_ways)
      by (by apply (dij_init_outer g s)).
  - edestruct (dij_visit_sim g tie t) as (r & Hr & Hd'); [|exact Hfull|].
    + cbn [color]. by rewrite length_insert, length_replicate.
    + rewrite Hr. simpl. by rewrite Hd'.
  - rewrite Hfull. done.
Qed.

Lemma dij_no_gray stf : dij_outer g s stf → queue stf = [] → ∀ v, color stf !! v ≠ Some Gray.
Proof.
  intros O Hq v Hv. apply (do_gray _ _ _ O) in Hv. rewrite Hq in Hv.
  by apply not_elem_of_nil in Hv.
Qed.

Theorem dijkstra_friendship_degree_distance use_early_stop k :
  distance g s t k →
  Dijkstra.friendship_degree both_ways tie (s, t) g use_early_stop = Some (Z.of_nat k).
Proof.
  intros [Hw Hmin].
  destruct (dijkstra_friendship_degree_full use_early_stop) as (stf & O & Hq & ->).
  pose proof (do_core _ _ _ O) as C.
  destruct (core_closed_walk g s stf C (dij_no_gray stf O Hq) k t Hw) as [Hv Hle].
  destruct (core_walk _ _ _ C t Hv) as (k' & Hk' & Hw').
  apply Hmin in Hw'. f_equal. lia.
Qed.

Theorem dijkstra_friendship_degree_unreachable use_early_stop :
  ¬ reachable g s t →
  Dijkstra.friendship_degree both_ways tie (s, t) g use_early_stop = Some INT_MAX.
Proof.
  intros Hnr.
  destruct (dijkstra_friendship_degree_full use_early_stop) as (stf & O & Hq & ->).
  pose proof (do_core _ _ _ O) as C. f_equal.
  assert (is_Some (color stf !! t)) as [c Hc].
  { apply lookup_lt_is_Some. by rewrite (core_len_color _ _ _ C). }
  destruct (decide (c = White)) as [->|Hne]; [by apply C|].
  destruct (core_walk _ _ _ C t) as (k & _ & Hw); [by exists c|].
  exfalso. apply Hnr. by exists k.
Qed.

End DijkstraDegree.

(** ** The graph container *)

Section GraphFacts.
Context {W : Type}.
Implicit Types g : Graph W.

Lemma edge_adjacent g u v : edge u v g = true ↔ adjacent g u v.
Proof.
  unfold edge, adjacent. rewrite existsb_exists. split.
  - intros ([v' w] & Hin & Heq). apply Nat.eqb_eq in Heq. simpl in Heq. subst.
    exists w. by apply list_elem_of_In.
  - intros [w Hw]. exists (v, w). split; [by apply list_elem_of_In|]. by apply Nat.eqb_eq.
Qed.

Lemma edge_false_adjacent g u v : edge u v g = false ↔ ¬ adjacent g u v.
Proof. rewrite <- edge_adjacent. by destruct (edge u v g). Qed.

Lemma adjacent_lt g u v : adjacent g u v → u < num_vertices g.
Proof.
  intros [w Hw]. unfold out_edges in Hw.
  destruct (m_vertices g !! u) eqn:Hu; [by eapply lookup_lt_Some|].
  by apply not_elem_of_nil in Hw.
Qed.

Lemma num_vertices_add_vertex g : num_vertices (add_vertex g).2 = S (num_vertices g).
Proof. unfold num_vertices. simpl. rewrite length_app. simpl. lia. Qed.

Lemma out_edges_add_vertex g u : out_edges (add_vertex g).2 u = out_edges g u.
Proof.
  unfold out_edges. simpl. destruct (decide (u < length (m_vertices g))) as [Hlt|Hge].
  - by rewrite lookup_app_l.
  - rewrite lookup_app_r by lia. rewrite (lookup_ge_None_2 (m_vertices g)) by lia.
    by destruct (u - length (m_vertices g)) as [|[|]].
Qed.

Lemma adjacent_add_vertex g u v : adjacent (add_vertex g).2 u v ↔ adjacent g u v.
Proof. unfold adjacent. by rewrite out_edges_add_vertex. Qed.

Lemma edge_add_vertex g u v : edge u v (add_vertex g).2 = edge u v g.
Proof. unfold edge. by rewrite out_edges_add_vertex. Qed.

Lemma graph_ok_add_vertex g : graph_ok g → graph_ok (add_vertex g).2.
Proof.
  intros [Hr He]. constructor.
  - intros u v Hadj. rewrite num_vertices_add_vertex.
    apply adjacent_add_vertex, Hr in Hadj. lia.
  - intros u v. rewrite adjacent_add_vertex. apply He.
Qed.

Lemma graph_ok_empty : graph_ok (@empty_graph W).
Proof.
  constructor.
  - intros u v [w Hw]. unfold out_edges in Hw. simpl in Hw. by apply not_elem_of_nil in Hw.
  - intros u v. split.
    + intros [w Hw]. unfold out_edges in Hw. simpl in Hw. by apply not_elem_of_nil in Hw.
    + intros [w [Hw|Hw]]; by apply not_elem_of_nil in Hw.
Qed.

Lemma num_vertices_add_edge g u v p :
  u < num_vertices g → v < num_vertices g →
  num_vertices (add_edge u v p g) = num_vertices g.
Proof.
  intros Hu Hv. unfold add_edge, num_vertices in *. cbn [m_vertices].
  rewrite !length_alter, length_app, length_replicate. lia.
Qed.

Lemma out_edges_add_edge g u v p x :
  u < num_vertices g → v < num_vertices g →
  out_edges (add_edge u v p g) x =
    out_edges g x ++ (if decide (x = u) then [(v, p)] else [])
                  ++ (if decide (x = v) then [(u, p)] else []).
Proof.
  intros Hu Hv. unfold out_edges, add_edge. cbn [m_vertices].
  replace (S (u `max` v) - num_vertices g) with 0 by lia.
  cbn [replicate]. rewrite app_nil_r. unfold num_vertices in *.
  rewrite !list_lookup_alter.
  destruct (m_vertices g !! x) as [l|] eqn:Hl.
  - repeat case_decide; subst; rewrite ?Hl; simpl; rewrite ?app_nil_r, <- ?app_assoc; done.
  - apply lookup_ge_None in Hl.
    repeat case_decide; subst; rewrite ?Hl; simpl; try done; lia.
Qed.

Lemma adjacent_add_edge g u v p x y :
  u < num_vertices g → v < num_vertices g →
  adjacent (add_edge u v p g) x y ↔
    adjacent g x y ∨ (x = u ∧ y = v) ∨ (x = v ∧ y = u).
Proof.
  intros Hu Hv. unfold adjacent. rewrite out_edges_add_edge by done.
  setoid_rewrite elem_of_app. setoid_rewrite elem_of_app.
  split.
  - intros (w & [Hw|[Hw|Hw]]).
    + left. by exists w.
    + case_decide; [|by apply not_elem_of_nil in Hw].
      apply list_elem_of_singleton in Hw. simplify_eq. right; by left.
    + case_decide; [|by apply not_elem_of_nil in Hw].
      apply list_elem_of_singleton in Hw. simplify_eq. right; by right.
  - intros [[w Hw]|[[-> ->]|[-> ->]]].
    + exists w. by left.
    + exists p. right; left. rewrite decide_True by done. by apply list_elem_of_singleton.
    + exists p. right; right. rewrite decide_True by done. by apply list_elem_of_singleton.
Qed.

Lemma linked_add_edge g u v p x y :
  linked (add_edge u v p g) x y ↔
    linked g x y ∨ (x = u ∧ y = v) ∨ (x = v ∧ y = u).
Proof.
  unfold linked, add_edge. cbn [m_edges]. setoid_rewrite elem_of_app.
  setoid_rewrite list_elem_of_singleton. split.
  - intros (w & [[Hw|Hw]|[Hw|Hw]]); simplify_eq; eauto 6.
  - intros [(w & [Hw|Hw])|[[-> ->]|[-> ->]]]; eauto 6.
Qed.

Lemma graph_ok_add_edge g u v p :
  u < num_vertices g → v < num_vertices g →
  graph_ok g → graph_ok (add_edge u v p g).
Proof.
  intros Hu Hv [Hr He]. constructor.
  - intros x y Hadj. rewrite num_vertices_add_edge by done.
    apply adjacent_add_edge in Hadj as [Hadj|[[-> ->]|[-> ->]]]; try done. by eapply Hr.
  - intros x y. rewrite adjacent_add_edge, linked_add_edge by done. by rewrite He.
Qed.

Lemma edge_add_edge_same g u v p : edge u v (add_edge u v p g) = true.
Proof.
  unfold edge, out_edges, add_edge. cbn [m_vertices].
  set (vs := m_vertices g ++ _).
  assert (u < length vs) as Hu.
  { unfold vs. rewrite length_app, length_replicate. unfold num_vertices. lia. }
  destruct (lookup_lt_is_Some_2 vs u Hu) as [l Hl].
  apply existsb_exists.
  exists (v, p). split; [|by apply Nat.eqb_eq].
  apply list_elem_of_In. rewrite list_lookup_alter.
  destruct (decide (v = u)) as [->|Hne].
  - rewrite list_lookup_alter_eq, Hl. simpl. set_solver.
  - rewrite list_lookup_alter_eq, Hl. simpl. set_solver.
Qed.

Lemma edge_add_edge g u v p x y :
  u < num_vertices g → v < num_vertices g →
  edge x y (add_edge u v p g) =
    edge x y g || bool_decide (x = u ∧ y = v ∨ x = v ∧ y = u).
Proof.
  intros Hu Hv. apply eq_true_iff_eq.
  rewrite orb_true_iff, !edge_adjacent, adjacent_add_edge by done.
  rewrite bool_decide_eq_true. tauto.
Qed.

Lemma simple_edges_add_edge g u v p :
  graph_ok g → simple_edges g → u ≤ v → edge u v g = false →
  simple_edges (add_edge u v p g).
Proof.
  intros [Hr He] [Hnd Hcan] Huv Hedge. unfold simple_edges, add_edge. cbn [m_edges].
  rewrite fmap_app. cbn [fmap list_fmap fst]. split.
  - apply NoDup_app. split_and!; [done| |apply NoDup_singleton].
    intros e He1 ->%list_elem_of_singleton.
    apply edge_false_adjacent in Hedge. apply Hedge, He.
    apply list_elem_of_fmap in He1 as ([[a b] w] & Heq & Hin). simpl in Heq. simplify_eq.
    exists w. by left.
  - intros e [He1| ->%list_elem_of_singleton]%elem_of_app; [by apply Hcan|done].
Qed.

End GraphFacts.

(** ** Termination of the searches *)

Section SearchTotal.
Context {W : Type} (g : Graph W).

Lemma bfs_edges_measure vis u (es : list (nat * W)) : ∀ st st',
  bfs_out_edges vis u es st = Normal st' →
  whites (color st') + length (queue st') = whites (color st) + length (queue st).
Proof.
  induction es as [|e es IH]; intros st st' Hrun; cbn [bfs_out_edges] in Hrun.
  - by simplify_eq.
  - destruct (color st !! e.1) as [[]|] eqn:Hc; try by apply IH.
    destruct (vis u e.1 (dist st)); [|done].
    apply IH in Hrun. rewrite Hrun. cbn [color queue]. rewrite length_app. simpl.
    pose proof (whites_insert_white (color st) e.1 Gray Hc ltac:(done)). lia.
Qed.

Lemma bfs_visit_total vis fuel : ∀ st,
  whites (color st) + length (queue st) < fuel →
  is_Some (breadth_first_visit vis fuel g st).
Proof.
  induction fuel as [|fuel IH]; intros st Hm; [lia|]. simpl.
  destruct (queue st) as [|u q] eqn:Hq; [done|].
  destruct (bfs_out_edges vis u _ _) as [st'|st'] eqn:Hin; [|done].
  apply bfs_edges_measure in Hin. cbn [color queue] in Hin. simpl in Hm.
  apply IH. cbn [color queue].
  pose proof (whites_insert_le (color st') u Black ltac:(done)). lia.
Qed.

Lemma bfs_edges_dist_length t u (es : list (nat * W)) : ∀ st,
  length (dist (caught (bfs_out_edges (Bfs.tree_edge t) u es st))) = length (dist st).
Proof.
  induction es as [|e es IH]; intros st; cbn [bfs_out_edges]; [done|].
  destruct (color st !! e.1) as [[]|]; try by apply IH.
  unfold Bfs.tree_edge at 1. cbv zeta. destruct (decide (e.1 = t)).
  - cbn [caught dist]. by rewrite length_insert.
  - rewrite IH. cbn [dist]. by rewrite length_insert.
Qed.

Lemma bfs_visit_dist_length t fuel : ∀ st r,
  breadth_first_visit (Bfs.tree_edge t) fuel g st = Some r →
  length (dist (caught r)) = length (dist st).
Proof.
  induction fuel as [|fuel IH]; intros st r Hrun; [done|]. simpl in Hrun.
  destruct (queue st) as [|u q]; [by simplify_eq|].
  pose proof (bfs_edges_dist_length t u (out_edges g u) (mk_bfs (color st) (dist st) q)) as Hl.
  destruct (bfs_out_edges _ _ _ _) as [st'|st'].
  - apply IH in Hrun. by rewrite Hrun.
  - by simplify_eq.
Qed.

End SearchTotal.

Lemma whites_init n s : whites (<[s := Gray]> (replicate n White)) + 1 < S (S n).
Proof.
  pose proof (whites_insert_le (replicate n White) s Gray ltac:(done)).
  rewrite whites_replicate in *. lia.
Qed.

Lemma bfs_friendship_degree_total (g : Graph unit) c :
  c.2 < num_vertices g → is_Some (Bfs.friendship_degree c g).
Proof.
  intros Hc. unfold Bfs.friendship_degree, breadth_first_search.
  destruct (bfs_visit_total g (Bfs.tree_edge c.2) (S (S (num_vertices g)))
    (mk_bfs (<[c.1 := Gray]> (replicate (num_vertices g) White))
            (<[c.1 := 0%Z]> (replicate (num_vertices g) INT_MAX)) [c.1])) as [r Hr].
  { cbn [color queue]. apply whites_init. }
  rewrite Hr. simpl. apply lookup_lt_is_Some.
  rewrite (bfs_visit_dist_length g _ _ _ _ Hr). cbn [dist].
  by rewrite length_insert, length_replicate.
Qed.

Section DijkstraTotal.
Context (g : Graph Z) (both_ways : bool) (tie : nat → nat).
Context (fv : Vertex → outcome unit).
Hypothesis Hunit : unit_weights g.

Lemma dij_edges_measure u (es : list (nat * Z)) : ∀ st,
  (∀ e, e ∈ es → e.2 = 1%Z) →
  ∃ st', dijkstra_out_edges both_ways u es st = Some st' ∧
    whites (color st') + length (queue st') = whites (color st) + length (queue st) ∧
    length (dist st') = length (dist st).
Proof.
  induction es as [|e es IH]; intros st Hes; cbn [dijkstra_out_edges].
  - by exists st.
  - rewrite (Hes e) by left. replace (1 <? 0)%Z with false by done.
    assert (Hes' : ∀ e', e' ∈ es → e'.2 = 1%Z) by (intros; apply Hes; by right).
    assert (Hl : ∀ v, length (edge_relax both_ways u v 1 (dist st)).1 = length (dist st)).
    { intros v. unfold edge_relax, relax, relax_target.
      destruct both_ways; repeat destruct (_ <? _)%Z; cbn [fst];
        by rewrite ?length_insert. }
    destruct (color st !! e.1) as [[]|] eqn:Hc; try by apply IH.
    + edestruct IH as (st' & -> & Hm & Hd); [done|]. exists st'. split; [done|].
      rewrite Hm, Hd. cbn [color queue dist]. rewrite length_app, Hl. simpl.
      pose proof (whites_insert_white (color st) e.1 Gray Hc ltac:(done)). lia.
    + edestruct IH as (st' & -> & Hm & Hd); [done|]. exists st'. split; [done|].
      rewrite Hm, Hd. cbn [color queue dist]. by rewrite Hl.
Qed.

Lemma dijkstra_visit_total fuel : ∀ st,
  whites (color st) + length (queue st) < fuel →
  ∃ r, dijkstra_visit both_ways tie fv fuel g st = Some r ∧
       length (dist (caught r)) = length (dist st).
Proof.
  induction fuel as [|fuel IH]; intros st Hm; [lia|]. simpl.
  destruct (heap_top _ _ _) as [u|] eqn:Hq; [|by eexists].
  apply heap_top_Some in Hq as [Hq _]. apply (heap_pop_length u) in Hq.
  destruct (dij_edges_measure u (out_edges g u)
              (mk_bfs (color st) (dist st) (heap_pop u (queue st))))
    as (st' & -> & Hm' & Hd); [by apply Hunit|].
  cbn [color queue dist] in *.
  destruct (fv u); [|by eexists].
  edestruct IH as (r & -> & Hr).
  - cbn [color queue].
    pose proof (whites_insert_le (color st') u Black ltac:(done)). lia.
  - eexists. split; [done|]. by rewrite Hr.
Qed.

End DijkstraTotal.

Lemma dijkstra_friendship_degree_total (g : Graph Z) both_ways tie c use_early_stop :
  unit_weights g → c.2 < num_vertices g →
  is_Some (Dijkstra.friendship_degree both_ways tie c g use_early_stop).
Proof.
  intros Hunit Hc. unfold Dijkstra.friendship_degree.
  assert (∀ fv, ∃ r, dijkstra_shortest_paths both_ways tie fv g c.1 = Some r ∧
            length (dist (caught r)) = num_vertices g) as Hrun.
  { intros fv. unfold dijkstra_shortest_paths.
    edestruct (dijkstra_visit_total g both_ways tie fv Hunit) as (r & -> & Hr).
    - cbn [color queue]. apply whites_init.
    - eexists. split; [done|]. rewrite Hr. cbn [dist].
      by rewrite length_insert, length_replicate. }
  destruct use_early_stop.
  - destruct (Hrun (Dijkstra.finish_vertex c.2)) as (r & -> & Hr). simpl.
    apply lookup_lt_is_Some. by rewrite Hr.
  - destruct (Hrun Dijkstra.default_finish_vertex) as (r & -> & Hr). simpl.
    apply lookup_lt_is_Some. by rewrite Hr.
Qed.

(** ** State invariants of [fraud-alert-bfs.cpp] *)

Lemma create_connection_canonical a b : canonical (create_connection a b).
Proof. unfold canonical, create_connection. destruct (Nat.ltb_spec a b); simpl; lia. Qed.

Lemma create_connection_comm a b : create_connection a b = create_connection b a.
Proof.
  unfold create_connection.
  destruct (Nat.ltb_spec a b), (Nat.ltb_spec b a); try done; try lia.
  by replace a with b by lia.
Qed.

Lemma create_connection_elem a b :
  (create_connection a b).1 = a ∧ (create_connection a b).2 = b ∨
  (create_connection a b).1 = b ∧ (create_connection a b).2 = a.
Proof. unfold create_connection. destruct (a <? b); simpl; auto. Qed.

Lemma map_insert_new_lookup `{Countable K} {V} (k : K) (v : V) m :
  m !! k = None → map_insert_new k v m = <[k := v]> m.
Proof. intros Hk. unfold map_insert_new. by rewrite Hk. Qed.

Lemma bfs_extends_refl st : bfs_extends st st.
Proof. by constructor. Qed.

Lemma bfs_extends_trans st1 st2 st3 :
  bfs_extends st1 st2 → bfs_extends st2 st3 → bfs_extends st1 st3.
Proof.
  intros [A1 A2 A3 A4] [B1 B2 B3 B4]. constructor; [lia|auto..].
Qed.

Lemma bfs_init_inv : bfs_inv Bfs.init.
Proof.
  constructor; simpl.
  - apply graph_ok_empty.
  - split; [constructor|]. intros e He. by apply not_elem_of_nil in He.
  - intros uid v Hv. by rewrite lookup_empty in Hv.
  - intros a b _ He. by compute in He.
  - intros k Hk. by rewrite lookup_empty in Hk.
Qed.

Lemma bfs_add_user_spec uid st :
  bfs_inv st →
  bfs_inv (Bfs.add_user uid st).2 ∧
  (Bfs.add_user uid st).1 < num_vertices (Bfs.g (Bfs.add_user uid st).2) ∧
  Bfs.users (Bfs.add_user uid st).2 !! uid = Some (Bfs.add_user uid st).1 ∧
  bfs_extends st (Bfs.add_user uid st).2 ∧
  Bfs.friends (Bfs.add_user uid st).2 = Bfs.friends st ∧
  (∀ a b, edge a b (Bfs.g (Bfs.add_user uid st).2) = edge a b (Bfs.g st)).
Proof.
  intros [I1 I2 I3 I4 I5]. unfold Bfs.add_user.
  destruct (Bfs.users st !! uid) as [node|] eqn:Hu; cbn [fst snd].
  - split_and!; try done; try (by eapply I3); try apply bfs_extends_refl; by constructor.
  - unfold add_vertex. cbn [fst snd Bfs.g Bfs.users Bfs.friends].
    change (mk_graph (m_vertices (Bfs.g st) ++ [[]]) (m_edges (Bfs.g st)))
      with (add_vertex (Bfs.g st)).2.
    rewrite (map_insert_new_lookup uid) by done.
    assert (He : ∀ a b, edge a b (add_vertex (Bfs.g st)).2 = edge a b (Bfs.g st)).
    { intros. apply edge_add_vertex. }
    split_and!.
    + constructor; cbn [Bfs.g Bfs.users Bfs.friends].
      * by apply graph_ok_add_vertex.
      * done.
      * intros uid' v. rewrite num_vertices_add_vertex, lookup_insert.
        case_decide; [intros [= <-]; lia|]. intros Hv%I3. lia.
      * intros a b Hab. rewrite He. by apply I4.
      * intros k Hk. destruct (I5 k Hk) as (a & b & ? & ? & ?).
        exists a, b. by rewrite He.
    + rewrite num_vertices_add_vertex. lia.
    + by rewrite lookup_insert_eq.
    + constructor; cbn [Bfs.g Bfs.users Bfs.friends].
      * rewrite num_vertices_add_vertex. lia.
      * intros uid' v Hv. rewrite lookup_insert_ne; [done|]. congruence.
      * intros a b. by rewrite He.
      * done.
    + done.
    + done.
Qed.

Lemma bfs_update_network_spec c st :
  bfs_inv st → canonical c → c.2 < num_vertices (Bfs.g st) →
  bfs_inv (Bfs.update_network c st) ∧
  bfs_extends st (Bfs.update_network c st) ∧
  edge c.1 c.2 (Bfs.g (Bfs.update_network c st)) = true ∧
  num_vertices (Bfs.g (Bfs.update_network c st)) = num_vertices (Bfs.g st).
Proof.
  intros [I1 I2 I3 I4 I5] Hc Hn. unfold canonical in Hc. unfold Bfs.update_network.
  destruct (edge c.1 c.2 (Bfs.g st)) eqn:He; cbn [negb].
  - split_and!; [by constructor|apply bfs_extends_refl|done..].
  - assert (c.1 < num_vertices (Bfs.g st)) as Hn1 by lia.
    assert (Hedge : ∀ a b, edge a b (add_edge c.1 c.2 () (Bfs.g st)) =
              edge a b (Bfs.g st) || bool_decide (a = c.1 ∧ b = c.2 ∨ a = c.2 ∧ b = c.1)).
    { intros. by apply edge_add_edge. }
    split_and!.
    + constructor; cbn [Bfs.g Bfs.users Bfs.friends].
      * by apply graph_ok_add_edge.
      * by apply simple_edges_add_edge.
      * intros uid v Hv%I3. by rewrite num_vertices_add_edge.
      * intros a b Hab. rewrite Hedge, orb_true_iff, bool_decide_eq_true.
        intros [Hold|Hnew].
        -- rewrite lookup_insert. case_decide; [done|]. by apply I4.
        -- assert (a = c.1 ∧ b = c.2) as [-> ->] by lia. by rewrite lookup_insert_eq.
      * intros k. rewrite lookup_insert. case_decide as Hk.
        -- intros _. exists c.1, c.2. split_and!; [done..|]. apply edge_add_edge_same.
        -- intros (a & b & ? & ? & Hab)%I5. exists a, b. split_and!; [done..|].
           by rewrite Hedge, Hab.
    + constructor; cbn [Bfs.g Bfs.users Bfs.friends].
      * by rewrite num_vertices_add_edge.
      * done.
      * intros a b Hab. by rewrite Hedge, Hab.
      * intros k Hk. rewrite lookup_insert. by case_decide.
    + apply edge_add_edge_same.
    + by apply num_vertices_add_edge.
Qed.

(** ** The main loop of [fraud-alert-bfs.cpp] *)

Lemma friends_index_value k m : (Bfs.friends_index k m).1 = default false (m !! k).
Proof. unfold Bfs.friends_index. by destruct (m !! k). Qed.

Lemma friends_index_frame k m k' :
  default false ((Bfs.friends_index k m).2 !! k') = default false (m !! k').
Proof.
  unfold Bfs.friends_index. destruct (m !! k) eqn:Hk; [done|]. cbn [snd].
  rewrite lookup_insert. case_decide; [|done]. subst. by rewrite Hk.
Qed.

Lemma friends_index_true k m k' :
  (Bfs.friends_index k m).2 !! k' = Some true ↔ m !! k' = Some true.
Proof.
  unfold Bfs.friends_index. destruct (m !! k) eqn:Hk; [done|]. cbn [snd].
  rewrite lookup_insert. case_decide; [|done]. subst. rewrite Hk. done.
Qed.

Lemma bfs_is_connected_true st c :
  bfs_is_connected st c = true ↔ Bfs.friends st !! Bfs.friend_key c = Some true.
Proof.
  unfold bfs_is_connected. destruct (Bfs.friends st !! Bfs.friend_key c) as [[]|]; naive_solver.
Qed.

Lemma bfs_after_read_spec c st :
  bfs_inv st →
  bfs_inv (bfs_after_read c st) ∧ bfs_extends st (bfs_after_read c st) ∧
  Bfs.g (bfs_after_read c st) = Bfs.g st ∧
  ∀ c', bfs_is_connected (bfs_after_read c st) c' = bfs_is_connected st c'.
Proof.
  intros [I1 I2 I3 I4 I5]. unfold bfs_after_read. split_and!.
  - constructor; cbn [Bfs.g Bfs.users Bfs.friends]; try done.
    + intros a b Hab He. apply friends_index_true. by apply I4.
    + intros k Hk%friends_index_true. by apply I5.
  - constructor; cbn [Bfs.g Bfs.users Bfs.friends]; try done.
    intros k Hk. by apply friends_index_true.
  - done.
  - intros c'. unfold bfs_is_connected. cbn [Bfs.friends]. apply friends_index_frame.
Qed.

Lemma bfs_resolve_spec p st :
  bfs_inv st →
  bfs_inv (bfs_resolve p st).2 ∧ bfs_extends st (bfs_resolve p st).2 ∧
  canonical (bfs_resolve p st).1 ∧
  (bfs_resolve p st).1.2 < num_vertices (Bfs.g (bfs_resolve p st).2).
Proof.
  intros I. unfold bfs_resolve.
  pose proof (bfs_add_user_spec (id1 p) st I) as (I1 & Hn1 & Hu1 & E1 & _).
  destruct (Bfs.add_user (id1 p) st) as [node1 st1]. cbn [fst snd] in *.
  pose proof (bfs_add_user_spec (id2 p) st1 I1) as (I2 & Hn2 & Hu2 & E2 & _).
  destruct (Bfs.add_user (id2 p) st1) as [node2 st2]. cbn [fst snd] in *.
  split_and!; [done|by eapply bfs_extends_trans|apply create_connection_canonical|].
  pose proof (bext_vertices _ _ E2).
  destruct (create_connection_elem node1 node2) as [[_ ->]|[_ ->]]; lia.
Qed.

Lemma bfs_body_unfold p st :
  Bfs.main_loop_body p st =
    let c := (bfs_resolve p st).1 in
    let st2 := (bfs_resolve p st).2 in
    if bfs_is_connected st2 c then Some (1%Z, bfs_after_read c st2)
    else friendship ← Bfs.friendship_degree c (Bfs.g st2);
         Some (friendship, Bfs.update_network c (bfs_after_read c st2)).
Proof.
  unfold Bfs.main_loop_body, bfs_resolve, bfs_is_connected, bfs_after_read.
  destruct (Bfs.add_user (id1 p) st) as [node1 st1].
  destruct (Bfs.add_user (id2 p) st1) as [node2 st2]. cbn [fst snd].
  rewrite <- friends_index_value.
  by destruct (Bfs.friends_index _ _) as [[] friends'].
Qed.

Lemma bfs_bulk_unfold p st :
  (let '(node1, st1) := Bfs.add_user (id1 p) st in
   let '(node2, st2) := Bfs.add_user (id2 p) st1 in
   Bfs.update_network (create_connection node1 node2) st2) =
  Bfs.update_network (bfs_resolve p st).1 (bfs_resolve p st).2.
Proof.
  unfold bfs_resolve.
  destruct (Bfs.add_user (id1 p) st) as [node1 st1].
  by destruct (Bfs.add_user (id2 p) st1) as [node2 st2].
Qed.

Lemma bfs_bulk_step_spec p st :
  bfs_inv st →
  bfs_inv (Bfs.update_network (bfs_resolve p st).1 (bfs_resolve p st).2) ∧
  bfs_extends st (Bfs.update_network (bfs_resolve p st).1 (bfs_resolve p st).2).
Proof.
  intros I. destruct (bfs_resolve_spec p st I) as (I2 & E2 & Hc & Hn).
  destruct (bfs_update_network_spec _ _ I2 Hc Hn) as (I3 & E3 & _).
  split; [done|]. by eapply bfs_extends_trans.
Qed.

Lemma bfs_build_spec data : ∀ st,
  bfs_inv st →
  bfs_inv (Bfs.build_paymo_network data st) ∧
  bfs_extends st (Bfs.build_paymo_network data st).
Proof.
  unfold Bfs.build_paymo_network.
  induction data as [|p data IH]; intros st I; simpl.
  - split; [done|apply bfs_extends_refl].
  - rewrite bfs_bulk_unfold. destruct (bfs_bulk_step_spec p st I) as [I' E'].
    destruct (IH _ I') as [I'' E'']. split; [done|]. by eapply bfs_extends_trans.
Qed.

Lemma bfs_body_spec p st :
  bfs_inv st →
  ∃ f st', Bfs.main_loop_body p st = Some (f, st') ∧ bfs_inv st' ∧ bfs_extends st st'.
Proof.
  intros I. rewrite bfs_body_unfold. cbv zeta.
  destruct (bfs_resolve_spec p st I) as (I2 & E2 & Hc & Hn).
  destruct (bfs_after_read_spec (bfs_resolve p st).1 _ I2) as (I3 & E3 & Hg & _).
  destruct (bfs_is_connected _ _).
  - eexists _, _. split_and!; [done..|]. by eapply bfs_extends_trans.
  - destruct (bfs_friendship_degree_total (Bfs.g (bfs_resolve p st).2) (bfs_resolve p st).1 Hn)
      as [f ->]. simpl.
    rewrite <- Hg in Hn.
    destruct (bfs_update_network_spec _ _ I3 Hc Hn) as (I4 & E4 & _).
    eexists _, _. split_and!; [done..|].
    eapply bfs_extends_trans; [done|]. by eapply bfs_extends_trans.
Qed.

Lemma bfs_main_loop_spec data : ∀ st out,
  bfs_inv st →
  ∃ out' st', Bfs.main_loop data st out = Some (out', st') ∧
              bfs_inv st' ∧ bfs_extends st st'.
Proof.
  induction data as [|p data IH]; intros st out I; simpl.
  - eexists _, _. split_and!; [done..|apply bfs_extends_refl].
  - destruct (bfs_body_spec p st I) as (f & st' & -> & I' & E'). simpl.
    destruct (IH st' (Bfs.write_verdicts f out) I') as (out' & st'' & -> & I'' & E'').
    eexists _, _. split_and!; [done..|]. by eapply bfs_extends_trans.
Qed.

Lemma bfs_main_spec batch stream :
  ∃ out st, Bfs.main batch stream = Some (out, st) ∧ bfs_inv st.
Proof.
  unfold Bfs.main.
  destruct (bfs_build_spec batch Bfs.init bfs_init_inv) as [I _].
  destruct (bfs_main_loop_spec stream _ (Bfs.mk_output [] [] []) I) as (out & st & -> & I' & _).
  by eexists _, _.
Qed.

(** ** State invariants and main loop of [fraud-alert.cpp] *)

Lemma unit_weights_add_vertex g : unit_weights g → unit_weights (add_vertex g).2.
Proof. intros Hu u e. rewrite out_edges_add_vertex. apply Hu. Qed.

Lemma unit_weights_add_edge g u v :
  u < num_vertices g → v < num_vertices g →
  unit_weights g → unit_weights (add_edge u v 1%Z g).
Proof.
  intros Hu Hv Hw x e. rewrite out_edges_add_edge by done.
  intros [He|[He|He]%elem_of_app]%elem_of_app; [by eapply Hw|..];
    case_decide; try (by apply not_elem_of_nil in He);
    by apply list_elem_of_singleton in He as ->.
Qed.

Lemma unit_weights_empty : unit_weights empty_graph.
Proof. intros u e He. unfold out_edges in He. simpl in He. by apply not_elem_of_nil in He. Qed.

Lemma dij_extends_refl st : dij_extends st st.
Proof. by constructor. Qed.

Lemma dij_extends_trans st1 st2 st3 :
  dij_extends st1 st2 → dij_extends st2 st3 → dij_extends st1 st3.
Proof.
  intros [A1 A2 A3 A4] [B1 B2 B3 B4]. constructor; [lia|auto..].
Qed.

Lemma dij_init_inv : dij_inv Dijkstra.init.
Proof.
  constructor; simpl.
  - apply graph_ok_empty.
  - split; [constructor|]. intros e He. by apply not_elem_of_nil in He.
  - apply unit_weights_empty.
  - intros uid v Hv. by rewrite lookup_empty in Hv.
  - intros c. split; [set_solver|]. intros [_ He]. by compute in He.
Qed.

Lemma dij_add_user_spec uid st :
  dij_inv st →
  dij_inv (Dijkstra.add_user uid st).2 ∧
  (Dijkstra.add_user uid st).1 < num_vertices (Dijkstra.g (Dijkstra.add_user uid st).2) ∧
  Dijkstra.users (Dijkstra.add_user uid st).2 !! uid = Some (Dijkstra.add_user uid st).1 ∧
  dij_extends st (Dijkstra.add_user uid st).2.
Proof.
  intros [I1 I2 I3 I4 I5]. unfold Dijkstra.add_user.
  destruct (Dijkstra.users st !! uid) as [node|] eqn:Hu; cbn [fst snd].
  - split_and!; try done; try (by eapply I4); try apply dij_extends_refl; by constructor.
  - unfold add_vertex. cbn [fst snd Dijkstra.g Dijkstra.users Dijkstra.connections].
    change (mk_graph (m_vertices (Dijkstra.g st) ++ [[]]) (m_edges (Dijkstra.g st)))
      with (add_vertex (Dijkstra.g st)).2.
    rewrite (map_insert_new_lookup uid) by done.
    assert (He : ∀ a b, edge a b (add_vertex (Dijkstra.g st)).2 = edge a b (Dijkstra.g st)).
    { intros. apply edge_add_vertex. }
    split_and!.
    + constructor; cbn [Dijkstra.g Dijkstra.users Dijkstra.connections].
      * by apply graph_ok_add_vertex.
      * done.
      * by apply unit_weights_add_vertex.
      * intros uid' v. rewrite num_vertices_add_vertex, lookup_insert.
        case_decide; [intros [= <-]; lia|]. intros Hv%I4. lia.
      * intros c. rewrite He. apply I5.
    + rewrite num_vertices_add_vertex. lia.
    + by rewrite lookup_insert_eq.
    + constructor; cbn [Dijkstra.g Dijkstra.users Dijkstra.connections].
      * rewrite num_vertices_add_vertex. lia.
      * intros uid' v Hv. rewrite lookup_insert_ne; [done|]. congruence.
      * intros a b. by rewrite He.
      * done.
Qed.

Lemma dij_update_network_spec c st :
  dij_inv st → canonical c → c.2 < num_vertices (Dijkstra.g st) →
  dij_inv (Dijkstra.update_network c st) ∧
  dij_extends st (Dijkstra.update_network c st) ∧
  edge c.1 c.2 (Dijkstra.g (Dijkstra.update_network c st)) = true ∧
  num_vertices (Dijkstra.g (Dijkstra.update_network c st)) = num_vertices (Dijkstra.g st).
Proof.
  intros [I1 I2 I3 I4 I5] Hc Hn. unfold canonical in Hc. unfold Dijkstra.update_network.
  destruct (edge c.1 c.2 (Dijkstra.g st)) eqn:He; cbn [negb].
  - split_and!; [by constructor|apply dij_extends_refl|done..].
  - assert (c.1 < num_vertices (Dijkstra.g st)) as Hn1 by lia.
    assert (Hedge : ∀ a b, edge a b (add_edge c.1 c.2 1%Z (Dijkstra.g st)) =
              edge a b (Dijkstra.g st) || bool_decide (a = c.1 ∧ b = c.2 ∨ a = c.2 ∧ b = c.1)).
    { intros. by apply edge_add_edge. }
    split_and!.
    + constructor; cbn [Dijkstra.g Dijkstra.users Dijkstra.connections].
      * by apply graph_ok_add_edge.
      * by apply simple_edges_add_edge.
      * by apply unit_weights_add_edge.
      * intros uid v Hv%I4. by rewrite num_vertices_add_edge.
      * intros c'. rewrite elem_of_union, elem_of_singleton, I5, Hedge, orb_true_iff,
          bool_decide_eq_true. unfold canonical. destruct c as [c1 c2], c' as [a b].
        cbn [fst snd] in *. split.
        -- intros [[= -> ->]|[? ?]]; [split; [done|right; lia] | split; [done|by left]].
        -- intros [Hab [Hold|Hnew]]; [by right|]. left. f_equal; lia.
    + constructor; cbn [Dijkstra.g Dijkstra.users Dijkstra.connections].
      * by rewrite num_vertices_add_edge.
      * done.
      * intros a b Hab. by rewrite Hedge, Hab.
      * intros c' Hc'. set_solver.
    + apply edge_add_edge_same.
    + by apply num_vertices_add_edge.
Qed.

Lemma dij_resolve_spec p st :
  dij_inv st →
  dij_inv (dij_resolve p st).2 ∧ dij_extends st (dij_resolve p st).2 ∧
  canonical (dij_resolve p st).1 ∧
  (dij_resolve p st).1.2 < num_vertices (Dijkstra.g (dij_resolve p st).2).
Proof.
  intros I. unfold dij_resolve.
  pose proof (dij_add_user_spec (id1 p) st I) as (I1 & Hn1 & Hu1 & E1).
  destruct (Dijkstra.add_user (id1 p) st) as [node1 st1]. cbn [fst snd] in *.
  pose proof (dij_add_user_spec (id2 p) st1 I1) as (I2 & Hn2 & Hu2 & E2).
  destruct (Dijkstra.add_user (id2 p) st1) as [node2 st2]. cbn [fst snd] in *.
  split_and!; [done|by eapply dij_extends_trans|apply create_connection_canonical|].
  pose proof (dext_vertices _ _ E2).
  destruct (create_connection_elem node1 node2) as [[_ ->]|[_ ->]]; lia.
Qed.

Lemma dij_body_unfold both_ways tie p st :
  Dijkstra.main_loop_body both_ways tie p st =
    let c := (dij_resolve p st).1 in
    let st2 := (dij_resolve p st).2 in
    if dij_is_connected st2 c then Some (1%Z, st2)
    else friendship ← Dijkstra.friendship_degree both_ways tie c (Dijkstra.g st2) true;
         Some (friendship, Dijkstra.update_network c st2).
Proof.
  unfold Dijkstra.main_loop_body, dij_resolve, dij_is_connected.
  destruct (Dijkstra.add_user (id1 p) st) as [node1 st1].
  destruct (Dijkstra.add_user (id2 p) st1) as [node2 st2]. cbn [fst snd].
  unfold bool_decide. by destruct (decide_rel _ _ _).
Qed.

Lemma dij_bulk_unfold p st :
  (let '(node1, st1) := Dijkstra.add_user (id1 p) st in
   let '(node2, st2) := Dijkstra.add_user (id2 p) st1 in
   Dijkstra.update_network (create_connection node1 node2) st2) =
  Dijkstra.update_network (dij_resolve p st).1 (dij_resolve p st).2.
Proof.
  unfold dij_resolve.
  destruct (Dijkstra.add_user (id1 p) st) as [node1 st1].
  by destruct (Dijkstra.add_user (id2 p) st1) as [node2 st2].
Qed.

Lemma dij_build_spec data : ∀ st,
  dij_inv st →
  dij_inv (Dijkstra.build_paymo_network data st) ∧
  dij_extends st (Dijkstra.build_paymo_network data st).
Proof.
  unfold Dijkstra.build_paymo_network.
  induction data as [|p data IH]; intros st I; simpl.
  - split; [done|apply dij_extends_refl].
  - rewrite dij_bulk_unfold.
    destruct (dij_resolve_spec p st I) as (I2 & E2 & Hc & Hn).
    destruct (dij_update_network_spec _ _ I2 Hc Hn) as (I3 & E3 & _).
    destruct (IH _ I3) as [I'' E'']. split; [done|].
    eapply dij_extends_trans; [done|]. by eapply dij_extends_trans.
Qed.

Lemma dij_body_spec both_ways tie p st :
  dij_inv st →
  ∃ f st', Dijkstra.main_loop_body both_ways tie p st = Some (f, st') ∧
           dij_inv st' ∧ dij_extends st st'.
Proof.
  intros I. rewrite dij_body_unfold. cbv zeta.
  destruct (dij_resolve_spec p st I) as (I2 & E2 & Hc & Hn).
  destruct (dij_is_connected _ _).
  - by eexists _, _.
  - destruct (dijkstra_friendship_degree_total (Dijkstra.g (dij_resolve p st).2) both_ways tie
               (dij_resolve p st).1 true (dinv_unit _ I2) Hn) as [f ->]. simpl.
    destruct (dij_update_network_spec _ _ I2 Hc Hn) as (I4 & E4 & _).
    eexists _, _. split_and!; [done..|]. by eapply dij_extends_trans.
Qed.

Lemma dij_main_loop_spec both_ways tie data : ∀ st out,
  dij_inv st →
  ∃ out' st', Dijkstra.main_loop both_ways tie data st out = Some (out', st') ∧
              dij_inv st' ∧ dij_extends st st'.
Proof.
  induction data as [|p data IH]; intros st out I; simpl.
  - eexists _, _. split_and!; [done..|apply dij_extends_refl].
  - destruct (dij_body_spec both_ways tie p st I) as (f & st' & -> & I' & E'). simpl.
    destruct (IH st' (Dijkstra.write_verdicts f out) I') as (out' & st'' & -> & I'' & E'').
    eexists _, _. split_and!; [done..|]. by eapply dij_extends_trans.
Qed.

Lemma dij_main_spec both_ways tie batch stream :
  ∃ out st, Dijkstra.main both_ways tie batch stream = Some (out, st) ∧ dij_inv st.
Proof.
  unfold Dijkstra.main.
  destruct (dij_build_spec batch Dijkstra.init dij_init_inv) as [I _].
  destruct (dij_main_loop_spec both_ways tie stream _ (Dijkstra.mk_output [] [] []) I)
    as (out & st & -> & I' & _).
  by eexists _, _.
Qed.

(** ** [perfect_hash] is injective *)

Section PerfectHash.
Local Open Scope Z_scope.

Lemma wrap_long_id z : - 2^63 <= z < 2^63 -> wrap_long z = z.
Proof. intros H. unfold wrap_long. rewrite Z.mod_small; lia. Qed.

Lemma wrap_ulong_id z : 0 <= z < 2^64 -> wrap_ulong z = z.
Proof. intros H. unfold wrap_ulong. rewrite Z.mod_small; lia. Qed.

Lemma zigzag_zz a : is_int a -> zigzag a = zz a /\ 0 <= zz a <= 4294967295.
Proof.
  unfold is_int, INT_MIN, INT_MAX, zigzag, zz. intros H.
  destruct (Z.leb_spec 0 a).
  - rewrite wrap_long_id, wrap_ulong_id by lia. lia.
  - rewrite (wrap_long_id (-2 * a)) by lia.
    rewrite wrap_long_id, wrap_ulong_id by lia. lia.
Qed.

Lemma szudzik_bound A B : 0 <= A <= 4294967295 -> 0 <= B <= 4294967295 ->
  0 <= szudzik A B <= 18446744073709551615.
Proof. unfold szudzik. intros. destruct (Z.leb_spec B A); nia. Qed.

Lemma perfect_hash_spec a b : is_int a -> is_int b -> perfect_hash a b = hash_spec a b.
Proof.
  intros Ha Hb. unfold perfect_hash, hash_spec, same_sign.
  destruct (zigzag_zz a Ha) as [-> Ra]. destruct (zigzag_zz b Hb) as [-> Rb].
  pose proof (szudzik_bound _ _ Ra Rb) as HS.
  assert (HC: (if zz b <=? zz a
     then wrap_ulong (wrap_ulong (wrap_ulong (zz a * zz a) + zz a) + zz b)
     else wrap_ulong (zz a + wrap_ulong (zz b * zz b))) = szudzik (zz a) (zz b)).
  { unfold szudzik in *. destruct (Z.leb_spec (zz b) (zz a)).
    - rewrite (wrap_ulong_id (zz a * zz a)) by nia.
      rewrite (wrap_ulong_id (zz a * zz a + zz a)) by nia.
      rewrite wrap_ulong_id by nia. reflexivity.
    - rewrite (wrap_ulong_id (zz b * zz b)) by nia.
      rewrite wrap_ulong_id by nia. reflexivity. }
  rewrite HC.
  assert (0 <= szudzik (zz a) (zz b) / 2 <= 9223372036854775807).
  { split; [apply Z.div_pos; lia|].
    enough (szudzik (zz a) (zz b) / 2 < 9223372036854775808) by lia.
    apply Z.div_lt_upper_bound; lia. }
  rewrite (wrap_long_id (szudzik _ _ / 2)) by lia.
  destruct (_ || _); [reflexivity|]. rewrite wrap_long_id by lia. reflexivity.
Qed.

Lemma half_even q : (2 * q) / 2 = q.
Proof. rewrite Z.mul_comm. apply Z.div_mul. lia. Qed.

Lemma half_odd q : (2 * q + 1) / 2 = q.
Proof. symmetry. apply Z.div_unique with (r := 1); lia. Qed.

Lemma hash_spec_poly a b : hash_spec a b = hash_poly a b.
Proof.
  unfold hash_spec, hash_poly, szudzik, zz, same_sign.
  destruct (Z.leb_spec 0 a), (Z.leb_spec 0 b);
  destruct (Z.ltb_spec a 0), (Z.ltb_spec b 0); try lia; cbn [andb orb].
  - destruct (Z.leb_spec (2*b) (2*a)), (Z.leb_spec b a); try lia.
    + replace (2 * a * (2 * a) + 2 * a + 2 * b) with (2 * (2*a*a + a + b)) by lia.
      apply half_even.
    + replace (2 * a + 2 * b * (2 * b)) with (2 * (a + 2*b*b)) by lia. apply half_even.
  - destruct (Z.leb_spec (-2*b-1) (2*a)), (Z.leb_spec (-b) a); try lia.
    + replace (2 * a * (2 * a) + 2 * a + (-2 * b - 1))
        with (2 * (2*a*a + a - b - 1) + 1) by lia.
      rewrite half_odd. lia.
    + replace (2 * a + (-2 * b - 1) * (-2 * b - 1))
        with (2 * (2*b*b + 2*b + a) + 1) by lia.
      rewrite half_odd. lia.
  - destruct (Z.leb_spec (2*b) (-2*a-1)), (Z.ltb_spec b (-a)); try lia.
    + replace ((-2 * a - 1) * (-2 * a - 1) + (-2 * a - 1) + 2 * b)
        with (2 * (2*a*a + a + b)) by lia.
      rewrite half_even. lia.
    + replace (-2 * a - 1 + 2 * b * (2 * b)) with (2 * (2*b*b - a - 1) + 1) by lia.
      rewrite half_odd. lia.
  - destruct (Z.leb_spec (-2*b-1) (-2*a-1)), (Z.leb_spec a b); try lia.
    + replace ((-2 * a - 1) * (-2 * a - 1) + (-2 * a - 1) + (-2 * b - 1))
        with (2 * (2*a*a + a - b - 1) + 1) by lia.
      apply half_odd.
    + replace (-2 * a - 1 + (-2 * b - 1) * (-2 * b - 1))
        with (2 * (2*b*b + 2*b - a)) by lia.
      apply half_even.
Qed.

Lemma shell_unique m r m' r' :
  0 <= m -> 0 <= m' -> 0 <= r <= 4 * m + 1 -> 0 <= r' <= 4 * m' + 1 ->
  2 * m * m + r = 2 * m' * m' + r' -> m = m' /\ r = r'.
Proof.
  intros Hm Hm' Hr Hr' E.
  assert (m = m') as ->; [|lia].
  destruct (Z.lt_trichotomy m m') as [L|[L|L]]; [exfalso|exact L|exfalso].
  - assert (2 * (m + 1) * (m + 1) <= 2 * m' * m') by nia. lia.
  - assert (2 * (m' + 1) * (m' + 1) <= 2 * m * m) by nia. lia.
Qed.

Lemma hash_poly_shell a b :
  hash_poly a b =
    (if same_sign a b then 2 * (shell a b).1 * (shell a b).1 + (shell a b).2
     else - (2 * (shell a b).1 * (shell a b).1 + (shell a b).2) - 1)
  /\ 0 <= (shell a b).1 /\ 0 <= (shell a b).2 <= 4 * (shell a b).1 + 1.
Proof.
  unfold hash_poly, shell, same_sign.
  destruct (Z.leb_spec 0 a), (Z.leb_spec 0 b);
  destruct (Z.ltb_spec a 0), (Z.ltb_spec b 0); try lia; cbn [andb orb];
  split_comparisons; cbn [fst snd]; lia.
Qed.

Lemma shell_inj a b a' b' :
  same_sign a b = same_sign a' b' -> shell a b = shell a' b' -> a = a' /\ b = b'.
Proof.
  unfold shell, same_sign.
  destruct (Z.leb_spec 0 a), (Z.leb_spec 0 b), (Z.leb_spec 0 a'), (Z.leb_spec 0 b');
  destruct (Z.ltb_spec a 0), (Z.ltb_spec b 0), (Z.ltb_spec a' 0), (Z.ltb_spec b' 0);
  try lia; cbn [andb orb]; try discriminate; intros _;
  split_comparisons; intros E; apply pair_equal_spec in E; lia.
Qed.

Lemma hash_poly_inj a b a' b' : hash_poly a b = hash_poly a' b' -> a = a' /\ b = b'.
Proof.
  destruct (hash_poly_shell a b) as (E & Hm & Hr).
  destruct (hash_poly_shell a' b') as (E' & Hm' & Hr').
  rewrite E, E'. clear E E'. intros E.
  destruct (same_sign a b) eqn:Sg, (same_sign a' b') eqn:Sg'; try nia.
  - destruct (shell_unique (shell a b).1 (shell a b).2 (shell a' b').1 (shell a' b').2)
      as [E1 E2]; try lia.
    apply shell_inj; [congruence|]. destruct (shell a b), (shell a' b'); simpl in *; congruence.
  - destruct (shell_unique (shell a b).1 (shell a b).2 (shell a' b').1 (shell a' b').2)
      as [E1 E2]; try lia.
    apply shell_inj; [congruence|]. destruct (shell a b), (shell a' b'); simpl in *; congruence.
Qed.

Lemma perfect_hash_injective a b a' b' :
  is_int a -> is_int b -> is_int a' -> is_int b' ->
  perfect_hash a b = perfect_hash a' b' -> a = a' /\ b = b'.
Proof.
  intros. apply hash_poly_inj.
  rewrite <- !hash_spec_poly, <- !perfect_hash_spec by assumption. assumption.
Qed.

Lemma wrap_int_is_int z : is_int (wrap_int z).
Proof.
  unfold is_int, wrap_int, INT_MIN, INT_MAX.
  pose proof (Z.mod_pos_bound (z + 2 ^ 31) (2 ^ 32) ltac:(lia)). lia.
Qed.

Lemma to_int_inj (u v : nat) :
  Z.of_nat u < 2 ^ 32 -> Z.of_nat v < 2 ^ 32 -> to_int u = to_int v -> u = v.
Proof.
  unfold to_int. intros Hu Hv. rewrite !wrap_ulong_id by lia. unfold wrap_int.
  intros E.
  destruct (Z.lt_ge_cases (Z.of_nat u) (2 ^ 31)), (Z.lt_ge_cases (Z.of_nat v) (2 ^ 31)).
  - rewrite !Z.mod_small in E by lia. lia.
  - rewrite (Z.mod_small (Z.of_nat u + _)) in E by lia.
    replace (Z.of_nat v + 2 ^ 31) with (Z.of_nat v - 2 ^ 31 + 1 * 2 ^ 32) in E by lia.
    rewrite Z.mod_add, Z.mod_small in E by lia. lia.
  - rewrite (Z.mod_small (Z.of_nat v + _)) in E by lia.
    replace (Z.of_nat u + 2 ^ 31) with (Z.of_nat u - 2 ^ 31 + 1 * 2 ^ 32) in E by lia.
    rewrite Z.mod_add, Z.mod_small in E by lia. lia.
  - replace (Z.of_nat v + 2 ^ 31) with (Z.of_nat v - 2 ^ 31 + 1 * 2 ^ 32) in E by lia.
    replace (Z.of_nat u + 2 ^ 31) with (Z.of_nat u - 2 ^ 31 + 1 * 2 ^ 32) in E by lia.
    rewrite !Z.mod_add, !Z.mod_small in E by lia. lia.
Qed.

Lemma friend_key_inj (c c' : nat * nat) :
  Z.of_nat c.1 < 2 ^ 32 -> Z.of_nat c.2 < 2 ^ 32 ->
  Z.of_nat c'.1 < 2 ^ 32 -> Z.of_nat c'.2 < 2 ^ 32 ->
  Bfs.friend_key c = Bfs.friend_key c' -> c = c'.
Proof.
  intros H1 H2 H3 H4 E. unfold Bfs.friend_key, to_int in E.
  apply perfect_hash_injective in E as [E1 E2]; try apply wrap_int_is_int.
  apply to_int_inj in E1, E2; try done. destruct c, c'; simpl in *; congruence.
Qed.

End PerfectHash.

(** ** Paths, and the two searches compared *)

Lemma walk_path {W} (g : Graph W) s k t : graph_ok g → walk g s k t ↔ path g s k t.
Proof.
  intros [_ He]. split.
  - induction 1 as [|k u v Hw IH Hadj]; [constructor|].
    eapply path_step; [done|]. by apply He.
  - induction 1 as [|k u v Hw IH Hl]; [constructor|].
    eapply walk_step; [done|]. by apply He.
Qed.

Lemma distance_shortest_path {W} (g : Graph W) s t k :
  graph_ok g → shortest_path g s t k → distance g s t k.
Proof.
  intros Hg [Hp Hmin]. split; [by apply walk_path|].
  intros k' Hw. apply Hmin. by apply walk_path.
Qed.

Lemma reachable_connected {W} (g : Graph W) s t :
  graph_ok g → ¬ connected g s t → ¬ reachable g s t.
Proof. intros Hg Hn [k Hw]. apply Hn. exists k. by apply walk_path. Qed.

Lemma out_edges_forget g u :
  out_edges (forget_weights g) u = forget_weight <$> out_edges g u.
Proof.
  unfold out_edges, forget_weights. cbn [m_vertices]. rewrite list_lookup_fmap.
  by destruct (m_vertices g !! u).
Qed.

Lemma adjacent_forget g u v : adjacent (forget_weights g) u v ↔ adjacent g u v.
Proof.
  unfold adjacent. rewrite out_edges_forget. split.
  - intros [w Hw]. apply list_elem_of_fmap in Hw as ([v' w'] & Heq & Hin).
    unfold forget_weight in Heq. simpl in Heq. simplify_eq. by exists w'.
  - intros [w Hw]. exists (). apply list_elem_of_fmap. by exists (v, w).
Qed.

Lemma num_vertices_forget g : num_vertices (forget_weights g) = num_vertices g.
Proof. unfold num_vertices, forget_weights. cbn [m_vertices]. apply length_fmap. Qed.

Lemma walk_forget g s k t : walk (forget_weights g) s k t ↔ walk g s k t.
Proof.
  split; induction 1 as [|k u v Hw IH Hadj]; try constructor.
  - eapply walk_step; [done|]. by apply adjacent_forget.
  - eapply walk_step; [done|]. by apply adjacent_forget.
Qed.

Lemma targets_in_range_forget g : targets_in_range g → targets_in_range (forget_weights g).
Proof.
  intros Hr u v Hadj. rewrite num_vertices_forget. apply adjacent_forget in Hadj.
  by eapply Hr.
Qed.

Lemma edge_forget g u v : edge u v (forget_weights g) = edge u v g.
Proof.
  apply eq_true_iff_eq. rewrite !edge_adjacent. apply adjacent_forget.
Qed.

Lemma search_results_agree {W1 W2} (g1 : Graph W1) (g2 : Graph W2) s t st1 st2 :
  (∀ k v, walk g1 s k v ↔ walk g2 s k v) →
  search_core g1 s st1 → (∀ v, color st1 !! v ≠ Some Gray) →
  search_core g2 s st2 → (∀ v, color st2 !! v ≠ Some Gray) →
  t < num_vertices g1 → t < num_vertices g2 →
  dist st1 !!! t = dist st2 !!! t.
Proof.
  intros Hw C1 G1 C2 G2 Ht1 Ht2.
  assert (is_Some (color st1 !! t)) as [c1 Hc1].
  { apply lookup_lt_is_Some. by rewrite (core_len_color _ _ _ C1). }
  assert (is_Some (color st2 !! t)) as [c2 Hc2].
  { apply lookup_lt_is_Some. by rewrite (core_len_color _ _ _ C2). }
  destruct (decide (c1 = White)) as [->|Hne1].
  - rewrite (core_white _ _ _ C1 t Hc1).
    destruct (decide (c2 = White)) as [->|Hne2]; [by rewrite (core_white _ _ _ C2 t Hc2)|].
    destruct (core_walk _ _ _ C2 t) as (k & _ & Hk); [by exists c2|].
    apply Hw in Hk. destruct (core_closed_walk g1 s st1 C1 G1 k t Hk) as [(c & Hc & Hne) _].
    congruence.
  - destruct (core_walk _ _ _ C1 t) as (k1 & Hd1 & Hk1); [by exists c1|].
    apply Hw in Hk1. destruct (core_closed_walk g2 s st2 C2 G2 k1 t Hk1) as [Hv2 Hle2].
    destruct (core_walk _ _ _ C2 t Hv2) as (k2 & Hd2 & Hk2).
    apply Hw in Hk2. destruct (core_closed_walk g1 s st1 C1 G1 k2 t Hk2) as [_ Hle1].
    lia.
Qed.

Lemma dijkstra_bfs_same_degree both_ways tie (g : Graph Z) s t :
  targets_in_range g → unit_weights g →
  (Z.of_nat (num_vertices g) ≤ INT_MAX)%Z →
  s < num_vertices g → t < num_vertices g →
  ∃ d, Bfs.friendship_degree (s, t) (forget_weights g) = Some d ∧
       Dijkstra.friendship_degree both_ways tie (s, t) g true = Some d.
Proof.
  intros Hr Hu Hsz Hs Ht.
  destruct (dijkstra_friendship_degree_full g s t both_ways tie Hr Hu Hsz Hs Ht true)
    as (st2 & O2 & Hq2 & ->).
  destruct (bfs_friendship_degree_full (forget_weights g) s t) as (st1 & O1 & Hq1 & ->);
    rewrite ?num_vertices_forget; try done; [by apply targets_in_range_forget|].
  eexists. split; [|done]. f_equal.
  apply (search_results_agree (forget_weights g) g s t).
  - apply walk_forget.
  - apply O1.
  - by apply (outer_no_gray (forget_weights g) s).
  - apply O2.
  - by apply (dij_no_gray g s).
  - by rewrite num_vertices_forget.
  - done.
Qed.

(** ** The contract of the search; [fraud-alert.cpp] by breadth first search *)

Lemma bfs_degree_spec (g : Graph unit) s t :
  graph_ok g → (Z.of_nat (num_vertices g) ≤ INT_MAX)%Z →
  s < num_vertices g → t < num_vertices g →
  degree_spec g s t (Bfs.friendship_degree (s, t) g).
Proof.
  intros Hg Hsz Hs Ht. pose proof (ok_range _ Hg) as Hr. split_and!.
  - by apply bfs_friendship_degree_total.
  - intros k Hk. apply bfs_friendship_degree_distance; try done.
    by apply distance_shortest_path.
  - intros Hn. apply bfs_friendship_degree_unreachable; try done.
    by apply reachable_connected.
Qed.

Lemma dijkstra_degree_spec both_ways tie (g : Graph Z) s t use_early_stop :
  graph_ok g → unit_weights g → (Z.of_nat (num_vertices g) ≤ INT_MAX)%Z →
  s < num_vertices g → t < num_vertices g →
  degree_spec g s t (Dijkstra.friendship_degree both_ways tie (s, t) g use_early_stop).
Proof.
  intros Hg Hu Hsz Hs Ht. pose proof (ok_range _ Hg) as Hr. split_and!.
  - by apply dijkstra_friendship_degree_total.
  - intros k Hk. apply dijkstra_friendship_degree_distance; try done.
    by apply distance_shortest_path.
  - intros Hn. apply dijkstra_friendship_degree_unreachable; try done.
    by apply reachable_connected.
Qed.

Lemma no_edges_not_connected {W} (g : Graph W) s t :
  m_edges g = [] → s ≠ t → ¬ connected g s t.
Proof.
  intros He Hne [k Hp]. inversion Hp as [|k' u v Hp' [w Hl]]; subst; [done|].
  rewrite He in Hl. destruct Hl as [Hl|Hl]; by apply not_elem_of_nil in Hl.
Qed.

(** the Dijkstra program in terms of the breadth first search *)
Lemma num_vertices_dij_resolve p st :
  num_vertices (Dijkstra.g (dij_resolve p st).2) ≤ num_vertices (Dijkstra.g st) + 2.
Proof.
  unfold dij_resolve, Dijkstra.add_user.
  destruct (Dijkstra.users st !! id1 p); cbn [fst snd add_vertex Dijkstra.g Dijkstra.users].
  - destruct (Dijkstra.users st !! id2 p); cbn [fst snd Dijkstra.g]; [lia|].
    unfold num_vertices. cbn [m_vertices]. rewrite length_app. simpl. lia.
  - destruct (map_insert_new _ _ _ !! id2 p); cbn [fst snd Dijkstra.g];
      unfold num_vertices; cbn [m_vertices]; rewrite !length_app; simpl; lia.
Qed.

Lemma dij_body_by_bfs_eq both_ways tie p st :
  dij_inv st →
  (Z.of_nat (num_vertices (Dijkstra.g st) + 2) ≤ INT_MAX)%Z →
  Dijkstra.main_loop_body both_ways tie p st = dij_body_by_bfs p st.
Proof.
  intros I Hsz. rewrite dij_body_unfold. unfold dij_body_by_bfs. cbv zeta.
  destruct (dij_resolve_spec p st I) as (I2 & E2 & Hc & Hn).
  pose proof (num_vertices_dij_resolve p st) as Hle.
  destruct (dij_is_connected _ _); [done|].
  destruct (dijkstra_bfs_same_degree both_ways tie (Dijkstra.g (dij_resolve p st).2)
              (dij_resolve p st).1.1 (dij_resolve p st).1.2) as (d & Hb & Hd).
  - apply I2.
  - apply I2.
  - lia.
  - unfold canonical in Hc. lia.
  - done.
  - rewrite <- surjective_pairing in Hb, Hd. by rewrite Hb, Hd.
Qed.

Lemma dij_degrees_by_bfs_eq both_ways tie data : ∀ st,
  dij_inv st →
  (Z.of_nat (num_vertices (Dijkstra.g st) + 2 * length data) ≤ INT_MAX)%Z →
  dij_degrees both_ways tie data st = dij_degrees_by_bfs data st.
Proof.
  induction data as [|p data IH]; intros st I Hsz; [done|]. simpl in *.
  rewrite <- (dij_body_by_bfs_eq both_ways tie) by (done || lia).
  destruct (dij_body_spec both_ways tie p st I) as (f & st' & Hrun & I' & E').
  rewrite Hrun. simpl. rewrite IH; [done..|].
  assert (num_vertices (Dijkstra.g st') ≤ num_vertices (Dijkstra.g st) + 2); [|lia].
  rewrite dij_body_unfold in Hrun. cbv zeta in Hrun.
  pose proof (num_vertices_dij_resolve p st) as Hle.
  destruct (dij_resolve_spec p st I) as (I2 & E2 & Hc & Hn).
  destruct (dij_is_connected _ _); [by simplify_eq|].
  destruct (Dijkstra.friendship_degree _ _ _ _); [|done]. simpl in Hrun. simplify_eq.
  destruct (dij_update_network_spec _ _ I2 Hc Hn) as (_ & _ & _ & ->). done.
Qed.

(** ** The search from a vertex to itself; idempotence *)

(** the search from a vertex to itself *)
Lemma bfs_edges_keep_stop {W} stop t u (es : list (nat * W)) : ∀ st,
  visited (color st) t →
  visited (color (caught (bfs_out_edges (Bfs.tree_edge stop) u es st))) t ∧
  dist (caught (bfs_out_edges (Bfs.tree_edge stop) u es st)) !! t = dist st !! t.
Proof.
  induction es as [|e es IH]; intros st Ht; cbn [bfs_out_edges]; [done|].
  destruct (color st !! e.1) as [[]|] eqn:Hc; try by apply IH.
  assert (e.1 ≠ t) as Hne.
  { intros Heq. rewrite Heq in Hc. destruct Ht as (x & Hx & Hw). congruence. }
  unfold Bfs.tree_edge at 1 3. cbv zeta. destruct (decide (e.1 = stop)).
  - cbn [caught color dist]. split; [done|]. by apply list_lookup_insert_ne.
  - destruct (IH (mk_bfs (<[e.1 := Gray]> (color st))
                   (<[e.1 := wrap_int (dist st !!! u + 1)]> (dist st))
                   (queue st ++ [e.1]))) as [Hv Hd].
    { by apply visited_insert_keep. }
    split; [done|]. rewrite Hd. cbn [dist]. by apply list_lookup_insert_ne.
Qed.

Lemma bfs_visit_keep_stop {W} (g : Graph W) stop t fuel : ∀ st r,
  visited (color st) t →
  breadth_first_visit (Bfs.tree_edge stop) fuel g st = Some r →
  dist (caught r) !! t = dist st !! t.
Proof.
  induction fuel as [|fuel IH]; intros st r Ht Hrun; [done|]. simpl in Hrun.
  destruct (queue st) as [|u q]; [by simplify_eq|].
  destruct (bfs_edges_keep_stop stop t u (out_edges g u) (mk_bfs (color st) (dist st) q) Ht)
    as [Hv Hd].
  destruct (bfs_out_edges _ _ _ _) as [st'|st']; cbn [caught] in *.
  - apply IH in Hrun; [by rewrite Hrun|]. by apply visited_insert_keep.
  - by simplify_eq.
Qed.

Lemma bfs_self_degree (g : Graph unit) a :
  a < num_vertices g → Bfs.friendship_degree (a, a) g = Some 0%Z.
Proof.
  intros Ha. destruct (bfs_friendship_degree_total g (a, a) Ha) as [d Hd].
  rewrite Hd. unfold Bfs.friendship_degree, breadth_first_search in Hd. cbn [fst snd] in Hd.
  destruct (breadth_first_visit _ _ _ _) as [r|] eqn:Hr; [|done]. simpl in Hd.
  apply bfs_visit_keep_stop with (t := a) in Hr.
  - cbn [dist] in Hr. rewrite Hr, list_lookup_insert_eq in Hd by (by rewrite length_replicate).
    congruence.
  - exists Gray. split; [|done]. apply list_lookup_insert_eq. by rewrite length_replicate.
Qed.

Lemma heap_top_singleton d choice a : heap_top d choice [a] = Some a.
Proof.
  unfold heap_top, min_key. cbn [foldr]. rewrite filter_cons_True by done.
  rewrite filter_nil. cbn [length]. by rewrite Nat.mod_1_r.
Qed.

Lemma closed_plus_nonneg x : int_distance x → (0 ≤ closed_plus INT_MAX x 1)%Z.
Proof.
  unfold int_distance, closed_plus. intros Hx.
  destruct (decide (x = INT_MAX)); [lia|].
  destruct (decide (1%Z = INT_MAX)); [lia|].
  rewrite wrap_int_id; unfold INT_MIN, INT_MAX in *; lia.
Qed.

(** Examining the edges of the source leaves its distance 0, whichever
    relaxation is used: no distance is negative. *)
Lemma edge_relax_source both_ways a v (d : list Z) :
  d !! a = Some 0%Z → Forall int_distance d →
  (edge_relax both_ways a v 1 d).1 !! a = Some 0%Z ∧
  Forall int_distance (edge_relax both_ways a v 1 d).1.
Proof.
  intros Ha Hr.
  assert (int_distance (d !!! v)) as Hv.
  { rewrite list_lookup_total_alt. destruct (d !! v) as [x|] eqn:E; simpl.
    - by eapply Forall_lookup_1.
    - unfold int_distance, INT_MAX. by compute. }
  assert (closed_plus INT_MAX 0 1 = 1%Z) as H1 by done.
  assert (edge_relax both_ways a v 1 d = relax_target a v 1 d) as ->.
  { apply edge_relax_forward. rewrite (list_lookup_total_correct _ _ _ Ha).
    by apply closed_plus_nonneg. }
  unfold relax_target. rewrite (list_lookup_total_correct _ _ _ Ha), H1.
  destruct (Z.ltb_spec 1 (d !!! v)) as [Hlt|Hge]; cbn [fst]; [|done].
  split.
  - rewrite list_lookup_insert_ne; [done|]. intros <-.
    rewrite (list_lookup_total_correct _ _ _ Ha) in Hlt. lia.
  - apply Forall_insert; [done|]. unfold int_distance, INT_MAX. lia.
Qed.

Lemma dij_edges_keep_source both_ways a (es : list (nat * Z)) : ∀ st,
  dist st !! a = Some 0%Z → Forall int_distance (dist st) →
  (∀ e, e ∈ es → e.2 = 1%Z) →
  ∃ st', dijkstra_out_edges both_ways a es st = Some st' ∧ dist st' !! a = Some 0%Z.
Proof.
  induction es as [|e es IH]; intros st Ha Hr Hes; cbn [dijkstra_out_edges].
  - by exists st.
  - rewrite (Hes e) by left. replace (1 <? 0)%Z with false by done.
    assert (Hes' : ∀ e', e' ∈ es → e'.2 = 1%Z) by (intros; apply Hes; by right).
    destruct (edge_relax_source both_ways a e.1 (dist st) Ha Hr) as [Ha' Hr'].
    destruct (color st !! e.1) as [[]|]; apply IH; cbn [dist]; done.
Qed.

Lemma dij_self_degree both_ways tie (g : Graph Z) a :
  unit_weights g → a < num_vertices g →
  Dijkstra.friendship_degree both_ways tie (a, a) g true = Some 0%Z.
Proof.
  intros Hu Ha. unfold Dijkstra.friendship_degree, dijkstra_shortest_paths.
  cbn [fst snd dijkstra_visit color dist queue]. rewrite heap_top_singleton.
  edestruct (dij_edges_keep_source both_ways a (out_edges g a)) as (st' & -> & Hd);
    [| |by apply Hu|].
  - cbn [dist]. apply list_lookup_insert_eq. by rewrite length_replicate.
  - cbn [dist]. apply Forall_insert; [|done]. apply Forall_replicate.
    unfold int_distance, INT_MAX. lia.
  - unfold Dijkstra.finish_vertex. rewrite decide_True by done. simpl. done.
Qed.

(** idempotence *)
Lemma bfs_update_network_idem c st :
  Bfs.update_network c (Bfs.update_network c st) = Bfs.update_network c st.
Proof.
  unfold Bfs.update_network at 2 3. destruct (edge c.1 c.2 (Bfs.g st)) eqn:He; cbn [negb].
  - unfold Bfs.update_network. by rewrite He.
  - unfold Bfs.update_network. cbn [Bfs.g]. by rewrite edge_add_edge_same.
Qed.

Lemma dij_update_network_idem c st :
  Dijkstra.update_network c (Dijkstra.update_network c st) = Dijkstra.update_network c st.
Proof.
  unfold Dijkstra.update_network at 2 3.
  destruct (edge c.1 c.2 (Dijkstra.g st)) eqn:He; cbn [negb].
  - unfold Dijkstra.update_network. by rewrite He.
  - unfold Dijkstra.update_network. cbn [Dijkstra.g]. by rewrite edge_add_edge_same.
Qed.

Lemma bfs_add_user_found uid st node :
  Bfs.users st !! uid = Some node → Bfs.add_user uid st = (node, st).
Proof. intros Hu. unfold Bfs.add_user. by rewrite Hu. Qed.

Lemma bfs_add_user_lookup uid st :
  Bfs.users (Bfs.add_user uid st).2 !! uid = Some (Bfs.add_user uid st).1.
Proof.
  unfold Bfs.add_user. destruct (Bfs.users st !! uid) eqn:Hu; [done|].
  cbn [add_vertex fst snd Bfs.users]. rewrite (map_insert_new_lookup uid) by done.
  apply lookup_insert_eq.
Qed.

Lemma bfs_add_user_keeps uid st uid' v :
  Bfs.users st !! uid' = Some v → Bfs.users (Bfs.add_user uid st).2 !! uid' = Some v.
Proof.
  intros Hv. unfold Bfs.add_user. destruct (Bfs.users st !! uid) eqn:Hu; [done|].
  cbn [add_vertex fst snd Bfs.users]. rewrite (map_insert_new_lookup uid) by done.
  rewrite lookup_insert_ne; [done|]. congruence.
Qed.

Lemma bfs_update_network_users c st :
  Bfs.users (Bfs.update_network c st) = Bfs.users st.
Proof. unfold Bfs.update_network. by destruct (negb _). Qed.

Lemma bfs_resolve_known p st node1 node2 :
  Bfs.users st !! id1 p = Some node1 → Bfs.users st !! id2 p = Some node2 →
  bfs_resolve p st = (create_connection node1 node2, st).
Proof.
  intros U1 U2. unfold bfs_resolve.
  by rewrite (bfs_add_user_found _ _ _ U1), (bfs_add_user_found _ _ _ U2).
Qed.

Lemma bfs_resolve_users p st :
  ∃ node1 node2,
    (bfs_resolve p st).1 = create_connection node1 node2 ∧
    Bfs.users (bfs_resolve p st).2 !! id1 p = Some node1 ∧
    Bfs.users (bfs_resolve p st).2 !! id2 p = Some node2.
Proof.
  unfold bfs_resolve.
  pose proof (bfs_add_user_lookup (id1 p) st) as H1.
  destruct (Bfs.add_user (id1 p) st) as [node1 st1]. cbn [fst snd] in *.
  pose proof (bfs_add_user_lookup (id2 p) st1) as H2.
  pose proof (bfs_add_user_keeps (id2 p) st1 _ _ H1) as H1'.
  destruct (Bfs.add_user (id2 p) st1) as [node2 st2]. cbn [fst snd] in *.
  by exists node1, node2.
Qed.

Lemma bfs_resolve_again p p' st :
  (id1 p' = id1 p ∧ id2 p' = id2 p) ∨ (id1 p' = id2 p ∧ id2 p' = id1 p) →
  bfs_resolve p' (Bfs.update_network (bfs_resolve p st).1 (bfs_resolve p st).2) =
    ((bfs_resolve p st).1, Bfs.update_network (bfs_resolve p st).1 (bfs_resolve p st).2).
Proof.
  intros Hids. destruct (bfs_resolve_users p st) as (node1 & node2 & Hc & U1 & U2).
  rewrite <- (bfs_update_network_users (bfs_resolve p st).1) in U1, U2.
  destruct Hids as [[E1 E2]|[E1 E2]].
  - rewrite (bfs_resolve_known p' _ node1 node2) by congruence. by rewrite Hc.
  - rewrite (bfs_resolve_known p' _ node2 node1) by congruence.
    by rewrite Hc, create_connection_comm.
Qed.

Lemma bfs_bulk_twice p p' st :
  (id1 p' = id1 p ∧ id2 p' = id2 p) ∨ (id1 p' = id2 p ∧ id2 p' = id1 p) →
  Bfs.build_paymo_network [p; p'] st = Bfs.build_paymo_network [p] st.
Proof.
  intros Hids. unfold Bfs.build_paymo_network. simpl.
  rewrite !bfs_bulk_unfold, (bfs_resolve_again p p' st Hids). cbn [fst snd].
  apply bfs_update_network_idem.
Qed.

(** ** The index and the edges *)

Lemma bfs_not_connected_no_edge st c :
  bfs_inv st → canonical c → bfs_is_connected st c = false →
  edge c.1 c.2 (Bfs.g st) = false.
Proof.
  intros I Hc Hn. destruct (edge c.1 c.2 (Bfs.g st)) eqn:He; [|done].
  apply (binv_complete _ I) in He; [|done].
  rewrite <- surjective_pairing in He. apply bfs_is_connected_true in He. congruence.
Qed.

Lemma bfs_edge_connected st c :
  bfs_inv st → canonical c → edge c.1 c.2 (Bfs.g st) = true →
  bfs_is_connected st c = true.
Proof.
  intros I Hc He. apply bfs_is_connected_true.
  rewrite (surjective_pairing c). by apply (binv_complete _ I).
Qed.

Lemma dij_connected_edge st c :
  dij_inv st → canonical c →
  dij_is_connected st c = edge c.1 c.2 (Dijkstra.g st).
Proof.
  intros I Hc. unfold dij_is_connected. apply eq_true_iff_eq.
  rewrite bool_decide_eq_true, (dinv_index _ I). tauto.
Qed.

(** *** The user registry bounds the vertex count *)

Lemma int_keys_size {A} (m : gmap Z A) :
  (∀ k v, m !! k = Some v → is_int k) → (Z.of_nat (size m) ≤ 2 ^ 32)%Z.
Proof.
  intros Hint. rewrite <- size_dom.
  assert (dom m ⊆ list_to_set (seqZ INT_MIN (2 ^ 32))) as Hsub.
  { intros k [v Hk]%elem_of_dom. apply Hint in Hk. apply elem_of_list_to_set.
    apply elem_of_seqZ. unfold is_int, INT_MIN, INT_MAX in *. lia. }
  apply subseteq_size in Hsub.
  rewrite size_list_to_set in Hsub by apply NoDup_seqZ.
  rewrite length_seqZ in Hsub.
  apply Nat2Z.inj_le in Hsub. rewrite Z2Nat.id in Hsub by lia. exact Hsub.
Qed.

Lemma bfs_registry_bound st :
  bfs_registry st → (Z.of_nat (num_vertices (Bfs.g st)) ≤ 2 ^ 32)%Z.
Proof. intros [Hc Hi]. rewrite Hc. by apply int_keys_size. Qed.

Lemma bfs_registry_init : bfs_registry Bfs.init.
Proof.
  constructor.
  - reflexivity.
  - intros uid v Hv. simpl in Hv. by rewrite lookup_empty in Hv.
Qed.

Lemma bfs_registry_add_user uid st :
  is_int uid → bfs_registry st → bfs_registry (Bfs.add_user uid st).2.
Proof.
  intros Hu [Hc Hi]. unfold Bfs.add_user.
  destruct (Bfs.users st !! uid) as [node|] eqn:Hl; cbn [fst snd]; [by constructor|].
  cbn [add_vertex fst snd]. unfold map_insert_new at 1. rewrite Hl.
  constructor; cbn [Bfs.g Bfs.users].
  - rewrite map_size_insert_None by done. unfold num_vertices in *. cbn [m_vertices].
    rewrite length_app. simpl. lia.
  - intros uid' v. rewrite lookup_insert. case_decide; [by intros; subst|apply Hi].
Qed.

Lemma bfs_registry_resolve p st :
  int_payment p → bfs_registry st → bfs_registry (bfs_resolve p st).2.
Proof.
  intros [H1 H2] R. unfold bfs_resolve.
  pose proof (bfs_registry_add_user (id1 p) st H1 R) as R1.
  destruct (Bfs.add_user (id1 p) st) as [node1 st1]. cbn [fst snd] in *.
  pose proof (bfs_registry_add_user (id2 p) st1 H2 R1) as R2.
  by destruct (Bfs.add_user (id2 p) st1) as [node2 st2].
Qed.

Lemma bfs_registry_update_network c st :
  bfs_inv st → canonical c → c.2 < num_vertices (Bfs.g st) →
  bfs_registry st → bfs_registry (Bfs.update_network c st).
Proof.
  intros I Hc Hn [R1 R2].
  destruct (bfs_update_network_spec c st I Hc Hn) as (_ & _ & _ & Hnum).
  constructor.
  - by rewrite Hnum, bfs_update_network_users.
  - intros uid v. rewrite bfs_update_network_users. apply R2.
Qed.

Lemma bfs_registry_after_read c st :
  bfs_registry st → bfs_registry (bfs_after_read c st).
Proof. intros [R1 R2]. by constructor. Qed.

Lemma bfs_registry_build data : ∀ st,
  Forall int_payment data → bfs_inv st → bfs_registry st →
  bfs_registry (Bfs.build_paymo_network data st).
Proof.
  unfold Bfs.build_paymo_network.
  induction data as [|p data IH]; intros st Hd I R; simpl; [done|].
  apply Forall_cons in Hd as [Hp Hd]. rewrite bfs_bulk_unfold.
  destruct (bfs_resolve_spec p st I) as (I2 & _ & Hc & Hn).
  apply IH; [done| |].
  - by apply bfs_update_network_spec.
  - apply bfs_registry_update_network; try done. by apply bfs_registry_resolve.
Qed.

Lemma bfs_registry_body p st f st' :
  int_payment p → bfs_inv st → bfs_registry st →
  Bfs.main_loop_body p st = Some (f, st') → bfs_registry st'.
Proof.
  intros Hp I R Hrun. rewrite bfs_body_unfold in Hrun. cbv zeta in Hrun.
  destruct (bfs_resolve_spec p st I) as (I2 & _ & Hc & Hn).
  pose proof (bfs_registry_resolve p st Hp R) as R2.
  destruct (bfs_after_read_spec (bfs_resolve p st).1 _ I2) as (I3 & _ & Hg & _).
  destruct (bfs_is_connected _ _).
  - simplify_eq. by apply bfs_registry_after_read.
  - destruct (Bfs.friendship_degree _ _); [|done]. simpl in Hrun. simplify_eq.
    apply bfs_registry_update_network; try done.
    by apply bfs_registry_after_read.
Qed.

Lemma bfs_registry_main_loop data : ∀ st out out' st',
  Forall int_payment data → bfs_inv st → bfs_registry st →
  Bfs.main_loop data st out = Some (out', st') → bfs_registry st'.
Proof.
  induction data as [|p data IH]; intros st out out' st' Hd I R Hrun; simpl in Hrun.
  - by simplify_eq.
  - apply Forall_cons in Hd as [Hp Hd].
    destruct (bfs_body_spec p st I) as (f & st1 & Hb & I1 & _).
    rewrite Hb in Hrun. simpl in Hrun.
    apply (IH st1 (Bfs.write_verdicts f out) out' st' Hd I1); [|done].
    exact (bfs_registry_body p st f st1 Hp I R Hb).
Qed.

Lemma bfs_index_exact st c :
  bfs_inv st → (Z.of_nat (num_vertices (Bfs.g st)) ≤ 2 ^ 32)%Z →
  canonical c → c.2 < num_vertices (Bfs.g st) →
  bfs_is_connected st c = edge c.1 c.2 (Bfs.g st).
Proof.
  intros I Hsz Hc Hn. unfold canonical in Hc. apply eq_true_iff_eq. split.
  - intros (a & b & Hab & Hk & He)%bfs_is_connected_true%(binv_sound _ I).
    assert (a < num_vertices (Bfs.g st)).
    { apply edge_adjacent in He. by eapply adjacent_lt. }
    assert (b < num_vertices (Bfs.g st)).
    { apply edge_adjacent in He. by eapply (ok_range _ (binv_graph _ I)). }
    apply friend_key_inj in Hk; cbn [fst snd]; try lia. by subst.
  - intros He. by apply bfs_edge_connected.
Qed.

Lemma bfs_main_index_exact batch stream :
  Forall int_payment batch → Forall int_payment stream →
  ∃ out st, Bfs.main batch stream = Some (out, st) ∧ bfs_inv st ∧
    ∀ c, canonical c → c.2 < num_vertices (Bfs.g st) →
         bfs_is_connected st c = edge c.1 c.2 (Bfs.g st).
Proof.
  intros Hb Hs. unfold Bfs.main.
  destruct (bfs_build_spec batch Bfs.init bfs_init_inv) as [I _].
  pose proof (bfs_registry_build batch Bfs.init Hb bfs_init_inv bfs_registry_init) as R.
  destruct (bfs_main_loop_spec stream _ (Bfs.mk_output [] [] []) I)
    as (out & st & Hrun & I' & _).
  exists out, st. split; [done|]. split; [exact I'|]. intros c Hc Hn.
  apply bfs_index_exact; try done. apply bfs_registry_bound.
  exact (bfs_registry_main_loop stream _ _ out st Hs I R Hrun).
Qed.

(** * The claims *)

(** C1.  In live mode, when the two resolved nodes of a streamed payment are
    not yet directly connected, the friendship value of the round is the
    result of the search on the graph as it stands once both users are
    resolved, in which this payment's edge is absent; the round leaves
    exactly that graph with the edge added and the connection filed in the
    index, and edge and index entry are there after every later round.
    Shown for both programs, from any state their invariants describe. *)
Theorem C1_live_search_before_insert
    (both_ways : bool) (tie : nat → nat) (payment : payment_t) :
  (∀ st, bfs_inv st →
     let c := (bfs_resolve payment st).1 in
     let st2 := (bfs_resolve payment st).2 in
     let st' := Bfs.update_network c (bfs_after_read c st2) in
     bfs_is_connected st2 c = false →
     ∃ friendship,
       Bfs.friendship_degree c (Bfs.g st2) = Some friendship ∧
       edge c.1 c.2 (Bfs.g st2) = false ∧
       Bfs.main_loop_body payment st = Some (friendship, st') ∧
       Bfs.g st' = add_edge c.1 c.2 () (Bfs.g st2) ∧
       ∀ rest out out' st'',
         Bfs.main_loop rest st' out = Some (out', st'') →
         edge c.1 c.2 (Bfs.g st'') = true ∧ bfs_is_connected st'' c = true) ∧
  (∀ st, dij_inv st →
     let c := (dij_resolve payment st).1 in
     let st2 := (dij_resolve payment st).2 in
     let st' := Dijkstra.update_network c st2 in
     dij_is_connected st2 c = false →
     ∃ friendship,
       Dijkstra.friendship_degree both_ways tie c (Dijkstra.g st2) true = Some friendship ∧
       edge c.1 c.2 (Dijkstra.g st2) = false ∧
       Dijkstra.main_loop_body both_ways tie payment st = Some (friendship, st') ∧
       Dijkstra.g st' = add_edge c.1 c.2 1%Z (Dijkstra.g st2) ∧
       ∀ rest out out' st'',
         Dijkstra.main_loop both_ways tie rest st' out = Some (out', st'') →
         edge c.1 c.2 (Dijkstra.g st'') = true ∧ dij_is_connected st'' c = true).
Proof.
  split.
  - intros st I c st2 st' Hnc.
    destruct (bfs_resolve_spec payment st I) as (I2 & _ & Hc & Hn).
    fold c st2 in I2, Hc, Hn.
    pose proof (bfs_not_connected_no_edge st2 c I2 Hc Hnc) as He.
    destruct (bfs_friendship_degree_total (Bfs.g st2) c Hn) as [f Hf].
    destruct (bfs_after_read_spec c st2 I2) as (I3 & _ & Hg & _).
    destruct (bfs_update_network_spec c (bfs_after_read c st2) I3 Hc) as (I4 & _ & He4 & _).
    { by rewrite Hg. }
    fold st' in I4, He4.
    exists f. split_and!; [done..| | |].
    + rewrite bfs_body_unfold. cbv zeta. fold c st2. rewrite Hnc, Hf. done.
    + unfold st', Bfs.update_network. rewrite Hg, He. done.
    + intros rest out out' st'' Hrun.
      destruct (bfs_main_loop_spec rest st' out I4) as (out1 & st1 & Hrun1 & I1 & E1).
      rewrite Hrun in Hrun1. simplify_eq.
      assert (edge c.1 c.2 (Bfs.g st1) = true) as He1 by (by apply (bext_edges _ _ E1)).
      split; [done|]. by apply bfs_edge_connected.
  - intros st I c st2 st' Hnc.
    destruct (dij_resolve_spec payment st I) as (I2 & _ & Hc & Hn).
    fold c st2 in I2, Hc, Hn.
    assert (edge c.1 c.2 (Dijkstra.g st2) = false) as He.
    { by rewrite <- dij_connected_edge. }
    destruct (dijkstra_friendship_degree_total (Dijkstra.g st2) both_ways tie c true
                (dinv_unit _ I2) Hn) as [f Hf].
    destruct (dij_update_network_spec c st2 I2 Hc Hn) as (I4 & _ & He4 & _).
    fold st' in I4, He4.
    exists f. split_and!; [done..| | |].
    + rewrite dij_body_unfold. cbv zeta. fold c st2. rewrite Hnc, Hf. done.
    + unfold st', Dijkstra.update_network. rewrite He. done.
    + intros rest out out' st'' Hrun.
      destruct (dij_main_loop_spec both_ways tie rest st' out I4) as (out1 & st1 & Hrun1 & I1 & E1).
      rewrite Hrun in Hrun1. simplify_eq.
      assert (edge c.1 c.2 (Dijkstra.g st1) = true) as He1 by (by apply (dext_edges _ _ E1)).
      split; [done|]. by rewrite dij_connected_edge.
Qed.

(** C2.  For two distinct vertices [s] and [t] of a well-formed graph that
    are not directly connected, [friendship_degree] returns a value; it is
    the length in edges of a shortest path between them when there is one,
    and the maximal [int] when [t] cannot be reached from [s], in particular
    in a graph without any edge.  Shown for the breadth first search and for
    Dijkstra's algorithm with early stop, whatever the heap's tie-breaking
    and the relaxation of the Boost release. *)
Theorem C2_friendship_degree_is_distance
    (both_ways : bool) (tie : nat → nat) (s t : Vertex) :
  (∀ g : Graph unit,
     graph_ok g → (Z.of_nat (num_vertices g) ≤ INT_MAX)%Z →
     s < num_vertices g → t < num_vertices g → s ≠ t → edge s t g = false →
     degree_spec g s t (Bfs.friendship_degree (s, t) g) ∧
     (m_edges g = [] → Bfs.friendship_degree (s, t) g = Some INT_MAX)) ∧
  (∀ g : Graph Z,
     graph_ok g → unit_weights g → (Z.of_nat (num_vertices g) ≤ INT_MAX)%Z →
     s < num_vertices g → t < num_vertices g → s ≠ t → edge s t g = false →
     degree_spec g s t (Dijkstra.friendship_degree both_ways tie (s, t) g true) ∧
     (m_edges g = [] → Dijkstra.friendship_degree both_ways tie (s, t) g true = Some INT_MAX)).
Proof.
  split.
  - intros g Hg Hsz Hs Ht Hne _.
    pose proof (bfs_degree_spec g s t Hg Hsz Hs Ht) as Hspec. split; [done|].
    intros He. apply Hspec. by apply no_edges_not_connected.
  - intros g Hg Hu Hsz Hs Ht Hne _.
    pose proof (dijkstra_degree_spec both_ways tie g s t true Hg Hu Hsz Hs Ht) as Hspec.
    split; [done|]. intros He. apply Hspec. by apply no_edges_not_connected.
Qed.

(** Against C3: the bulk load of a payment of user 7 to user 7 puts the
    self-loop 0-0 into the graph, in both programs. *)
Lemma C3_counterexample :
  m_edges (Bfs.g (Bfs.build_paymo_network [pay 7 7] Bfs.init)) = [(0, 0, ())] ∧
  edge 0 0 (Bfs.g (Bfs.build_paymo_network [pay 7 7] Bfs.init)) = true ∧
  m_edges (Dijkstra.g (Dijkstra.build_paymo_network [pay 7 7] Dijkstra.init))
    = [(0, 0, 1%Z)].
Proof. by vm_compute. Qed.

(** C3, amended.  Edge insertion never creates a parallel edge: after any
    bulk load followed by any stream, and after any [update_network] from a
    state the invariant describes, no two entries of the edge list join the
    same unordered pair.  A pair with [a = b] is not rejected:
    [update_network] leaves the self-loop at [a] in the graph. *)
Theorem C3_no_parallel_edges
    (both_ways : bool) (tie : nat → nat) (batch stream : data_t) :
  (∃ out st, Bfs.main batch stream = Some (out, st) ∧ simple_edges (Bfs.g st)) ∧
  (∃ out st, Dijkstra.main both_ways tie batch stream = Some (out, st) ∧
             simple_edges (Dijkstra.g st)) ∧
  (∀ st c, bfs_inv st → canonical c → c.2 < num_vertices (Bfs.g st) →
     simple_edges (Bfs.g (Bfs.update_network c st))) ∧
  (∀ st c, dij_inv st → canonical c → c.2 < num_vertices (Dijkstra.g st) →
     simple_edges (Dijkstra.g (Dijkstra.update_network c st))) ∧
  (∀ st a, edge a a (Bfs.g (Bfs.update_network (a, a) st)) = true) ∧
  (∀ st a, edge a a (Dijkstra.g (Dijkstra.update_network (a, a) st)) = true).
Proof.
  split_and!.
  - destruct (bfs_main_spec batch stream) as (out & st & Hrun & I).
    exists out, st. split; [done|apply I].
  - destruct (dij_main_spec both_ways tie batch stream) as (out & st & Hrun & I).
    exists out, st. split; [done|apply I].
  - intros st c I Hc Hn. by apply bfs_update_network_spec.
  - intros st c I Hc Hn. by apply dij_update_network_spec.
  - intros st a. unfold Bfs.update_network. cbn [fst snd].
    destruct (edge a a (Bfs.g st)) eqn:He; cbn [negb Bfs.g]; [done|].
    apply edge_add_edge_same.
  - intros st a. unfold Dijkstra.update_network. cbn [fst snd].
    destruct (edge a a (Dijkstra.g st)) eqn:He; cbn [negb Dijkstra.g]; [done|].
    apply edge_add_edge_same.
Qed.

(** C4.  On every well-formed graph with unit weights and every pair of
    distinct, not directly connected vertices, the breadth first search of
    [fraud-alert-bfs.cpp] and Dijkstra's algorithm with the early stop at
    [finish_vertex] of [fraud-alert.cpp] return the same value, whatever the
    heap's tie-breaking and the relaxation of the Boost release. *)
Theorem C4_bfs_dijkstra_same_degree
    (both_ways : bool) (tie : nat → nat) (g : Graph Z) (s t : Vertex) :
  graph_ok g → unit_weights g → (Z.of_nat (num_vertices g) ≤ INT_MAX)%Z →
  s < num_vertices g → t < num_vertices g → s ≠ t → edge s t g = false →
  ∃ d, Bfs.friendship_degree (s, t) (forget_weights g) = Some d ∧
       Dijkstra.friendship_degree both_ways tie (s, t) g true = Some d.
Proof.
  intros Hg Hu Hsz Hs Ht _ _. apply dijkstra_bfs_same_degree; try done. apply Hg.
Qed.

(** C5.  [perfect_hash] is injective on pairs of [int]s; an
    [update_network] that inserts a new edge makes [is_connected] true of
    its connection and changes the answer for no other pair; in every state
    the invariant describes, [is_connected] of a canonical pair of vertices
    is exactly [edge], the vertex count being at most 2^32 so that the
    conversion of a vertex to [int] loses nothing; and [main], on payments
    whose user ids are [int]s as the record type has them, ends in a state
    where index and edges agree in this way, with no bound assumed. *)
Theorem C5_index_matches_edges :
  (∀ a b a' b', is_int a → is_int b → is_int a' → is_int b' →
     perfect_hash a b = perfect_hash a' b' → a = a' ∧ b = b') ∧
  (∀ st c, bfs_inv st → canonical c → c.2 < num_vertices (Bfs.g st) →
     (Z.of_nat (num_vertices (Bfs.g st)) ≤ 2 ^ 32)%Z →
     edge c.1 c.2 (Bfs.g st) = false →
     bfs_is_connected (Bfs.update_network c st) c = true ∧
     ∀ c', (Z.of_nat c'.1 < 2 ^ 32)%Z → (Z.of_nat c'.2 < 2 ^ 32)%Z → c' ≠ c →
       bfs_is_connected (Bfs.update_network c st) c' = bfs_is_connected st c') ∧
  (∀ st c, bfs_inv st → canonical c → c.2 < num_vertices (Bfs.g st) →
     (Z.of_nat (num_vertices (Bfs.g st)) ≤ 2 ^ 32)%Z →
     bfs_is_connected st c = edge c.1 c.2 (Bfs.g st)) ∧
  (∀ batch stream, Forall int_payment batch → Forall int_payment stream →
     ∃ out st, Bfs.main batch stream = Some (out, st) ∧ bfs_inv st ∧
       ∀ c, canonical c → c.2 < num_vertices (Bfs.g st) →
         bfs_is_connected st c = edge c.1 c.2 (Bfs.g st)).
Proof.
  split_and!.
  - apply perfect_hash_injective.
  - intros st c I Hc Hn Hsz He. unfold canonical in Hc. split.
    + unfold bfs_is_connected, Bfs.update_network. rewrite He. cbn [negb Bfs.friends].
      rewrite <- surjective_pairing. by rewrite lookup_insert_eq.
    + intros c' H1 H2 Hne. unfold bfs_is_connected, Bfs.update_network.
      rewrite He. cbn [negb Bfs.friends]. rewrite <- surjective_pairing.
      rewrite lookup_insert_ne; [done|]. intros Hk. apply Hne. symmetry.
      apply friend_key_inj; try done; lia.
  - intros st c I Hc Hn Hsz. by apply bfs_index_exact.
  - apply bfs_main_index_exact.
Qed.

(** C6.  The three verdicts of a round are functions of the friendship
    value alone: the first output is trusted iff it is at most 1, the second
    iff at most 2, the third iff at most 4; the value 1 is trusted on all
    three and the maximal [int] unverified on all three. *)
Theorem C6_classifier_thresholds (friendship : Z) :
  (verdict 1 friendship = "Trusted" ↔ (friendship ≤ 1)%Z) ∧
  (verdict 2 friendship = "Trusted" ↔ (friendship ≤ 2)%Z) ∧
  (verdict 4 friendship = "Trusted" ↔ (friendship ≤ 4)%Z) ∧
  (∀ threshold, verdict threshold friendship = "Trusted" ∨
                verdict threshold friendship = "Unverified") ∧
  (∀ out, Bfs.write_verdicts friendship out =
     Bfs.mk_output (Bfs.output1 out ++ [verdict 1 friendship])
                   (Bfs.output2 out ++ [verdict 2 friendship])
                   (Bfs.output3 out ++ [verdict 4 friendship])) ∧
  (∀ out, Dijkstra.write_verdicts friendship out =
     Dijkstra.mk_output (Dijkstra.output1 out ++ [verdict 1 friendship])
                        (Dijkstra.output2 out ++ [verdict 2 friendship])
                        (Dijkstra.output3 out ++ [verdict 4 friendship])) ∧
  (verdict 1 1 = "Trusted" ∧ verdict 2 1 = "Trusted" ∧ verdict 4 1 = "Trusted") ∧
  (verdict 1 INT_MAX = "Unverified" ∧ verdict 2 INT_MAX = "Unverified" ∧
   verdict 4 INT_MAX = "Unverified").
Proof.
  assert (Hv : ∀ th, verdict th friendship = "Trusted" ↔ (friendship ≤ th)%Z).
  { intros th. unfold verdict. destruct (Z.ltb_spec th friendship); split; (done || lia). }
  split_and!; try apply Hv; try done.
  intros th. unfold verdict. destruct (_ <? _)%Z; auto.
Qed.

Lemma dij_history_inv : dij_inv dij_history.
Proof. apply dij_build_spec, dij_init_inv. Qed.

Lemma bfs_history_inv : bfs_inv bfs_history.
Proof. apply bfs_build_spec, bfs_init_inv. Qed.


Lemma dij_main_loop_degrees both_ways tie data : ∀ st out,
  fst <$> Dijkstra.main_loop both_ways tie data st out =
    (λ fs, foldl (λ o f, Dijkstra.write_verdicts f o) out fs) <$> dij_degrees both_ways tie data st.
Proof.
  induction data as [|p data IH]; intros st out; simpl; [done|].
  destruct (Dijkstra.main_loop_body both_ways tie p st) as [[f st']|]; simpl; [|done].
  rewrite IH. by destruct (dij_degrees both_ways tie data st').
Qed.

Lemma dij_history_degrees both_ways tie data :
  length data ≤ 8 →
  dij_degrees both_ways tie data dij_history = dij_degrees_by_bfs data dij_history.
Proof.
  intros Hl. apply dij_degrees_by_bfs_eq; [apply dij_history_inv|].
  assert (num_vertices (Dijkstra.g dij_history) = 4) as -> by (vm_compute; reflexivity).
  unfold INT_MAX. lia.
Qed.

(** Against C7: after the history 1-2, 2-3, 3-4 and the payment 1-3, the
    payment 1-4 does not get the friendship value 3. *)
Lemma C7_counterexample :
  bfs_degrees [pay 1 3; pay 1 4] bfs_history ≠ Some [2%Z; 3%Z] ∧
  dij_degrees false (λ _, 0) [pay 1 3; pay 1 4] dij_history ≠ Some [2%Z; 3%Z] ∧
  dij_degrees true (λ _, 0) [pay 1 3; pay 1 4] dij_history ≠ Some [2%Z; 3%Z].
Proof. split_and!; vm_compute; discriminate. Qed.

(** C7, amended.  After the bulk load of 1-2, 2-3, 3-4 the payment 1-3 gets
    the value 2 (unverified, trusted, trusted); the payment 1-4 that follows
    it gets 2 as well (unverified, trusted, trusted), through the edge 1-3
    the previous round inserted, and gets 3 (unverified, unverified,
    trusted) when it comes first; the payment 1-5 to a user without
    payments gets the maximal [int] and is unverified on all three. *)
Theorem C7_scenario_degrees (both_ways : bool) (tie : nat → nat) :
  bfs_degrees [pay 1 3; pay 1 4; pay 1 5] bfs_history = Some [2%Z; 2%Z; INT_MAX] ∧
  bfs_degrees [pay 1 4] bfs_history = Some [3%Z] ∧
  bfs_degrees [pay 1 5] bfs_history = Some [INT_MAX] ∧
  dij_degrees both_ways tie [pay 1 3; pay 1 4; pay 1 5] dij_history = Some [2%Z; 2%Z; INT_MAX] ∧
  dij_degrees both_ways tie [pay 1 4] dij_history = Some [3%Z] ∧
  dij_degrees both_ways tie [pay 1 5] dij_history = Some [INT_MAX] ∧
  fst <$> Bfs.main batch3 [pay 1 3; pay 1 4; pay 1 5] =
    Some (Bfs.mk_output ["Unverified"; "Unverified"; "Unverified"]
                        ["Trusted"; "Trusted"; "Unverified"]
                        ["Trusted"; "Trusted"; "Unverified"]) ∧
  fst <$> Bfs.main batch3 [pay 1 4] =
    Some (Bfs.mk_output ["Unverified"] ["Unverified"] ["Trusted"]) ∧
  fst <$> Dijkstra.main both_ways tie batch3 [pay 1 3; pay 1 4; pay 1 5] =
    Some (Dijkstra.mk_output ["Unverified"; "Unverified"; "Unverified"]
                             ["Trusted"; "Trusted"; "Unverified"]
                             ["Trusted"; "Trusted"; "Unverified"]) ∧
  fst <$> Dijkstra.main both_ways tie batch3 [pay 1 4] =
    Some (Dijkstra.mk_output ["Unverified"] ["Unverified"] ["Trusted"]).
Proof.
  assert (D1 : dij_degrees both_ways tie [pay 1 3; pay 1 4; pay 1 5] dij_history
               = Some [2%Z; 2%Z; INT_MAX]).
  { rewrite dij_history_degrees by (simpl; lia). vm_compute. reflexivity. }
  assert (D2 : dij_degrees both_ways tie [pay 1 4] dij_history = Some [3%Z]).
  { rewrite dij_history_degrees by (simpl; lia). vm_compute. reflexivity. }
  assert (D3 : dij_degrees both_ways tie [pay 1 5] dij_history = Some [INT_MAX]).
  { rewrite dij_history_degrees by (simpl; lia). vm_compute. reflexivity. }
  split; [vm_compute; reflexivity|].
  split; [vm_compute; reflexivity|].
  split; [vm_compute; reflexivity|].
  split; [exact D1|]. split; [exact D2|]. split; [exact D3|].
  split; [vm_compute; reflexivity|].
  split; [vm_compute; reflexivity|].
  split.
  - unfold Dijkstra.main. fold dij_history. rewrite dij_main_loop_degrees, D1.
    vm_compute. reflexivity.
  - unfold Dijkstra.main. fold dij_history. rewrite dij_main_loop_degrees, D2.
    vm_compute. reflexivity.
Qed.

Lemma dij_add_user_found uid st node :
  Dijkstra.users st !! uid = Some node → Dijkstra.add_user uid st = (node, st).
Proof. intros Hu. unfold Dijkstra.add_user. by rewrite Hu. Qed.

Lemma dij_add_user_lookup uid st :
  Dijkstra.users (Dijkstra.add_user uid st).2 !! uid = Some (Dijkstra.add_user uid st).1.
Proof.
  unfold Dijkstra.add_user. destruct (Dijkstra.users st !! uid) eqn:Hu; [done|].
  cbn [add_vertex fst snd Dijkstra.users]. rewrite (map_insert_new_lookup uid) by done.
  apply lookup_insert_eq.
Qed.

Lemma dij_add_user_keeps uid st uid' v :
  Dijkstra.users st !! uid' = Some v →
  Dijkstra.users (Dijkstra.add_user uid st).2 !! uid' = Some v.
Proof.
  intros Hv. unfold Dijkstra.add_user. destruct (Dijkstra.users st !! uid) eqn:Hu; [done|].
  cbn [add_vertex fst snd Dijkstra.users]. rewrite (map_insert_new_lookup uid) by done.
  rewrite lookup_insert_ne; [done|]. congruence.
Qed.

Lemma dij_update_network_users c st :
  Dijkstra.users (Dijkstra.update_network c st) = Dijkstra.users st.
Proof. unfold Dijkstra.update_network. by destruct (negb _). Qed.

Lemma dij_resolve_known p st node1 node2 :
  Dijkstra.users st !! id1 p = Some node1 → Dijkstra.users st !! id2 p = Some node2 →
  dij_resolve p st = (create_connection node1 node2, st).
Proof.
  intros U1 U2. unfold dij_resolve.
  by rewrite (dij_add_user_found _ _ _ U1), (dij_add_user_found _ _ _ U2).
Qed.

Lemma dij_resolve_users p st :
  ∃ node1 node2,
    (dij_resolve p st).1 = create_connection node1 node2 ∧
    Dijkstra.users (dij_resolve p st).2 !! id1 p = Some node1 ∧
    Dijkstra.users (dij_resolve p st).2 !! id2 p = Some node2.
Proof.
  unfold dij_resolve.
  pose proof (dij_add_user_lookup (id1 p) st) as H1.
  destruct (Dijkstra.add_user (id1 p) st) as [node1 st1]. cbn [fst snd] in *.
  pose proof (dij_add_user_lookup (id2 p) st1) as H2.
  pose proof (dij_add_user_keeps (id2 p) st1 _ _ H1) as H1'.
  destruct (Dijkstra.add_user (id2 p) st1) as [node2 st2]. cbn [fst snd] in *.
  by exists node1, node2.
Qed.

Lemma bfs_resolve_same_pair p p' st st1 :
  same_pair p p' → Bfs.users st1 = Bfs.users (bfs_resolve p st).2 →
  bfs_resolve p' st1 = ((bfs_resolve p st).1, st1).
Proof.
  intros Hids Hu. destruct (bfs_resolve_users p st) as (node1 & node2 & Hc & U1 & U2).
  rewrite <- Hu in U1, U2. destruct Hids as [[E1 E2]|[E1 E2]].
  - rewrite (bfs_resolve_known p' _ node1 node2) by congruence. by rewrite Hc.
  - rewrite (bfs_resolve_known p' _ node2 node1) by congruence.
    by rewrite Hc, create_connection_comm.
Qed.

Lemma dij_resolve_same_pair p p' st st1 :
  same_pair p p' → Dijkstra.users st1 = Dijkstra.users (dij_resolve p st).2 →
  dij_resolve p' st1 = ((dij_resolve p st).1, st1).
Proof.
  intros Hids Hu. destruct (dij_resolve_users p st) as (node1 & node2 & Hc & U1 & U2).
  rewrite <- Hu in U1, U2. destruct Hids as [[E1 E2]|[E1 E2]].
  - rewrite (dij_resolve_known p' _ node1 node2) by congruence. by rewrite Hc.
  - rewrite (dij_resolve_known p' _ node2 node1) by congruence.
    by rewrite Hc, create_connection_comm.
Qed.

Lemma bfs_bulk_same_pair p p' st :
  same_pair p p' →
  Bfs.build_paymo_network [p; p'] st = Bfs.build_paymo_network [p] st.
Proof. apply bfs_bulk_twice. Qed.

Lemma dij_bulk_same_pair p p' st :
  same_pair p p' →
  Dijkstra.build_paymo_network [p; p'] st = Dijkstra.build_paymo_network [p] st.
Proof.
  intros Hids. unfold Dijkstra.build_paymo_network. simpl. rewrite !dij_bulk_unfold.
  rewrite (dij_resolve_same_pair p p' st); [|done|by rewrite dij_update_network_users].
  cbn [fst snd]. apply dij_update_network_idem.
Qed.

Lemma bfs_after_read_id c st :
  is_Some (Bfs.friends st !! Bfs.friend_key c) → bfs_after_read c st = st.
Proof.
  intros [b Hb]. unfold bfs_after_read, Bfs.friends_index. rewrite Hb. by destruct st.
Qed.

Lemma bfs_live_same_pair p p' st f st1 :
  bfs_inv st → same_pair p p' →
  Bfs.main_loop_body p st = Some (f, st1) →
  Bfs.main_loop_body p' st1 = Some (1%Z, st1).
Proof.
  intros I Hids Hrun. rewrite bfs_body_unfold in Hrun. cbv zeta in Hrun.
  destruct (bfs_resolve_spec p st I) as (I2 & _ & Hc & Hn).
  destruct (bfs_after_read_spec (bfs_resolve p st).1 _ I2) as (I3 & _ & Hg & Hconn).
  assert (Bfs.users st1 = Bfs.users (bfs_resolve p st).2 ∧
          Bfs.friends st1 !! Bfs.friend_key (bfs_resolve p st).1 = Some true) as [Hu Hk].
  { destruct (bfs_is_connected _ _) eqn:Hcon.
    - simplify_eq. split; [done|]. apply bfs_is_connected_true. by rewrite Hconn.
    - destruct (Bfs.friendship_degree _ _); [|done]. simpl in Hrun. simplify_eq.
      split; [by rewrite bfs_update_network_users|].
      rewrite <- Hg in Hn.
      destruct (bfs_update_network_spec _ _ I3 Hc Hn) as (I4 & _ & He & _).
      apply bfs_is_connected_true. by apply bfs_edge_connected. }
  rewrite bfs_body_unfold. cbv zeta.
  rewrite (bfs_resolve_same_pair p p' st st1 Hids Hu). cbn [fst snd].
  rewrite (proj2 (bfs_is_connected_true st1 _) Hk).
  by rewrite bfs_after_read_id.
Qed.

Lemma dij_live_same_pair both_ways tie p p' st f st1 :
  dij_inv st → same_pair p p' →
  Dijkstra.main_loop_body both_ways tie p st = Some (f, st1) →
  Dijkstra.main_loop_body both_ways tie p' st1 = Some (1%Z, st1).
Proof.
  intros I Hids Hrun. rewrite dij_body_unfold in Hrun. cbv zeta in Hrun.
  destruct (dij_resolve_spec p st I) as (I2 & _ & Hc & Hn).
  assert (Dijkstra.users st1 = Dijkstra.users (dij_resolve p st).2 ∧
          dij_is_connected st1 (dij_resolve p st).1 = true) as [Hu Hk].
  { destruct (dij_is_connected _ _) eqn:Hcon.
    - by simplify_eq.
    - destruct (Dijkstra.friendship_degree _ _ _ _); [|done]. simpl in Hrun. simplify_eq.
      split; [by rewrite dij_update_network_users|].
      destruct (dij_update_network_spec _ _ I2 Hc Hn) as (I4 & _ & He & _).
      by rewrite dij_connected_edge. }
  rewrite dij_body_unfold. cbv zeta.
  rewrite (dij_resolve_same_pair p p' st st1 Hids Hu). cbn [fst snd].
  by rewrite Hk.
Qed.

(** C8.  Edge insertion is idempotent: a second [update_network] of the
    same connection leaves the state as the first left it, so [edge],
    [is_connected] and [friendship_degree] answer as before for every pair;
    the connection does not depend on the order of the two nodes; and a
    second payment between the same two users, in either order, leaves the
    state of the bulk load, and of the main loop, unchanged. *)
Theorem C8_edge_insertion_idempotent (both_ways : bool) (tie : nat → nat) :
  (∀ c st, Bfs.update_network c (Bfs.update_network c st) = Bfs.update_network c st) ∧
  (∀ c st, Dijkstra.update_network c (Dijkstra.update_network c st)
           = Dijkstra.update_network c st) ∧
  (∀ a b, create_connection a b = create_connection b a) ∧
  (∀ c st x y,
     let st1 := Bfs.update_network c st in
     let st2 := Bfs.update_network c st1 in
     edge x y (Bfs.g st2) = edge x y (Bfs.g st1) ∧
     bfs_is_connected st2 (x, y) = bfs_is_connected st1 (x, y) ∧
     Bfs.friendship_degree (x, y) (Bfs.g st2) = Bfs.friendship_degree (x, y) (Bfs.g st1)) ∧
  (∀ c st x y,
     let st1 := Dijkstra.update_network c st in
     let st2 := Dijkstra.update_network c st1 in
     edge x y (Dijkstra.g st2) = edge x y (Dijkstra.g st1) ∧
     dij_is_connected st2 (x, y) = dij_is_connected st1 (x, y) ∧
     Dijkstra.friendship_degree both_ways tie (x, y) (Dijkstra.g st2) true
       = Dijkstra.friendship_degree both_ways tie (x, y) (Dijkstra.g st1) true) ∧
  (∀ p p' st, same_pair p p' →
     Bfs.build_paymo_network [p; p'] st = Bfs.build_paymo_network [p] st) ∧
  (∀ p p' st, same_pair p p' →
     Dijkstra.build_paymo_network [p; p'] st = Dijkstra.build_paymo_network [p] st) ∧
  (∀ p p' st f st1, bfs_inv st → same_pair p p' →
     Bfs.main_loop_body p st = Some (f, st1) →
     Bfs.main_loop_body p' st1 = Some (1%Z, st1)) ∧
  (∀ p p' st f st1, dij_inv st → same_pair p p' →
     Dijkstra.main_loop_body both_ways tie p st = Some (f, st1) →
     Dijkstra.main_loop_body both_ways tie p' st1 = Some (1%Z, st1)).
Proof.
  split_and!.
  - apply bfs_update_network_idem.
  - apply dij_update_network_idem.
  - apply create_connection_comm.
  - intros c st x y st1 st2. subst st1 st2. by rewrite bfs_update_network_idem.
  - intros c st x y st1 st2. subst st1 st2. by rewrite dij_update_network_idem.
  - apply bfs_bulk_same_pair.
  - apply dij_bulk_same_pair.
  - apply bfs_live_same_pair.
  - apply dij_live_same_pair.
Qed.

(** Against C9: on the graph of one vertex the search from 0 to 0 does not
    return the maximal [int]. *)
Lemma C9_counterexample :
  Bfs.friendship_degree (0, 0) (add_vertex empty_graph).2 ≠ Some INT_MAX ∧
  Dijkstra.friendship_degree false (λ _, 0) (0, 0) (add_vertex empty_graph).2 true
    ≠ Some INT_MAX ∧
  Dijkstra.friendship_degree true (λ _, 0) (0, 0) (add_vertex empty_graph).2 true
    ≠ Some INT_MAX.
Proof. split_and!; vm_compute; discriminate. Qed.

(** C9, amended.  The search from a vertex to itself returns 0, the
    distance [friendship_degree] gives the start vertex, in both programs;
    the value 0 is trusted on all three outputs. *)
Theorem C9_search_to_self_is_zero (both_ways : bool) (tie : nat → nat) :
  (∀ (g : Graph unit) a, a < num_vertices g →
     Bfs.friendship_degree (a, a) g = Some 0%Z) ∧
  (∀ (g : Graph Z) a, unit_weights g → a < num_vertices g →
     Dijkstra.friendship_degree both_ways tie (a, a) g true = Some 0%Z) ∧
  (verdict 1 0 = "Trusted" ∧ verdict 2 0 = "Trusted" ∧ verdict 4 0 = "Trusted").
Proof.
  split_and!; try reflexivity.
  - apply bfs_self_degree.
  - intros g a. apply dij_self_degree.
Qed.

(** C10.  The read [friends[k]] of the main loop returns the value found,
    [false] when the key is absent, and then leaves the key in the map with
    the value [false]; the answer of [is_connected] is the same before and
    after the read, for every pair. *)
Theorem C10_index_read_keeps_answers (k : Z) (m : gmap Z bool) :
  Bfs.friends_index k m =
    (default false (m !! k),
     match m !! k with Some _ => m | None => <[k := false]> m end) ∧
  (∀ k', default false ((Bfs.friends_index k m).2 !! k') = default false (m !! k')) ∧
  (∀ c st c', bfs_is_connected (bfs_after_read c st) c' = bfs_is_connected st c') ∧
  (∀ p st,
     Bfs.main_loop_body p st =
       let c := (bfs_resolve p st).1 in
       let st2 := (bfs_resolve p st).2 in
       if bfs_is_connected st2 c then Some (1%Z, bfs_after_read c st2)
       else friendship ← Bfs.friendship_degree c (Bfs.g st2);
            Some (friendship, Bfs.update_network c (bfs_after_read c st2))).
Proof.
  split_and!.
  - unfold Bfs.friends_index. by destruct (m !! k).
  - apply friends_index_frame.
  - intros c st c'. unfold bfs_is_connected, bfs_after_read. cbn [Bfs.friends].
    apply friends_index_frame.
  - apply bfs_body_unfold.
Qed.

Lemma chain_shortest_path {W} (g : Graph W) w1 w2 w3 :
  m_edges g = [(0, 1, w1); (1, 2, w2); (2, 3, w3)] → shortest_path g 0 2 2.
Proof.
  intros He. split.
  - apply path_step with (u := 1); [apply path_step with (u := 0); [apply path_here|]|].
    + exists w1. left. rewrite He. apply list_elem_of_here.
    + exists w2. left. rewrite He. apply list_elem_of_further, list_elem_of_here.
  - intros k' Hp. destruct k' as [|[|k']]; [| |lia].
    + inversion Hp.
    + exfalso. inversion Hp as [|k u v Hp' [w Hl]]; subst.
      inversion Hp'; subst. rewrite He in Hl.
      destruct Hl as [Hl|Hl]; apply list_elem_of_In in Hl; simpl in Hl;
        repeat (destruct Hl as [Hl|Hl]; [discriminate Hl|]); exact Hl.
Qed.

(** C1 at the payment 1-3 after the history 1-2, 2-3, 3-4. *)
Lemma C1_witness :
  ∃ st', Bfs.main_loop_body (pay 1 3) bfs_history = Some (2%Z, st') ∧
         edge 0 2 (Bfs.g bfs_history) = false ∧
         edge 0 2 (Bfs.g st') = true.
Proof.
  destruct (C1_live_search_before_insert false (λ _, 0) (pay 1 3)) as [HB _].
  specialize (HB bfs_history bfs_history_inv). cbv zeta in HB.
  destruct HB as (f & Hf & He & Hrun & Hg & Hlater).
  { vm_compute. reflexivity. }
  vm_compute in Hf. injection Hf as <-.
  eexists. split; [exact Hrun|]. split; vm_compute; reflexivity.
Defined.

(** C2 at users 1 and 3 of the history 1-2, 2-3, 3-4: degree 2. *)
Lemma C2_witness :
  Bfs.friendship_degree (0, 2) (Bfs.g bfs_history) = Some 2%Z ∧
  Dijkstra.friendship_degree false (λ _, 0) (0, 2) (Dijkstra.g dij_history) true = Some 2%Z.
Proof.
  destruct (C2_friendship_degree_is_distance false (λ _, 0) 0 2) as [HB HD]. split.
  - destruct (HB (Bfs.g bfs_history)) as [(_ & Hd & _) _].
    + apply bfs_history_inv.
    + vm_compute. discriminate.
    + vm_compute. lia.
    + vm_compute. lia.
    + lia.
    + vm_compute. reflexivity.
    + apply (Hd 2). apply (chain_shortest_path _ () () ()). vm_compute. reflexivity.
  - destruct (HD (Dijkstra.g dij_history)) as [(_ & Hd & _) _].
    + apply dij_history_inv.
    + apply dij_history_inv.
    + vm_compute. discriminate.
    + vm_compute. lia.
    + vm_compute. lia.
    + lia.
    + vm_compute. reflexivity.
    + apply (Hd 2). apply (chain_shortest_path _ 1%Z 1%Z 1%Z). vm_compute. reflexivity.
Defined.

(** C3 at the insertion of 0-2 into the history 1-2, 2-3, 3-4. *)
Lemma C3_witness :
  simple_edges (Bfs.g (Bfs.update_network (0, 2) bfs_history)).
Proof.
  destruct (C3_no_parallel_edges false (λ _, 0) [] []) as (_ & _ & H & _).
  apply H.
  - apply bfs_history_inv.
  - unfold canonical. simpl. lia.
  - vm_compute. lia.
Defined.

(** C4 at users 1 and 3 of the history 1-2, 2-3, 3-4. *)
Lemma C4_witness :
  ∃ d, Bfs.friendship_degree (0, 2) (forget_weights (Dijkstra.g dij_history)) = Some d ∧
       Dijkstra.friendship_degree false (λ _, 0) (0, 2) (Dijkstra.g dij_history) true = Some d.
Proof.
  apply C4_bfs_dijkstra_same_degree.
  - apply dij_history_inv.
  - apply dij_history_inv.
  - vm_compute. discriminate.
  - vm_compute. lia.
  - vm_compute. lia.
  - lia.
  - vm_compute. reflexivity.
Defined.

(** C5 at the insertion of 0-2 into the history 1-2, 2-3, 3-4. *)
Lemma C5_witness :
  bfs_is_connected (Bfs.update_network (0, 2) bfs_history) (0, 2) = true ∧
  bfs_is_connected (Bfs.update_network (0, 2) bfs_history) (0, 3)
    = bfs_is_connected bfs_history (0, 3).
Proof.
  destruct C5_index_matches_edges as (_ & H & _).
  destruct (H bfs_history (0, 2)) as [H1 H2].
  - apply bfs_history_inv.
  - unfold canonical. simpl. lia.
  - vm_compute. lia.
  - vm_compute. discriminate.
  - vm_compute. reflexivity.
  - split; [exact H1|]. apply H2.
    + vm_compute. reflexivity.
    + vm_compute. reflexivity.
    + discriminate.
Defined.

(** C8 at the payments 1-2 and 2-1 on the empty state. *)
Lemma C8_witness :
  Bfs.build_paymo_network [pay 1 2; pay 2 1] Bfs.init
    = Bfs.build_paymo_network [pay 1 2] Bfs.init.
Proof.
  destruct (C8_edge_insertion_idempotent false (λ _, 0)) as (_ & _ & _ & _ & _ & H & _).
  apply H. right. split; reflexivity.
Defined.

(** C9 at the graph of one vertex. *)
Lemma C9_witness :
  Bfs.friendship_degree (0, 0) (add_vertex empty_graph).2 = Some 0%Z.
Proof.
  destruct (C9_search_to_self_is_zero false (λ _, 0)) as (H & _).
  apply H. vm_compute. lia.
Defined.

(** * Further properties of the two programs *)

(** ** The user registry *)

Lemma registry_ok_empty : registry_ok ∅ ∅ 0.
Proof.
  constructor.
  - intros uid v. by rewrite !lookup_empty.
  - intros v. rewrite lookup_empty. split; [by intros [? ?]|lia].
  - apply map_size_empty.
Qed.

Lemma registry_ok_insert users nodes n uid :
  registry_ok users nodes n → users !! uid = None →
  registry_ok (map_insert_new uid n users) (map_insert_new n uid nodes) (S n).
Proof.
  intros [Hinv Hd Hc] Hu.
  assert (nodes !! n = None) as Hn.
  { destruct (nodes !! n) eqn:E; [|done]. assert (n < n); [|lia]. apply Hd. by eexists. }
  rewrite (map_insert_new_lookup uid), (map_insert_new_lookup n) by done.
  constructor.
  - intros uid' v. destruct (decide (uid' = uid)) as [->|Hne].
    + rewrite lookup_insert_eq. destruct (decide (v = n)) as [->|Hnv].
      * by rewrite lookup_insert_eq.
      * rewrite lookup_insert_ne by done. split; [congruence|].
        intros Hv%Hinv. congruence.
    + rewrite lookup_insert_ne by done. destruct (decide (v = n)) as [->|Hnv].
      * rewrite lookup_insert_eq. split; [|congruence].
        intros Hv%Hinv. congruence.
      * rewrite lookup_insert_ne by done. apply Hinv.
  - intros v. destruct (decide (v = n)) as [->|Hnv].
    + rewrite lookup_insert_eq. split; [lia|by eexists].
    + rewrite lookup_insert_ne by done. rewrite Hd. lia.
  - rewrite map_size_insert_None by done. lia.
Qed.

Lemma registry_ok_inj users nodes n u1 u2 v :
  registry_ok users nodes n → users !! u1 = Some v → users !! u2 = Some v → u1 = u2.
Proof. intros [Hinv _ _] H1%Hinv H2%Hinv. congruence. Qed.

Lemma registry_ok_lt users nodes n uid v :
  registry_ok users nodes n → users !! uid = Some v → v < n.
Proof. intros [Hinv Hd _] Hv%Hinv. apply Hd. by eexists. Qed.

Lemma bfs_registry_ok_add_user uid st :
  bfs_registry_ok st → bfs_registry_ok (Bfs.add_user uid st).2.
Proof.
  unfold bfs_registry_ok, Bfs.add_user. intros R.
  destruct (Bfs.users st !! uid) eqn:Hu; [done|].
  cbn [add_vertex fst snd Bfs.users Bfs.nodes Bfs.g].
  change (mk_graph _ _) with (add_vertex (Bfs.g st)).2.
  rewrite num_vertices_add_vertex. by apply registry_ok_insert.
Qed.

Lemma dij_registry_ok_add_user uid st :
  dij_registry_ok st → dij_registry_ok (Dijkstra.add_user uid st).2.
Proof.
  unfold dij_registry_ok, Dijkstra.add_user. intros R.
  destruct (Dijkstra.users st !! uid) eqn:Hu; [done|].
  cbn [add_vertex fst snd Dijkstra.users Dijkstra.nodes Dijkstra.g].
  change (mk_graph _ _) with (add_vertex (Dijkstra.g st)).2.
  rewrite num_vertices_add_vertex. by apply registry_ok_insert.
Qed.

Lemma bfs_registry_ok_resolve p st :
  bfs_registry_ok st →
  bfs_registry_ok (bfs_resolve p st).2 ∧
  (bfs_resolve p st).1.1 < num_vertices (Bfs.g (bfs_resolve p st).2) ∧
  (bfs_resolve p st).1.2 < num_vertices (Bfs.g (bfs_resolve p st).2).
Proof.
  intros R.
  assert (bfs_registry_ok (bfs_resolve p st).2) as R2.
  { unfold bfs_resolve.
    pose proof (bfs_registry_ok_add_user (id1 p) st R) as R1.
    destruct (Bfs.add_user (id1 p) st) as [node1 st1]. cbn [snd] in R1.
    pose proof (bfs_registry_ok_add_user (id2 p) st1 R1) as R2.
    by destruct (Bfs.add_user (id2 p) st1) as [node2 st2]. }
  split; [done|].
  destruct (bfs_resolve_users p st) as (n1 & n2 & -> & U1 & U2).
  pose proof (registry_ok_lt _ _ _ _ _ R2 U1). pose proof (registry_ok_lt _ _ _ _ _ R2 U2).
  destruct (create_connection_elem n1 n2) as [[-> ->]|[-> ->]]; done.
Qed.

Lemma bfs_registry_ok_update_network c st :
  c.1 < num_vertices (Bfs.g st) → c.2 < num_vertices (Bfs.g st) →
  bfs_registry_ok st → bfs_registry_ok (Bfs.update_network c st).
Proof.
  intros H1 H2 R. unfold bfs_registry_ok, Bfs.update_network.
  destruct (negb _); [|done]. cbn [Bfs.users Bfs.nodes Bfs.g].
  by rewrite num_vertices_add_edge.
Qed.

Lemma bfs_registry_ok_build data : ∀ st,
  bfs_registry_ok st → bfs_registry_ok (Bfs.build_paymo_network data st).
Proof.
  unfold Bfs.build_paymo_network.
  induction data as [|p data IH]; intros st R; simpl; [done|].
  rewrite bfs_bulk_unfold. apply IH.
  destruct (bfs_registry_ok_resolve p st R) as (R2 & H1 & H2).
  by apply bfs_registry_ok_update_network.
Qed.

Lemma bfs_registry_ok_body p st f st' :
  bfs_registry_ok st → Bfs.main_loop_body p st = Some (f, st') → bfs_registry_ok st'.
Proof.
  intros R. rewrite bfs_body_unfold. cbv zeta.
  destruct (bfs_registry_ok_resolve p st R) as (R2 & H1 & H2).
  destruct (bfs_is_connected _ _).
  - intros [= <- <-]. exact R2.
  - destruct (Bfs.friendship_degree _ _); [|done]. simpl. intros [= <- <-].
    by apply bfs_registry_ok_update_network.
Qed.

Lemma bfs_registry_ok_main_loop data : ∀ st out out' st',
  bfs_registry_ok st → Bfs.main_loop data st out = Some (out', st') →
  bfs_registry_ok st'.
Proof.
  induction data as [|p data IH]; intros st out out' st' R; simpl.
  - by intros [= <- <-].
  - destruct (Bfs.main_loop_body p st) as [[f st1]|] eqn:Hb; [|done]. simpl.
    apply IH. by eapply bfs_registry_ok_body.
Qed.

Lemma dij_registry_ok_resolve p st :
  dij_registry_ok st →
  dij_registry_ok (dij_resolve p st).2 ∧
  (dij_resolve p st).1.1 < num_vertices (Dijkstra.g (dij_resolve p st).2) ∧
  (dij_resolve p st).1.2 < num_vertices (Dijkstra.g (dij_resolve p st).2).
Proof.
  intros R.
  assert (dij_registry_ok (dij_resolve p st).2) as R2.
  { unfold dij_resolve.
    pose proof (dij_registry_ok_add_user (id1 p) st R) as R1.
    destruct (Dijkstra.add_user (id1 p) st) as [node1 st1]. cbn [snd] in R1.
    pose proof (dij_registry_ok_add_user (id2 p) st1 R1) as R2.
    by destruct (Dijkstra.add_user (id2 p) st1) as [node2 st2]. }
  split; [done|].
  destruct (dij_resolve_users p st) as (n1 & n2 & -> & U1 & U2).
  pose proof (registry_ok_lt _ _ _ _ _ R2 U1). pose proof (registry_ok_lt _ _ _ _ _ R2 U2).
  destruct (create_connection_elem n1 n2) as [[-> ->]|[-> ->]]; done.
Qed.

Lemma dij_registry_ok_update_network c st :
  c.1 < num_vertices (Dijkstra.g st) → c.2 < num_vertices (Dijkstra.g st) →
  dij_registry_ok st → dij_registry_ok (Dijkstra.update_network c st).
Proof.
  intros H1 H2 R. unfold dij_registry_ok, Dijkstra.update_network.
  destruct (negb _); [|done]. cbn [Dijkstra.users Dijkstra.nodes Dijkstra.g].
  by rewrite num_vertices_add_edge.
Qed.

Lemma dij_registry_ok_build data : ∀ st,
  dij_registry_ok st → dij_registry_ok (Dijkstra.build_paymo_network data st).
Proof.
  unfold Dijkstra.build_paymo_network.
  induction data as [|p data IH]; intros st R; simpl; [done|].
  rewrite dij_bulk_unfold. apply IH.
  destruct (dij_registry_ok_resolve p st R) as (R2 & H1 & H2).
  by apply dij_registry_ok_update_network.
Qed.

Lemma dij_registry_ok_body both_ways tie p st f st' :
  dij_registry_ok st → Dijkstra.main_loop_body both_ways tie p st = Some (f, st') →
  dij_registry_ok st'.
Proof.
  intros R. rewrite dij_body_unfold. cbv zeta.
  destruct (dij_registry_ok_resolve p st R) as (R2 & H1 & H2).
  destruct (dij_is_connected _ _).
  - by intros [= <- <-].
  - destruct (Dijkstra.friendship_degree _ _ _ _ _); [|done]. simpl. intros [= <- <-].
    by apply dij_registry_ok_update_network.
Qed.

Lemma dij_registry_ok_main_loop both_ways tie data : ∀ st out out' st',
  dij_registry_ok st → Dijkstra.main_loop both_ways tie data st out = Some (out', st') →
  dij_registry_ok st'.
Proof.
  induction data as [|p data IH]; intros st out out' st' R; simpl.
  - by intros [= <- <-].
  - destruct (Dijkstra.main_loop_body both_ways tie p st) as [[f st1]|] eqn:Hb; [|done].
    simpl. apply IH. by eapply dij_registry_ok_body.
Qed.

(** ** The two programs build the same network *)

Lemma forget_weights_add_vertex g :
  forget_weights (add_vertex g).2 = (add_vertex (forget_weights g)).2.
Proof.
  unfold forget_weights, add_vertex. cbn [snd m_vertices m_edges]. by rewrite fmap_app.
Qed.

Lemma forget_weights_add_edge u v w g :
  forget_weights (add_edge u v w g) = add_edge u v () (forget_weights g).
Proof.
  unfold add_edge. rewrite num_vertices_forget.
  unfold forget_weights. cbn [m_vertices m_edges].
  set (f := λ l : list (nat * Z), forget_weight <$> l).
  f_equal; [|by rewrite fmap_app].
  rewrite (list_fmap_alter f _ (λ l, l ++ [(u, ())])).
  - rewrite (list_fmap_alter f _ (λ l, l ++ [(v, ())])).
    + by rewrite fmap_app, fmap_replicate.
    + apply Forall_forall. intros l _. unfold f. by rewrite fmap_app.
  - apply Forall_forall. intros l _. unfold f. by rewrite fmap_app.
Qed.

Lemma same_network_init : same_network Bfs.init Dijkstra.init.
Proof. by constructor. Qed.

Lemma same_network_add_user uid sb sd :
  same_network sb sd →
  (Bfs.add_user uid sb).1 = (Dijkstra.add_user uid sd).1 ∧
  same_network (Bfs.add_user uid sb).2 (Dijkstra.add_user uid sd).2.
Proof.
  intros [Hu Hn Hg]. unfold Bfs.add_user, Dijkstra.add_user. rewrite Hu.
  destruct (Dijkstra.users sd !! uid) eqn:E; cbn [fst snd]; [by split|].
  unfold add_vertex; cbn [fst snd]. rewrite Hg, num_vertices_forget. split; [done|].
  constructor; cbn [Bfs.users Bfs.nodes Bfs.g Dijkstra.users Dijkstra.nodes Dijkstra.g].
  - done.
  - by rewrite Hn.
  - unfold forget_weights. cbn [m_vertices m_edges]. by rewrite fmap_app.
Qed.

Lemma same_network_resolve p sb sd :
  same_network sb sd →
  (bfs_resolve p sb).1 = (dij_resolve p sd).1 ∧
  same_network (bfs_resolve p sb).2 (dij_resolve p sd).2.
Proof.
  intros S. unfold bfs_resolve, dij_resolve.
  destruct (same_network_add_user (id1 p) sb sd S) as [E1 S1].
  destruct (Bfs.add_user (id1 p) sb) as [n1 sb1], (Dijkstra.add_user (id1 p) sd) as [m1 sd1].
  cbn [fst snd] in *.
  destruct (same_network_add_user (id2 p) sb1 sd1 S1) as [E2 S2].
  destruct (Bfs.add_user (id2 p) sb1) as [n2 sb2], (Dijkstra.add_user (id2 p) sd1) as [m2 sd2].
  cbn [fst snd] in *. by subst.
Qed.

Lemma same_network_update_network c sb sd :
  same_network sb sd →
  same_network (Bfs.update_network c sb) (Dijkstra.update_network c sd).
Proof.
  intros [Hu Hn Hg]. unfold Bfs.update_network, Dijkstra.update_network.
  rewrite Hg, edge_forget. destruct (negb _); [|by constructor].
  constructor; cbn [Bfs.users Bfs.nodes Bfs.g Dijkstra.users Dijkstra.nodes Dijkstra.g];
    try done.
  by rewrite forget_weights_add_edge.
Qed.

Lemma same_network_build data : ∀ sb sd,
  same_network sb sd →
  same_network (Bfs.build_paymo_network data sb) (Dijkstra.build_paymo_network data sd).
Proof.
  unfold Bfs.build_paymo_network, Dijkstra.build_paymo_network.
  induction data as [|p data IH]; intros sb sd S; simpl; [done|].
  rewrite bfs_bulk_unfold, dij_bulk_unfold. apply IH.
  destruct (same_network_resolve p sb sd S) as [-> S2].
  by apply same_network_update_network.
Qed.

Lemma same_network_body both_ways tie p sb sd :
  same_network sb sd → bfs_inv sb → dij_inv sd →
  (Z.of_nat (num_vertices (Dijkstra.g sd) + 2) ≤ INT_MAX)%Z →
  ∃ f sb' sd',
    Bfs.main_loop_body p sb = Some (f, sb') ∧
    Dijkstra.main_loop_body both_ways tie p sd = Some (f, sd') ∧
    same_network sb' sd' ∧ bfs_inv sb' ∧ dij_inv sd' ∧
    num_vertices (Dijkstra.g sd') ≤ num_vertices (Dijkstra.g sd) + 2.
Proof.
  intros S Ib Id Hsz.
  destruct (bfs_body_spec p sb Ib) as (f & sb' & Hb & Ib' & _).
  destruct (dij_body_spec both_ways tie p sd Id) as (f' & sd' & Hd & Id' & _).
  rewrite Hb, Hd.
  rewrite bfs_body_unfold in Hb. rewrite dij_body_by_bfs_eq in Hd by done.
  unfold dij_body_by_bfs in Hd. cbv zeta in Hb, Hd.
  destruct (same_network_resolve p sb sd S) as [Ec S2].
  destruct (bfs_resolve_spec p sb Ib) as (Ib2 & _ & Hc & Hn).
  destruct (dij_resolve_spec p sd Id) as (Id2 & _ & Hc' & Hn').
  pose proof (num_vertices_dij_resolve p sd) as Hle.
  pose proof (sn_graph _ _ S2) as Hg.
  assert (num_vertices (Bfs.g (bfs_resolve p sb).2)
          = num_vertices (Dijkstra.g (dij_resolve p sd).2)) as Hnum.
  { by rewrite Hg, num_vertices_forget. }
  rewrite bfs_index_exact in Hb; [|done|unfold INT_MAX in Hsz; lia|done..].
  rewrite dij_connected_edge in Hd by done.
  rewrite Ec in Hb. rewrite Hg in Hb at 1. rewrite edge_forget in Hb.
  rewrite <- Hg in Hd.
  assert (same_network (bfs_after_read (dij_resolve p sd).1 (bfs_resolve p sb).2)
            (dij_resolve p sd).2) as S3.
  { destruct S2. by constructor. }
  destruct (edge _ _ _).
  - simplify_eq. eexists _, _, _. split; [reflexivity|]. split; [reflexivity|].
    split_and!; try done; lia.
  - destruct (Bfs.friendship_degree _ _) as [d|]; [|done]. simpl in Hb, Hd. simplify_eq.
    eexists _, _, _. split; [reflexivity|]. split; [reflexivity|].
    split_and!; try done.
    + by apply same_network_update_network.
    + destruct (dij_update_network_spec _ _ Id2 Hc' Hn') as (_ & _ & _ & ->). lia.
Qed.

Lemma same_network_main_loop both_ways tie data : ∀ sb sd ob od,
  same_network sb sd → bfs_inv sb → dij_inv sd →
  (Z.of_nat (num_vertices (Dijkstra.g sd) + 2 * length data) ≤ INT_MAX)%Z →
  Bfs.output1 ob = Dijkstra.output1 od → Bfs.output2 ob = Dijkstra.output2 od →
  Bfs.output3 ob = Dijkstra.output3 od →
  ∃ ob' sb' od' sd',
    Bfs.main_loop data sb ob = Some (ob', sb') ∧
    Dijkstra.main_loop both_ways tie data sd od = Some (od', sd') ∧
    same_network sb' sd' ∧
    Bfs.output1 ob' = Dijkstra.output1 od' ∧ Bfs.output2 ob' = Dijkstra.output2 od' ∧
    Bfs.output3 ob' = Dijkstra.output3 od'.
Proof.
  induction data as [|p data IH]; intros sb sd ob od S Ib Id Hsz O1 O2 O3; simpl in *.
  - by eexists _, _, _, _.
  - destruct (same_network_body both_ways tie p sb sd S Ib Id ltac:(lia))
      as (f & sb' & sd' & -> & -> & S' & Ib' & Id' & Hle). simpl.
    apply IH; try done; [lia|..]; simpl; congruence.
Qed.

(** ** What a search returns *)

Lemma core_degree_of {W} (g : Graph W) s st t :
  search_core g s st → (∀ v, color st !! v ≠ Some Gray) → t < num_vertices g →
  degree_of g s t (dist st !!! t).
Proof.
  intros C Hgray Ht.
  assert (is_Some (color st !! t)) as [c Hc].
  { apply lookup_lt_is_Some. by rewrite (core_len_color _ _ _ C). }
  destruct (decide (c = White)) as [->|Hne].
  - left. split; [by apply C|]. intros [k Hw].
    destruct (core_closed_walk g s st C Hgray k t Hw) as [(c & Hc' & Hne) _]. congruence.
  - right. assert (visited (color st) t) as Hv by (by exists c).
    destruct (core_walk _ _ _ C t Hv) as (k & Hk & Hw).
    pose proof (core_bound _ _ _ C t Hv) as Hb.
    exists k. split_and!; [done| |lia]. split; [done|].
    intros k' Hw'. destruct (core_closed_walk g s st C Hgray k' t Hw') as [_ Hle]. lia.
Qed.

Lemma degree_of_unique {W} (g : Graph W) s t d d' :
  (Z.of_nat (num_vertices g) ≤ INT_MAX)%Z →
  degree_of g s t d → degree_of g s t d' → d = d'.
Proof.
  intros Hsz [[-> Hn]|(k & -> & [Hw Hmin] & Hk)] [[-> Hn']|(k' & -> & [Hw' Hmin'] & Hk')].
  - done.
  - destruct Hn. by exists k'.
  - destruct Hn'. by exists k.
  - apply Hmin in Hw'. apply Hmin' in Hw. f_equal. lia.
Qed.

Lemma bfs_degree_of (g : Graph unit) s t :
  targets_in_range g → (Z.of_nat (num_vertices g) ≤ INT_MAX)%Z →
  s < num_vertices g → t < num_vertices g →
  ∃ d, Bfs.friendship_degree (s, t) g = Some d ∧ degree_of g s t d.
Proof.
  intros Hr Hsz Hs Ht.
  destruct (bfs_friendship_degree_full g s t Hr Hsz Hs Ht) as (stf & O & Hq & ->).
  eexists. split; [done|]. apply core_degree_of; [apply O| |done].
  by apply (outer_no_gray g s).
Qed.

Lemma dijkstra_degree_of both_ways tie (g : Graph Z) s t use_early_stop :
  targets_in_range g → unit_weights g → (Z.of_nat (num_vertices g) ≤ INT_MAX)%Z →
  s < num_vertices g → t < num_vertices g →
  ∃ d, Dijkstra.friendship_degree both_ways tie (s, t) g use_early_stop = Some d ∧
       degree_of g s t d.
Proof.
  intros Hr Hu Hsz Hs Ht.
  destruct (dijkstra_friendship_degree_full g s t both_ways tie Hr Hu Hsz Hs Ht use_early_stop)
    as (stf & O & Hq & ->).
  eexists. split; [done|]. apply core_degree_of; [apply O| |done].
  by apply (dij_no_gray g s).
Qed.

(** ** The registered users are the users of the payments *)

Lemma occurs_cons p data uid :
  occurs (p :: data) uid ↔ (id1 p = uid ∨ id2 p = uid) ∨ occurs data uid.
Proof.
  unfold occurs. split.
  - intros (q & [->|Hq]%elem_of_cons & Hid); [by left|right; by exists q].
  - intros [Hid|(q & Hq & Hid)]; [exists p|exists q]; (split; [set_solver|done]).
Qed.

Lemma bfs_add_user_dom u st uid :
  is_Some (Bfs.users (Bfs.add_user u st).2 !! uid) ↔
  is_Some (Bfs.users st !! uid) ∨ u = uid.
Proof.
  unfold Bfs.add_user. destruct (Bfs.users st !! u) eqn:Hu; cbn [snd].
  - split; [by left|]. intros [?| <-]; [done|by eexists].
  - cbn [add_vertex fst snd Bfs.users]. rewrite (map_insert_new_lookup u) by done.
    rewrite lookup_insert_is_Some. destruct (decide (u = uid)); naive_solver.
Qed.

Lemma dij_add_user_dom u st uid :
  is_Some (Dijkstra.users (Dijkstra.add_user u st).2 !! uid) ↔
  is_Some (Dijkstra.users st !! uid) ∨ u = uid.
Proof.
  unfold Dijkstra.add_user. destruct (Dijkstra.users st !! u) eqn:Hu; cbn [snd].
  - split; [by left|]. intros [?| <-]; [done|by eexists].
  - cbn [add_vertex fst snd Dijkstra.users]. rewrite (map_insert_new_lookup u) by done.
    rewrite lookup_insert_is_Some. destruct (decide (u = uid)); naive_solver.
Qed.

Lemma bfs_resolve_dom p st uid :
  is_Some (Bfs.users (bfs_resolve p st).2 !! uid) ↔
  is_Some (Bfs.users st !! uid) ∨ (id1 p = uid ∨ id2 p = uid).
Proof.
  unfold bfs_resolve.
  pose proof (bfs_add_user_dom (id1 p) st uid) as H1.
  destruct (Bfs.add_user (id1 p) st) as [n1 st1]. cbn [snd] in H1.
  pose proof (bfs_add_user_dom (id2 p) st1 uid) as H2.
  destruct (Bfs.add_user (id2 p) st1) as [n2 st2]. cbn [snd] in *. tauto.
Qed.

Lemma dij_resolve_dom p st uid :
  is_Some (Dijkstra.users (dij_resolve p st).2 !! uid) ↔
  is_Some (Dijkstra.users st !! uid) ∨ (id1 p = uid ∨ id2 p = uid).
Proof.
  unfold dij_resolve.
  pose proof (dij_add_user_dom (id1 p) st uid) as H1.
  destruct (Dijkstra.add_user (id1 p) st) as [n1 st1]. cbn [snd] in H1.
  pose proof (dij_add_user_dom (id2 p) st1 uid) as H2.
  destruct (Dijkstra.add_user (id2 p) st1) as [n2 st2]. cbn [snd] in *. tauto.
Qed.

Lemma bfs_build_dom data : ∀ st uid,
  is_Some (Bfs.users (Bfs.build_paymo_network data st) !! uid) ↔
  is_Some (Bfs.users st !! uid) ∨ occurs data uid.
Proof.
  unfold Bfs.build_paymo_network.
  induction data as [|p data IH]; intros st uid; simpl.
  - split; [by left|]. intros [?|(q & Hq & _)]; [done|]. by apply not_elem_of_nil in Hq.
  - rewrite bfs_bulk_unfold, IH, bfs_update_network_users, bfs_resolve_dom, occurs_cons.
    tauto.
Qed.

Lemma dij_build_dom data : ∀ st uid,
  is_Some (Dijkstra.users (Dijkstra.build_paymo_network data st) !! uid) ↔
  is_Some (Dijkstra.users st !! uid) ∨ occurs data uid.
Proof.
  unfold Dijkstra.build_paymo_network.
  induction data as [|p data IH]; intros st uid; simpl.
  - split; [by left|]. intros [?|(q & Hq & _)]; [done|]. by apply not_elem_of_nil in Hq.
  - rewrite dij_bulk_unfold, IH, dij_update_network_users, dij_resolve_dom, occurs_cons.
    tauto.
Qed.

Lemma bfs_body_dom p st f st' uid :
  Bfs.main_loop_body p st = Some (f, st') →
  is_Some (Bfs.users st' !! uid) ↔
  is_Some (Bfs.users st !! uid) ∨ (id1 p = uid ∨ id2 p = uid).
Proof.
  rewrite bfs_body_unfold. cbv zeta. rewrite <- bfs_resolve_dom.
  destruct (bfs_is_connected _ _).
  - by intros [= <- <-].
  - destruct (Bfs.friendship_degree _ _); [|done]. simpl. intros [= <- <-].
    by rewrite bfs_update_network_users.
Qed.

Lemma bfs_main_loop_dom data : ∀ st out out' st' uid,
  Bfs.main_loop data st out = Some (out', st') →
  is_Some (Bfs.users st' !! uid) ↔ is_Some (Bfs.users st !! uid) ∨ occurs data uid.
Proof.
  induction data as [|p data IH]; intros st out out' st' uid; simpl.
  - intros [= <- <-]. split; [by left|].
    intros [?|(q & Hq & _)]; [done|]. by apply not_elem_of_nil in Hq.
  - destruct (Bfs.main_loop_body p st) as [[f st1]|] eqn:Hb; [|done]. simpl.
    intros Hrun. rewrite (IH _ _ _ _ _ Hrun), (bfs_body_dom _ _ _ _ _ Hb), occurs_cons.
    tauto.
Qed.

Lemma dij_body_dom both_ways tie p st f st' uid :
  Dijkstra.main_loop_body both_ways tie p st = Some (f, st') →
  is_Some (Dijkstra.users st' !! uid) ↔
  is_Some (Dijkstra.users st !! uid) ∨ (id1 p = uid ∨ id2 p = uid).
Proof.
  rewrite dij_body_unfold. cbv zeta. rewrite <- dij_resolve_dom.
  destruct (dij_is_connected _ _).
  - by intros [= <- <-].
  - destruct (Dijkstra.friendship_degree _ _ _ _); [|done]. simpl. intros [= <- <-].
    by rewrite dij_update_network_users.
Qed.

Lemma dij_main_loop_dom both_ways tie data : ∀ st out out' st' uid,
  Dijkstra.main_loop both_ways tie data st out = Some (out', st') →
  is_Some (Dijkstra.users st' !! uid) ↔
  is_Some (Dijkstra.users st !! uid) ∨ occurs data uid.
Proof.
  induction data as [|p data IH]; intros st out out' st' uid; simpl.
  - intros [= <- <-]. split; [by left|].
    intros [?|(q & Hq & _)]; [done|]. by apply not_elem_of_nil in Hq.
  - destruct (Dijkstra.main_loop_body both_ways tie p st) as [[f st1]|] eqn:Hb;
      [|done]. simpl.
    intros Hrun. rewrite (IH _ _ _ _ _ Hrun), (dij_body_dom _ _ _ _ _ _ _ Hb),
      occurs_cons.
    tauto.
Qed.

Lemma occurs_app d1 d2 uid : occurs (d1 ++ d2) uid ↔ occurs d1 uid ∨ occurs d2 uid.
Proof.
  unfold occurs. setoid_rewrite elem_of_app. naive_solver.
Qed.

Lemma users_init_none uid : ¬ is_Some ((∅ : gmap Z nat) !! uid).
Proof. rewrite lookup_empty. by intros [? ?]. Qed.

(** ** The keys of the index, and [add_user] *)

Lemma to_int_small (v : nat) : (Z.of_nat v < 2 ^ 31)%Z → to_int v = Z.of_nat v.
Proof.
  intros Hv. unfold to_int. rewrite wrap_ulong_id by lia. apply wrap_int_id.
  unfold INT_MIN, INT_MAX. lia.
Qed.

Lemma wrap_int_wrap_ulong z : wrap_int (wrap_ulong z) = wrap_int z.
Proof.
  unfold wrap_int, wrap_ulong. f_equal.
  rewrite <- Zplus_mod_idemp_l, Z.mod_mod_divide, Zplus_mod_idemp_l; [done|].
  exists (2 ^ 32)%Z. done.
Qed.

Lemma to_int_period (v : nat) : to_int (v + Z.to_nat (2 ^ 32)) = to_int v.
Proof.
  unfold to_int. rewrite !wrap_int_wrap_ulong, Nat2Z.inj_add, Z2Nat.id by lia.
  unfold wrap_int. f_equal.
  replace (Z.of_nat v + 2 ^ 32 + 2 ^ 31)%Z with (Z.of_nat v + 2 ^ 31 + 1 * 2 ^ 32)%Z by lia.
  apply Z.mod_add. lia.
Qed.

(** X1.  [perfect_hash] on a canonical connection whose vertices are below
    2^31 is [v0 + 2 * v1 * v1], and [2 * v * v + 2 * v] when both ends are the
    vertex [v]: no step of the computation wraps. *)
Theorem X1_friend_key_closed_form (c : Connection) :
  canonical c → (Z.of_nat c.2 < 2 ^ 31)%Z →
  Bfs.friend_key c =
    (if decide (c.1 = c.2) then 2 * Z.of_nat c.2 * Z.of_nat c.2 + 2 * Z.of_nat c.2
     else Z.of_nat c.1 + 2 * Z.of_nat c.2 * Z.of_nat c.2)%Z.
Proof.
  unfold canonical. intros Hc Hn. unfold Bfs.friend_key.
  rewrite !to_int_small by lia.
  rewrite perfect_hash_spec, hash_spec_poly by (unfold is_int, INT_MIN, INT_MAX; lia).
  unfold hash_poly.
  destruct (Z.leb_spec 0 (Z.of_nat c.1)); [|lia].
  destruct (Z.leb_spec 0 (Z.of_nat c.2)); [|lia].
  case_decide as Heq.
  - rewrite Heq. destruct (Z.leb_spec (Z.of_nat c.2) (Z.of_nat c.2)); lia.
  - destruct (Z.leb_spec (Z.of_nat c.2) (Z.of_nat c.1)); lia.
Qed.

Lemma X1_friend_key_closed_form_witness :
  Bfs.friend_key (1, 3) = 19%Z.
Proof.
  rewrite (X1_friend_key_closed_form (1, 3)).
  - reflexivity.
  - unfold canonical. simpl. lia.
  - simpl. lia.
Defined.

(** X2.  Adding 2^32 to either vertex of a connection leaves its key as it is:
    [perfect_hash] takes [int]s, so only the low 32 bits of a vertex
    descriptor reach it. *)
Theorem X2_friend_key_period (c : Connection) :
  Bfs.friend_key (c.1 + Z.to_nat (2 ^ 32), c.2) = Bfs.friend_key c ∧
  Bfs.friend_key (c.1, c.2 + Z.to_nat (2 ^ 32)) = Bfs.friend_key c.
Proof. unfold Bfs.friend_key. cbn [fst snd]. by rewrite !to_int_period. Qed.


(** X3.  [add_user], in both programs. The user is registered under the vertex
    returned, and a second call returns the same and changes nothing; no other
    user loses its vertex; a user already known leaves the state as it is; a
    new user gets the next vertex, which has no out-edge, while the edge list
    and the index of the connections stay as they are. *)
Theorem X3_add_user_registers (uid : UID) :
  (∀ st, let r := Bfs.add_user uid st in
     Bfs.users r.2 !! uid = Some r.1 ∧
     Bfs.add_user uid r.2 = r ∧
     (∀ uid' v, Bfs.users st !! uid' = Some v → Bfs.users r.2 !! uid' = Some v) ∧
     (∀ v, Bfs.users st !! uid = Some v → r = (v, st)) ∧
     (Bfs.users st !! uid = None →
        r.1 = num_vertices (Bfs.g st) ∧
        num_vertices (Bfs.g r.2) = S (num_vertices (Bfs.g st)) ∧
        out_edges (Bfs.g r.2) r.1 = [] ∧
        m_edges (Bfs.g r.2) = m_edges (Bfs.g st) ∧
        Bfs.friends r.2 = Bfs.friends st)) ∧
  (∀ st, let r := Dijkstra.add_user uid st in
     Dijkstra.users r.2 !! uid = Some r.1 ∧
     Dijkstra.add_user uid r.2 = r ∧
     (∀ uid' v, Dijkstra.users st !! uid' = Some v →
        Dijkstra.users r.2 !! uid' = Some v) ∧
     (∀ v, Dijkstra.users st !! uid = Some v → r = (v, st)) ∧
     (Dijkstra.users st !! uid = None →
        r.1 = num_vertices (Dijkstra.g st) ∧
        num_vertices (Dijkstra.g r.2) = S (num_vertices (Dijkstra.g st)) ∧
        out_edges (Dijkstra.g r.2) r.1 = [] ∧
        m_edges (Dijkstra.g r.2) = m_edges (Dijkstra.g st) ∧
        Dijkstra.connections r.2 = Dijkstra.connections st)).
Proof.
  split; intros st r; subst r.
  - pose proof (bfs_add_user_lookup uid st) as Hl. split_and!.
    + done.
    + rewrite (bfs_add_user_found _ _ _ Hl). by destruct (Bfs.add_user uid st).
    + intros uid' v. apply bfs_add_user_keeps.
    + intros v. apply bfs_add_user_found.
    + intros Hn. unfold Bfs.add_user. rewrite Hn.
      cbn [add_vertex fst snd Bfs.g Bfs.friends m_edges].
      split_and!; try done.
      * unfold num_vertices. cbn [m_vertices]. rewrite length_app. simpl. lia.
      * unfold out_edges, num_vertices. cbn [m_vertices].
        by rewrite lookup_app_r, Nat.sub_diag by done.
  - pose proof (dij_add_user_lookup uid st) as Hl. split_and!.
    + done.
    + rewrite (dij_add_user_found _ _ _ Hl). by destruct (Dijkstra.add_user uid st).
    + intros uid' v. apply dij_add_user_keeps.
    + intros v. apply dij_add_user_found.
    + intros Hn. unfold Dijkstra.add_user. rewrite Hn.
      cbn [add_vertex fst snd Dijkstra.g Dijkstra.connections m_edges].
      split_and!; try done.
      * unfold num_vertices. cbn [m_vertices]. rewrite length_app. simpl. lia.
      * unfold out_edges, num_vertices. cbn [m_vertices].
        by rewrite lookup_app_r, Nat.sub_diag by done.
Qed.

(** ** The edges are the pairs of the payments *)

Lemma edge_sym {W} (g : Graph W) u v : graph_ok g → edge u v g = edge v u g.
Proof.
  intros [_ He]. apply eq_true_iff_eq. rewrite !edge_adjacent, !He.
  unfold linked. split; intros [w Hw]; exists w; tauto.
Qed.

Lemma bfs_update_network_edge c st x y :
  graph_ok (Bfs.g st) →
  c.1 < num_vertices (Bfs.g st) → c.2 < num_vertices (Bfs.g st) →
  edge x y (Bfs.g (Bfs.update_network c st)) =
    edge x y (Bfs.g st) || bool_decide (x = c.1 ∧ y = c.2 ∨ x = c.2 ∧ y = c.1).
Proof.
  intros Hg H1 H2. unfold Bfs.update_network.
  destruct (edge c.1 c.2 (Bfs.g st)) eqn:He; cbn [negb Bfs.g].
  - destruct (edge x y (Bfs.g st)) eqn:Hxy; [done|]. simpl. symmetry.
    apply bool_decide_eq_false. intros [[-> ->]|[-> ->]]; [congruence|].
    rewrite (edge_sym _ _ _ Hg) in Hxy. congruence.
  - by apply edge_add_edge.
Qed.

Lemma bfs_step_joined p st a b :
  bfs_inv st → bfs_registry_ok st →
  bfs_joined (Bfs.update_network (bfs_resolve p st).1 (bfs_resolve p st).2) a b ↔
  bfs_joined st a b ∨ pays p a b.
Proof.
  intros I R.
  destruct (bfs_resolve_spec p st I) as (I2 & E2 & Hc & Hn).
  destruct (bfs_registry_ok_resolve p st R) as (R2 & H1 & H2).
  destruct (bfs_resolve_users p st) as (n1 & n2 & Ec & U1 & U2).
  pose proof (binv_graph _ I2) as Hg2.
  assert (Hedge2 : ∀ x y, edge x y (Bfs.g (bfs_resolve p st).2) = edge x y (Bfs.g st)).
  { intros x y. unfold bfs_resolve.
    pose proof (bfs_add_user_spec (id1 p) st I) as (I1 & _ & _ & _ & _ & He1).
    destruct (Bfs.add_user (id1 p) st) as [m1 st1]. cbn [fst snd] in *.
    pose proof (bfs_add_user_spec (id2 p) st1 I1) as (_ & _ & _ & _ & _ & He2).
    destruct (Bfs.add_user (id2 p) st1) as [m2 st2]. cbn [fst snd] in *.
    by rewrite He2, He1. }
  unfold bfs_joined. setoid_rewrite bfs_update_network_users.
  setoid_rewrite (bfs_update_network_edge _ _ _ _ Hg2 H1 H2).
  setoid_rewrite orb_true_iff. setoid_rewrite bool_decide_eq_true.
  assert (Hpair : ∀ x y, (x = (bfs_resolve p st).1.1 ∧ y = (bfs_resolve p st).1.2 ∨
                          x = (bfs_resolve p st).1.2 ∧ y = (bfs_resolve p st).1.1) ↔
                         (x = n1 ∧ y = n2 ∨ x = n2 ∧ y = n1)).
  { intros x y. rewrite Ec.
    destruct (create_connection_elem n1 n2) as [[-> ->]|[-> ->]]; tauto. }
  setoid_rewrite Hpair. split.
  - intros (va & vb & Ua & Ub & [He|Hp]).
    + left. rewrite Hedge2 in He.
      assert (Hold : ∀ u v, Bfs.users (bfs_resolve p st).2 !! u = Some v →
                v < num_vertices (Bfs.g st) → Bfs.users st !! u = Some v).
      { intros u v Hu Hv. apply (reg_dense _ _ _ R) in Hv as [u' Hu'].
        apply (reg_inverse _ _ _ R) in Hu'. pose proof (bext_users _ _ E2 _ _ Hu') as Hu2.
        by rewrite (registry_ok_inj _ _ _ u u' v R2 Hu Hu2). }
      pose proof He as Hadj%edge_adjacent.
      exists va, vb. split_and!; [apply Hold; [done|]..|done].
      * by eapply adjacent_lt.
      * by eapply (ok_range _ (binv_graph _ I)).
    + right. unfold pays.
      destruct Hp as [[-> ->]|[-> ->]]; [left|right]; split;
        by eapply (registry_ok_inj _ _ _ _ _ _ R2).
  - intros [(va & vb & Ua & Ub & He)|Hp].
    + exists va, vb. split_and!; [by apply (bext_users _ _ E2)..|].
      left. by rewrite Hedge2.
    + destruct Hp as [[<- <-]|[<- <-]].
      * exists n1, n2. split_and!; [done..|]. right. tauto.
      * exists n2, n1. split_and!; [done..|]. right. tauto.
Qed.

Lemma bfs_build_joined data : ∀ st a b,
  bfs_inv st → bfs_registry_ok st →
  bfs_joined (Bfs.build_paymo_network data st) a b ↔
  bfs_joined st a b ∨ ∃ p, p ∈ data ∧ pays p a b.
Proof.
  unfold Bfs.build_paymo_network.
  induction data as [|p data IH]; intros st a b I R; simpl.
  - split; [by left|]. intros [?|(p & Hp & _)]; [done|]. by apply not_elem_of_nil in Hp.
  - rewrite bfs_bulk_unfold.
    destruct (bfs_bulk_step_spec p st I) as [I' _].
    destruct (bfs_registry_ok_resolve p st R) as (R2 & H1 & H2).
    pose proof (bfs_registry_ok_update_network _ _ H1 H2 R2) as R'.
    rewrite (IH _ a b I' R'), (bfs_step_joined p st a b I R).
    split.
    + intros [[?|?]|(q & Hq & ?)]; [by left|right; exists p|right; exists q];
        (split; [set_solver|done]).
    + intros [?|(q & [->|Hq]%elem_of_cons & ?)]; [by left; left|by left; right|].
      right. by exists q.
Qed.

(** ** The live loop against the bulk load *)

Lemma bfs_registry_ok_init : bfs_registry_ok Bfs.init.
Proof. apply registry_ok_empty. Qed.

Lemma dij_registry_ok_init : dij_registry_ok Dijkstra.init.
Proof. apply registry_ok_empty. Qed.

Lemma same_network_joined sb sd a b :
  same_network sb sd → bfs_joined sb a b ↔ dij_joined sd a b.
Proof.
  intros [Hu Hn Hg]. unfold bfs_joined, dij_joined. rewrite Hu, Hg.
  by setoid_rewrite edge_forget.
Qed.

(** The live loop of [fraud-alert.cpp] leaves the bulk-loaded network. *)
Lemma dij_body_state both_ways tie p st :
  dij_inv st →
  ∃ f, Dijkstra.main_loop_body both_ways tie p st =
         Some (f, Dijkstra.update_network (dij_resolve p st).1 (dij_resolve p st).2).
Proof.
  intros I. rewrite dij_body_unfold. cbv zeta.
  destruct (dij_resolve_spec p st I) as (I2 & _ & Hc & Hn).
  destruct (dij_is_connected _ _) eqn:Hcon.
  - exists 1%Z. do 2 f_equal. rewrite dij_connected_edge in Hcon by done.
    unfold Dijkstra.update_network. by rewrite Hcon.
  - destruct (dijkstra_friendship_degree_total (Dijkstra.g (dij_resolve p st).2)
                both_ways tie (dij_resolve p st).1 true) as [f ->]; [apply I2|done|].
    by exists f.
Qed.

Lemma dij_main_loop_state both_ways tie data : ∀ st out,
  dij_inv st →
  ∃ out', Dijkstra.main_loop both_ways tie data st out =
            Some (out', Dijkstra.build_paymo_network data st).
Proof.
  unfold Dijkstra.build_paymo_network.
  induction data as [|p data IH]; intros st out I; simpl.
  - by eexists.
  - destruct (dij_body_state both_ways tie p st I) as [f Hf].
    destruct (dij_body_spec both_ways tie p st I) as (f' & st' & Hrun & I' & _).
    rewrite Hf in Hrun. simplify_eq. rewrite Hf. simpl.
    rewrite dij_bulk_unfold. by apply IH.
Qed.

(** The same for [fraud-alert-bfs.cpp], up to the entries that hold [false]. *)
Lemma same_answers_refl st : same_answers st st.
Proof. by constructor. Qed.

Lemma same_answers_add_user uid st st' :
  same_answers st st' →
  (Bfs.add_user uid st).1 = (Bfs.add_user uid st').1 ∧
  same_answers (Bfs.add_user uid st).2 (Bfs.add_user uid st').2.
Proof.
  intros [Hu Hn Hg Hf]. unfold Bfs.add_user. rewrite Hu, Hn, Hg.
  destruct (Bfs.users st' !! uid); cbn [fst snd add_vertex]; [by split|].
  split; [done|]. by constructor.
Qed.

Lemma same_answers_resolve p st st' :
  same_answers st st' →
  (bfs_resolve p st).1 = (bfs_resolve p st').1 ∧
  same_answers (bfs_resolve p st).2 (bfs_resolve p st').2.
Proof.
  intros S. unfold bfs_resolve.
  destruct (same_answers_add_user (id1 p) st st' S) as [E1 S1].
  destruct (Bfs.add_user (id1 p) st) as [n1 s1], (Bfs.add_user (id1 p) st') as [m1 s1'].
  cbn [fst snd] in *.
  destruct (same_answers_add_user (id2 p) s1 s1' S1) as [E2 S2].
  destruct (Bfs.add_user (id2 p) s1) as [n2 s2], (Bfs.add_user (id2 p) s1') as [m2 s2'].
  cbn [fst snd] in *. by subst.
Qed.

Lemma same_answers_update_network c st st' :
  same_answers st st' →
  same_answers (Bfs.update_network c st) (Bfs.update_network c st').
Proof.
  intros [Hu Hn Hg Hf]. unfold Bfs.update_network. rewrite Hg.
  destruct (negb _); [|by constructor].
  constructor; cbn [Bfs.users Bfs.nodes Bfs.g Bfs.friends]; try done.
  intros k. rewrite !lookup_insert. by case_decide.
Qed.

Lemma same_answers_build data : ∀ st st',
  same_answers st st' →
  same_answers (Bfs.build_paymo_network data st) (Bfs.build_paymo_network data st').
Proof.
  unfold Bfs.build_paymo_network.
  induction data as [|p data IH]; intros st st' S; simpl; [done|].
  rewrite !bfs_bulk_unfold. apply IH.
  destruct (same_answers_resolve p st st' S) as [-> S2].
  by apply same_answers_update_network.
Qed.

Lemma same_answers_trans st1 st2 st3 :
  same_answers st1 st2 → same_answers st2 st3 → same_answers st1 st3.
Proof. intros [] []. constructor; congruence. Qed.

Lemma same_answers_after_read c st : same_answers (bfs_after_read c st) st.
Proof.
  constructor; try done. intros k. unfold bfs_after_read. cbn [Bfs.friends].
  apply friends_index_frame.
Qed.

Lemma bfs_body_state p st :
  bfs_inv st → (Z.of_nat (num_vertices (Bfs.g (bfs_resolve p st).2)) ≤ 2 ^ 32)%Z →
  ∃ f st', Bfs.main_loop_body p st = Some (f, st') ∧
    same_answers st' (Bfs.update_network (bfs_resolve p st).1 (bfs_resolve p st).2).
Proof.
  intros I Hsz. rewrite bfs_body_unfold. cbv zeta.
  destruct (bfs_resolve_spec p st I) as (I2 & _ & Hc & Hn).
  destruct (bfs_is_connected _ _) eqn:Hcon.
  - eexists _, _. split; [done|]. rewrite bfs_index_exact in Hcon by done.
    unfold Bfs.update_network at 1. rewrite Hcon. cbn [negb].
    apply same_answers_after_read.
  - destruct (bfs_friendship_degree_total (Bfs.g (bfs_resolve p st).2)
                (bfs_resolve p st).1 Hn) as [f ->]. simpl.
    eexists _, _. split; [done|]. apply same_answers_update_network.
    apply same_answers_after_read.
Qed.

Lemma bfs_main_loop_state data : ∀ st out,
  Forall int_payment data → bfs_inv st → bfs_registry st →
  ∃ out' st', Bfs.main_loop data st out = Some (out', st') ∧
              same_answers st' (Bfs.build_paymo_network data st).
Proof.
  induction data as [|p data IH]; intros st out Hd I R; simpl.
  - eexists _, _. split; [done|]. apply same_answers_refl.
  - apply Forall_cons in Hd as [Hp Hd].
    pose proof (bfs_registry_bound _ (bfs_registry_resolve p st Hp R)) as Hsz.
    destruct (bfs_body_state p st I Hsz) as (f & st1 & Hrun & S1).
    destruct (bfs_body_spec p st I) as (f' & st1' & Hrun' & I1 & _).
    rewrite Hrun in Hrun'. simplify_eq.
    pose proof (bfs_registry_body p st f' st1' Hp I R Hrun) as R1.
    rewrite Hrun. simpl.
    destruct (IH st1' (Bfs.write_verdicts f' out) Hd I1 R1) as (out' & st' & -> & S').
    eexists _, _. split; [done|].
    eapply same_answers_trans; [exact S'|].
    unfold Bfs.build_paymo_network at 2. simpl. rewrite bfs_bulk_unfold.
    by apply same_answers_build.
Qed.


(** X5.  [main] of [fraud-alert-bfs.cpp] on payments whose ids are [int]s ends
    with the registry and the graph [build_paymo_network] builds from the
    batch payments followed by the stream payments; [friends] differs at most
    in keys that hold [false], which the reads of the loop insert. *)
Theorem X5_bfs_stream_as_bulk_load (batch stream : data_t) :
  Forall int_payment batch → Forall int_payment stream →
  ∃ out st, Bfs.main batch stream = Some (out, st) ∧
            same_answers st (Bfs.build_paymo_network (batch ++ stream) Bfs.init).
Proof.
  intros Hb Hs. unfold Bfs.main.
  destruct (bfs_build_spec batch Bfs.init bfs_init_inv) as [I _].
  pose proof (bfs_registry_build batch Bfs.init Hb bfs_init_inv bfs_registry_init) as R.
  destruct (bfs_main_loop_state stream _ (Bfs.mk_output [] [] []) Hs I R)
    as (out & st & -> & S).
  exists out, st. split; [done|].
  unfold Bfs.build_paymo_network in *. by rewrite foldl_app.
Qed.

Lemma X5_bfs_stream_as_bulk_load_witness :
  ∃ out st, Bfs.main batch3 [pay 1 3; pay 3 1] = Some (out, st) ∧
    same_answers st (Bfs.build_paymo_network (batch3 ++ [pay 1 3; pay 3 1]) Bfs.init).
Proof.
  apply (X5_bfs_stream_as_bulk_load batch3 [pay 1 3; pay 3 1]);
    repeat constructor; simpl; unfold INT_MIN, INT_MAX; lia.
Defined.

(** ** The network after a run *)

Lemma dij_build_vertices data : ∀ st,
  dij_inv st →
  num_vertices (Dijkstra.g (Dijkstra.build_paymo_network data st))
    ≤ num_vertices (Dijkstra.g st) + 2 * length data.
Proof.
  unfold Dijkstra.build_paymo_network.
  induction data as [|p data IH]; intros st I; simpl; [lia|].
  rewrite dij_bulk_unfold.
  destruct (dij_resolve_spec p st I) as (I2 & _ & Hc & Hn).
  destruct (dij_update_network_spec _ _ I2 Hc Hn) as (I3 & _ & _ & Hnum).
  pose proof (num_vertices_dij_resolve p st) as Hle.
  pose proof (IH _ I3) as Hle'. lia.
Qed.

(** X6.  After a run of either program [users] and [nodes] are inverse to each
    other, the registered vertices are exactly the vertices of the graph,
    there are as many users as vertices, and the registered users are exactly
    the ids that pay or are paid in the batch or stream payments. *)
Theorem X6_registry_one_to_one
    (both_ways : bool) (tie : nat → nat) (batch stream : data_t) :
  (∃ out st, Bfs.main batch stream = Some (out, st) ∧
     registry_ok (Bfs.users st) (Bfs.nodes st) (num_vertices (Bfs.g st)) ∧
     ∀ uid, is_Some (Bfs.users st !! uid) ↔ occurs (batch ++ stream) uid) ∧
  (∃ out st, Dijkstra.main both_ways tie batch stream = Some (out, st) ∧
     registry_ok (Dijkstra.users st) (Dijkstra.nodes st)
       (num_vertices (Dijkstra.g st)) ∧
     ∀ uid, is_Some (Dijkstra.users st !! uid) ↔ occurs (batch ++ stream) uid).
Proof.
  split.
  - destruct (bfs_main_spec batch stream) as (out & st & Hrun & _).
    exists out, st. split; [done|]. unfold Bfs.main in Hrun. split.
    + eapply bfs_registry_ok_main_loop; [|exact Hrun].
      apply bfs_registry_ok_build, bfs_registry_ok_init.
    + intros uid. rewrite (bfs_main_loop_dom _ _ _ _ _ uid Hrun), bfs_build_dom,
        occurs_app.
      pose proof (users_init_none uid). simpl. tauto.
  - destruct (dij_main_spec both_ways tie batch stream) as (out & st & Hrun & _).
    exists out, st. split; [done|]. unfold Dijkstra.main in Hrun. split.
    + eapply dij_registry_ok_main_loop; [|exact Hrun].
      apply dij_registry_ok_build, dij_registry_ok_init.
    + intros uid. rewrite (dij_main_loop_dom _ _ _ _ _ _ _ uid Hrun), dij_build_dom,
        occurs_app.
      pose proof (users_init_none uid). simpl. tauto.
Qed.

(** X7.  In the network [build_paymo_network] builds from nothing, two users
    are joined by an edge exactly when some payment of the data is between
    them, in either direction (a payment of a user to itself joins it to
    itself). *)
Theorem X7_edges_are_payment_pairs (data : data_t) (a b : UID) :
  (bfs_joined (Bfs.build_paymo_network data Bfs.init) a b ↔
     ∃ p, p ∈ data ∧ pays p a b) ∧
  (dij_joined (Dijkstra.build_paymo_network data Dijkstra.init) a b ↔
     ∃ p, p ∈ data ∧ pays p a b).
Proof.
  assert (bfs_joined (Bfs.build_paymo_network data Bfs.init) a b ↔
          ∃ p, p ∈ data ∧ pays p a b) as Hb.
  { rewrite bfs_build_joined by (apply bfs_init_inv || apply bfs_registry_ok_init).
    split; [|by right]. intros [(va & vb & Ha & _)|?]; [|done].
    simpl in Ha. by rewrite lookup_empty in Ha. }
  split; [done|]. rewrite <- Hb. symmetry.
  apply same_network_joined, same_network_build, same_network_init.
Qed.

Lemma main_same_outputs (both_ways : bool) (tie : nat → nat) (batch stream : data_t) :
  (2 * (Z.of_nat (length batch) + Z.of_nat (length stream)) ≤ INT_MAX)%Z →
  ∃ ob sb od sd,
    Bfs.main batch stream = Some (ob, sb) ∧
    Dijkstra.main both_ways tie batch stream = Some (od, sd) ∧
    Bfs.output1 ob = Dijkstra.output1 od ∧
    Bfs.output2 ob = Dijkstra.output2 od ∧
    Bfs.output3 ob = Dijkstra.output3 od ∧
    same_network sb sd.
Proof.
  intros Hsz. unfold Bfs.main, Dijkstra.main.
  destruct (bfs_build_spec batch Bfs.init bfs_init_inv) as [Ib _].
  destruct (dij_build_spec batch Dijkstra.init dij_init_inv) as [Id _].
  pose proof (same_network_build batch _ _ same_network_init) as S.
  pose proof (dij_build_vertices batch Dijkstra.init dij_init_inv) as Hn.
  change (num_vertices (Dijkstra.g Dijkstra.init)) with 0 in Hn.
  destruct (same_network_main_loop both_ways tie stream _ _
              (Bfs.mk_output [] [] []) (Dijkstra.mk_output [] [] []) S Ib Id)
    as (ob & sb & od & sd & -> & -> & S' & O1 & O2 & O3); try done; [lia|].
  by exists ob, sb, od, sd.
Qed.

(** X8.  When twice the number of payments fits an [int], the two programs
    write the same three lists of verdicts and end with the same registry and
    the same graph, weights apart, whichever relaxation Boost's Dijkstra uses
    and however it breaks ties. *)
Theorem X8_two_programs_same_outputs
    (both_ways : bool) (tie : nat → nat) (batch stream : data_t) :
  (2 * (Z.of_nat (length batch) + Z.of_nat (length stream)) ≤ INT_MAX)%Z →
  ∃ ob sb od sd,
    Bfs.main batch stream = Some (ob, sb) ∧
    Dijkstra.main both_ways tie batch stream = Some (od, sd) ∧
    Bfs.output1 ob = Dijkstra.output1 od ∧
    Bfs.output2 ob = Dijkstra.output2 od ∧
    Bfs.output3 ob = Dijkstra.output3 od ∧
    same_network sb sd.
Proof. apply main_same_outputs. Qed.

Lemma X8_two_programs_same_outputs_witness :
  ∃ ob sb od sd,
    Bfs.main batch3 [pay 1 3; pay 1 4; pay 1 5] = Some (ob, sb) ∧
    Dijkstra.main true (λ _, 0) batch3 [pay 1 3; pay 1 4; pay 1 5] = Some (od, sd) ∧
    Bfs.output1 ob = Dijkstra.output1 od ∧
    Bfs.output2 ob = Dijkstra.output2 od ∧
    Bfs.output3 ob = Dijkstra.output3 od ∧
    same_network sb sd.
Proof.
  apply (X8_two_programs_same_outputs true (λ _, 0) batch3 [pay 1 3; pay 1 4; pay 1 5]).
  simpl. unfold INT_MAX. lia.
Defined.

(** ** Degrees and verdicts *)

Lemma verdict_trusted th f : verdict th f = "Trusted" ↔ (f ≤ th)%Z.
Proof. unfold verdict. destruct (Z.ltb_spec th f); split; (done || lia). Qed.

Lemma adjacent_sym {W} (g : Graph W) u v : graph_ok g → adjacent g u v → adjacent g v u.
Proof.
  intros [_ He]. rewrite !He. unfold linked. intros [w Hw]. exists w. tauto.
Qed.

Lemma walk_cons {W} (g : Graph W) s u k t :
  adjacent g s u → walk g u k t → walk g s (S k) t.
Proof.
  intros Hadj Hw. induction Hw as [|k x y Hw IH Hxy].
  - eapply walk_step; [constructor|done].
  - eapply walk_step; [exact IH|done].
Qed.

Lemma walk_rev {W} (g : Graph W) s k t : graph_ok g → walk g s k t → walk g t k s.
Proof.
  intros Hg Hw. induction Hw as [|k u v Hw IH Hadj]; [constructor|].
  eapply walk_cons; [|exact IH]. by apply adjacent_sym.
Qed.

Lemma degree_of_sym {W} (g : Graph W) s t d :
  graph_ok g → degree_of g s t d → degree_of g t s d.
Proof.
  intros Hg [[-> Hn]|(k & -> & [Hw Hmin] & Hk)].
  - left. split; [done|]. intros [k Hw]. apply Hn. exists k. by apply walk_rev.
  - right. exists k. split_and!; [done| |done]. split; [by apply walk_rev|].
    intros k' Hw'. apply Hmin. by apply walk_rev.
Qed.

Lemma degree_of_mono {W1 W2} (g : Graph W1) (g' : Graph W2) s t d d' :
  (∀ u v, adjacent g u v → adjacent g' u v) →
  (Z.of_nat (num_vertices g') ≤ INT_MAX)%Z →
  degree_of g s t d → degree_of g' s t d' → (d' ≤ d)%Z.
Proof.
  intros Hadj Hsz Hd Hd'.
  assert (Hw : ∀ k v, walk g s k v → walk g' s k v).
  { induction 1 as [|k u v Hw IH Huv]; [constructor|].
    eapply walk_step; [exact IH|by apply Hadj]. }
  destruct Hd as [[-> Hn]|(k & -> & [Hk Hmin] & _)].
  - destruct Hd' as [[-> _]|(k' & -> & _ & Hk')]; lia.
  - destruct Hd' as [[-> Hn']|(k' & -> & [Hk' Hmin'] & _)].
    + destruct Hn'. exists k. by apply Hw.
    + apply Hw, Hmin' in Hk. lia.
Qed.

Lemma degree_of_range {W} (g : Graph W) s t d :
  degree_of g s t d → d = INT_MAX ∨ (0 ≤ d < Z.of_nat (num_vertices g))%Z.
Proof. intros [[-> _]|(k & -> & _ & Hk)]; [by left|right; lia]. Qed.

(** X9.  On a graph of at most INT_MAX vertices whose out-edges stay within
    the graph (and weigh 1 in [fraud-alert.cpp]), [friendship_degree] returns
    for two of its vertices either INT_MAX or a value from 0 to the number of
    vertices minus one, with or without the early stop. *)
Theorem X9_friendship_degree_range
    (both_ways : bool) (tie : nat → nat) (use_early_stop : bool) (s t : Vertex) :
  (∀ g : Graph unit,
     targets_in_range g → (Z.of_nat (num_vertices g) ≤ INT_MAX)%Z →
     s < num_vertices g → t < num_vertices g →
     ∃ d, Bfs.friendship_degree (s, t) g = Some d ∧
          (d = INT_MAX ∨ (0 ≤ d < Z.of_nat (num_vertices g))%Z)) ∧
  (∀ g : Graph Z,
     targets_in_range g → unit_weights g → (Z.of_nat (num_vertices g) ≤ INT_MAX)%Z →
     s < num_vertices g → t < num_vertices g →
     ∃ d, Dijkstra.friendship_degree both_ways tie (s, t) g use_early_stop = Some d ∧
          (d = INT_MAX ∨ (0 ≤ d < Z.of_nat (num_vertices g))%Z)).
Proof.
  split.
  - intros g Hr Hsz Hs Ht. destruct (bfs_degree_of g s t Hr Hsz Hs Ht) as (d & -> & Hd).
    exists d. split; [done|]. by eapply degree_of_range.
  - intros g Hr Hu Hsz Hs Ht.
    destruct (dijkstra_degree_of both_ways tie g s t use_early_stop Hr Hu Hsz Hs Ht)
      as (d & -> & Hd).
    exists d. split; [done|]. by eapply degree_of_range.
Qed.

Lemma X9_friendship_degree_range_witness :
  ∃ d, Bfs.friendship_degree (0, 3) (Bfs.g bfs_history) = Some d ∧
       (d = INT_MAX ∨ (0 ≤ d < Z.of_nat (num_vertices (Bfs.g bfs_history)))%Z).
Proof.
  destruct (X9_friendship_degree_range true (λ _, 0) true 0 3) as [HB _].
  apply (HB (Bfs.g bfs_history)).
  - apply bfs_history_inv.
  - vm_compute. discriminate.
  - vm_compute. lia.
  - vm_compute. lia.
Defined.

(** X10.  On a well-formed graph of at most INT_MAX vertices (unit weights in
    [fraud-alert.cpp]) the degree from [s] to [t] is the degree from [t] to
    [s]. *)
Theorem X10_friendship_degree_symmetric
    (both_ways : bool) (tie : nat → nat) (s t : Vertex) :
  (∀ g : Graph unit,
     graph_ok g → (Z.of_nat (num_vertices g) ≤ INT_MAX)%Z →
     s < num_vertices g → t < num_vertices g →
     Bfs.friendship_degree (s, t) g = Bfs.friendship_degree (t, s) g) ∧
  (∀ g : Graph Z,
     graph_ok g → unit_weights g → (Z.of_nat (num_vertices g) ≤ INT_MAX)%Z →
     s < num_vertices g → t < num_vertices g →
     Dijkstra.friendship_degree both_ways tie (s, t) g true
       = Dijkstra.friendship_degree both_ways tie (t, s) g true).
Proof.
  split.
  - intros g Hg Hsz Hs Ht. pose proof (ok_range _ Hg) as Hr.
    destruct (bfs_degree_of g s t Hr Hsz Hs Ht) as (d & -> & Hd).
    destruct (bfs_degree_of g t s Hr Hsz Ht Hs) as (d' & -> & Hd').
    f_equal. apply (degree_of_unique g t s); [done| |done]. by apply degree_of_sym.
  - intros g Hg Hu Hsz Hs Ht. pose proof (ok_range _ Hg) as Hr.
    destruct (dijkstra_degree_of both_ways tie g s t true Hr Hu Hsz Hs Ht) as (d & -> & Hd).
    destruct (dijkstra_degree_of both_ways tie g t s true Hr Hu Hsz Ht Hs)
      as (d' & -> & Hd').
    f_equal. apply (degree_of_unique g t s); [done| |done]. by apply degree_of_sym.
Qed.

Lemma X10_friendship_degree_symmetric_witness :
  Bfs.friendship_degree (0, 3) (Bfs.g bfs_history)
    = Bfs.friendship_degree (3, 0) (Bfs.g bfs_history).
Proof.
  destruct (X10_friendship_degree_symmetric true (λ _, 0) 0 3) as [HB _].
  apply (HB (Bfs.g bfs_history)).
  - apply bfs_history_inv.
  - vm_compute. discriminate.
  - vm_compute. lia.
  - vm_compute. lia.
Defined.

(** X11.  [friendship_degree] of [fraud-alert.cpp] returns the same value with
    and without the early stop visitor, on a graph of at most INT_MAX vertices
    with unit weights whose out-edges stay within the graph. *)
Theorem X11_early_stop_same_result
    (both_ways : bool) (tie : nat → nat) (g : Graph Z) (c : Connection) :
  targets_in_range g → unit_weights g → (Z.of_nat (num_vertices g) ≤ INT_MAX)%Z →
  c.1 < num_vertices g → c.2 < num_vertices g →
  Dijkstra.friendship_degree both_ways tie c g true
    = Dijkstra.friendship_degree both_ways tie c g false.
Proof.
  intros Hr Hu Hsz Hs Ht. rewrite (surjective_pairing c).
  destruct (dijkstra_degree_of both_ways tie g c.1 c.2 true Hr Hu Hsz Hs Ht)
    as (d & -> & Hd).
  destruct (dijkstra_degree_of both_ways tie g c.1 c.2 false Hr Hu Hsz Hs Ht)
    as (d' & -> & Hd').
  f_equal. by apply (degree_of_unique g c.1 c.2).
Qed.

Lemma X11_early_stop_same_result_witness :
  Dijkstra.friendship_degree true (λ _, 0) (0, 3) (Dijkstra.g dij_history) true
    = Dijkstra.friendship_degree true (λ _, 0) (0, 3) (Dijkstra.g dij_history) false.
Proof.
  apply (X11_early_stop_same_result true (λ _, 0) (Dijkstra.g dij_history) (0, 3)).
  - apply dij_history_inv.
  - apply dij_history_inv.
  - vm_compute. discriminate.
  - vm_compute. lia.
  - vm_compute. lia.
Defined.

Lemma bfs_extends_adjacent st st' u v :
  bfs_extends st st' → adjacent (Bfs.g st) u v → adjacent (Bfs.g st') u v.
Proof. intros E. rewrite <- !edge_adjacent. apply (bext_edges _ _ E). Qed.

Lemma dij_extends_adjacent st st' u v :
  dij_extends st st' → adjacent (Dijkstra.g st) u v → adjacent (Dijkstra.g st') u v.
Proof. intros E. rewrite <- !edge_adjacent. apply (dext_edges _ _ E). Qed.

(** X12.  The main loop never moves two users apart: for two vertices of the
    graph before the loop, the degree found after any number of rounds is at
    most the degree found before. *)
Theorem X12_later_degrees_are_smaller
    (both_ways : bool) (tie : nat → nat) (data : data_t) (c : Connection) :
  (∀ st out out' st',
     bfs_inv st → Bfs.main_loop data st out = Some (out', st') →
     (Z.of_nat (num_vertices (Bfs.g st')) ≤ INT_MAX)%Z →
     c.1 < num_vertices (Bfs.g st) → c.2 < num_vertices (Bfs.g st) →
     ∃ d d', Bfs.friendship_degree c (Bfs.g st) = Some d ∧
             Bfs.friendship_degree c (Bfs.g st') = Some d' ∧ (d' ≤ d)%Z) ∧
  (∀ st out out' st',
     dij_inv st → Dijkstra.main_loop both_ways tie data st out = Some (out', st') →
     (Z.of_nat (num_vertices (Dijkstra.g st')) ≤ INT_MAX)%Z →
     c.1 < num_vertices (Dijkstra.g st) → c.2 < num_vertices (Dijkstra.g st) →
     ∃ d d', Dijkstra.friendship_degree both_ways tie c (Dijkstra.g st) true = Some d ∧
             Dijkstra.friendship_degree both_ways tie c (Dijkstra.g st') true = Some d' ∧
             (d' ≤ d)%Z).
Proof.
  rewrite (surjective_pairing c). cbn [fst snd]. split.
  - intros st out out' st' I Hrun Hsz H1 H2.
    destruct (bfs_main_loop_spec data st out I) as (o & s' & Hrun' & I' & E).
    rewrite Hrun in Hrun'. simplify_eq.
    pose proof (bext_vertices _ _ E) as Hle.
    destruct (bfs_degree_of (Bfs.g st) c.1 c.2) as (d & -> & Hd);
      [apply I|lia|done..|].
    destruct (bfs_degree_of (Bfs.g s') c.1 c.2) as (d' & -> & Hd');
      [apply I'|lia|lia..|].
    exists d, d'. split_and!; [done..|].
    eapply degree_of_mono; [|done|exact Hd|exact Hd'].
    intros u v. by apply bfs_extends_adjacent.
  - intros st out out' st' I Hrun Hsz H1 H2.
    destruct (dij_main_loop_spec both_ways tie data st out I) as (o & s' & Hrun' & I' & E).
    rewrite Hrun in Hrun'. simplify_eq.
    pose proof (dext_vertices _ _ E) as Hle.
    destruct (dijkstra_degree_of both_ways tie (Dijkstra.g st) c.1 c.2 true)
      as (d & -> & Hd); [apply I|apply I|lia|done..|].
    destruct (dijkstra_degree_of both_ways tie (Dijkstra.g s') c.1 c.2 true)
      as (d' & -> & Hd'); [apply I'|apply I'|lia|lia..|].
    exists d, d'. split_and!; [done..|].
    eapply degree_of_mono; [|done|exact Hd|exact Hd'].
    intros u v. by apply dij_extends_adjacent.
Qed.

Lemma X12_later_degrees_are_smaller_witness :
  ∃ out' st' d d',
    Bfs.main_loop [pay 1 3] bfs_history (Bfs.mk_output [] [] []) = Some (out', st') ∧
    Bfs.friendship_degree (0, 3) (Bfs.g bfs_history) = Some d ∧
    Bfs.friendship_degree (0, 3) (Bfs.g st') = Some d' ∧ (d' ≤ d)%Z.
Proof.
  assert (∃ out' st',
    Bfs.main_loop [pay 1 3] bfs_history (Bfs.mk_output [] [] []) = Some (out', st') ∧
    (Z.of_nat (num_vertices (Bfs.g st')) ≤ INT_MAX)%Z) as (out' & st' & Hrun & Hsz).
  { eexists _, _. split; [vm_compute; reflexivity|vm_compute; discriminate]. }
  destruct (X12_later_degrees_are_smaller true (λ _, 0) [pay 1 3] (0, 3)) as [HB _].
  destruct (HB bfs_history _ out' st' bfs_history_inv Hrun Hsz) as (d & d' & H1 & H2 & Hle).
  - vm_compute. lia.
  - vm_compute. lia.
  - exists out', st', d, d'. split; [exact Hrun|]. split; [exact H1|]. split; [exact H2|exact Hle].
Defined.

Lemma num_vertices_bfs_resolve p st :
  num_vertices (Bfs.g (bfs_resolve p st).2) ≤ num_vertices (Bfs.g st) + 2.
Proof.
  unfold bfs_resolve, Bfs.add_user.
  destruct (Bfs.users st !! id1 p); cbn [fst snd add_vertex Bfs.g Bfs.users].
  - destruct (Bfs.users st !! id2 p); cbn [fst snd Bfs.g]; [lia|].
    unfold num_vertices. cbn [m_vertices]. rewrite length_app. simpl. lia.
  - destruct (map_insert_new _ _ _ !! id2 p); cbn [fst snd Bfs.g];
      unfold num_vertices; cbn [m_vertices]; rewrite !length_app; simpl; lia.
Qed.

Lemma degree_of_trusted {W} (g : Graph W) s t d th :
  graph_ok g → (th < INT_MAX)%Z → degree_of g s t d →
  verdict th d = "Trusted" ↔ ∃ k, (Z.of_nat k ≤ th)%Z ∧ path g s k t.
Proof.
  intros Hg Hth Hd. rewrite verdict_trusted.
  destruct Hd as [[-> Hn]|(k & -> & [Hw Hmin] & _)].
  - split; [lia|]. intros (k & _ & Hp). destruct Hn. exists k. by apply walk_path.
  - split.
    + intros Hle. exists k. split; [done|]. by apply walk_path.
    + intros (k' & Hle & Hp). apply walk_path, Hmin in Hp; [lia|done].
Qed.

Lemma edge_trusted {W} (g : Graph W) s t th :
  graph_ok g → (1 ≤ th)%Z → edge s t g = true →
  verdict th 1 = "Trusted" ↔ ∃ k, (Z.of_nat k ≤ th)%Z ∧ path g s k t.
Proof.
  intros Hg Hth He. rewrite verdict_trusted. split; [|lia]. intros _.
  exists 1. split; [lia|]. apply walk_path; [done|].
  eapply walk_step; [constructor|]. by apply edge_adjacent.
Qed.

(** A round of the main loop answers by the paths of the graph it searches. *)
Lemma bfs_body_trusted p st th :
  (1 ≤ th < INT_MAX)%Z →
  bfs_inv st → (Z.of_nat (num_vertices (Bfs.g st)) + 2 ≤ INT_MAX)%Z →
  ∃ f st', Bfs.main_loop_body p st = Some (f, st') ∧
    (verdict th f = "Trusted" ↔
     ∃ k, (Z.of_nat k ≤ th)%Z ∧
          path (Bfs.g (bfs_resolve p st).2)
               (bfs_resolve p st).1.1 k (bfs_resolve p st).1.2).
Proof.
  intros Hth I Hsz. rewrite bfs_body_unfold. cbv zeta.
  destruct (bfs_resolve_spec p st I) as (I2 & E2 & Hc & Hn).
  pose proof (num_vertices_bfs_resolve p st) as Hle.
  unfold canonical in Hc.
  destruct (bfs_is_connected _ _) eqn:Hcon.
  - eexists _, _. split; [done|].
    rewrite bfs_index_exact in Hcon; [|done|unfold INT_MAX in *; lia|done..].
    apply edge_trusted; [apply I2|lia|done].
  - destruct (bfs_degree_of (Bfs.g (bfs_resolve p st).2)
                (bfs_resolve p st).1.1 (bfs_resolve p st).1.2) as (d & Hd & Hdeg);
      [apply I2|lia|lia|done|].
    rewrite <- surjective_pairing in Hd. rewrite Hd. simpl.
    eexists _, _. split; [done|]. apply degree_of_trusted; [apply I2|lia|done].
Qed.

Lemma dij_body_trusted both_ways tie p st th :
  (1 ≤ th < INT_MAX)%Z →
  dij_inv st → (Z.of_nat (num_vertices (Dijkstra.g st)) + 2 ≤ INT_MAX)%Z →
  ∃ f st', Dijkstra.main_loop_body both_ways tie p st = Some (f, st') ∧
    (verdict th f = "Trusted" ↔
     ∃ k, (Z.of_nat k ≤ th)%Z ∧
          path (Dijkstra.g (dij_resolve p st).2)
               (dij_resolve p st).1.1 k (dij_resolve p st).1.2).
Proof.
  intros Hth I Hsz. rewrite dij_body_unfold. cbv zeta.
  destruct (dij_resolve_spec p st I) as (I2 & E2 & Hc & Hn).
  pose proof (num_vertices_dij_resolve p st) as Hle.
  unfold canonical in Hc.
  destruct (dij_is_connected _ _) eqn:Hcon.
  - eexists _, _. split; [done|]. rewrite dij_connected_edge in Hcon by done.
    apply edge_trusted; [apply I2|lia|done].
  - destruct (dijkstra_degree_of both_ways tie (Dijkstra.g (dij_resolve p st).2)
                (dij_resolve p st).1.1 (dij_resolve p st).1.2 true) as (d & Hd & Hdeg);
      [apply I2|apply I2|lia|lia|done|].
    rewrite <- surjective_pairing in Hd. rewrite Hd. simpl.
    eexists _, _. split; [done|]. apply degree_of_trusted; [apply I2|lia|done].
Qed.

(** X13.  For a threshold [th] from 1 to INT_MAX - 1 (the programs use 1, 2
    and 4), a round of the main loop gives [Trusted] exactly when a path of at
    most [th] edges joins the two users in the graph as it is once both are
    registered and before the edge of the payment is inserted. *)
Theorem X13_trusted_iff_short_path
    (both_ways : bool) (tie : nat → nat) (p : payment_t) (th : Z) :
  (1 ≤ th < INT_MAX)%Z →
  (∀ st, bfs_inv st → (Z.of_nat (num_vertices (Bfs.g st)) + 2 ≤ INT_MAX)%Z →
     ∃ f st', Bfs.main_loop_body p st = Some (f, st') ∧
       (verdict th f = "Trusted" ↔
        ∃ k, (Z.of_nat k ≤ th)%Z ∧
             path (Bfs.g (bfs_resolve p st).2)
                  (bfs_resolve p st).1.1 k (bfs_resolve p st).1.2)) ∧
  (∀ st, dij_inv st → (Z.of_nat (num_vertices (Dijkstra.g st)) + 2 ≤ INT_MAX)%Z →
     ∃ f st', Dijkstra.main_loop_body both_ways tie p st = Some (f, st') ∧
       (verdict th f = "Trusted" ↔
        ∃ k, (Z.of_nat k ≤ th)%Z ∧
             path (Dijkstra.g (dij_resolve p st).2)
                  (dij_resolve p st).1.1 k (dij_resolve p st).1.2)).
Proof.
  intros Hth. split.
  - intros st I Hsz. by apply bfs_body_trusted.
  - intros st I Hsz. by apply dij_body_trusted.
Qed.

Lemma X13_trusted_iff_short_path_witness :
  ∃ f st', Bfs.main_loop_body (pay 1 4) bfs_history = Some (f, st') ∧
    (verdict 2 f = "Trusted" ↔
     ∃ k, (Z.of_nat k ≤ 2)%Z ∧
          path (Bfs.g (bfs_resolve (pay 1 4) bfs_history).2)
               (bfs_resolve (pay 1 4) bfs_history).1.1 k
               (bfs_resolve (pay 1 4) bfs_history).1.2).
Proof.
  destruct (X13_trusted_iff_short_path true (λ _, 0) (pay 1 4) 2) as [HB _].
  - unfold INT_MAX. lia.
  - apply (HB bfs_history bfs_history_inv). vm_compute. discriminate.
Defined.

(** ** Payments to oneself, and the three output files *)

Lemma create_connection_same n : create_connection n n = (n, n).
Proof. unfold create_connection. by rewrite Nat.ltb_irrefl. Qed.

Lemma bfs_resolve_self p st :
  id1 p = id2 p → (bfs_resolve p st).1.1 = (bfs_resolve p st).1.2.
Proof.
  intros Hid. destruct (bfs_resolve_users p st) as (n1 & n2 & -> & U1 & U2).
  rewrite Hid in U1. assert (n1 = n2) as -> by congruence.
  by rewrite create_connection_same.
Qed.

Lemma dij_resolve_self p st :
  id1 p = id2 p → (dij_resolve p st).1.1 = (dij_resolve p st).1.2.
Proof.
  intros Hid. destruct (dij_resolve_users p st) as (n1 & n2 & -> & U1 & U2).
  rewrite Hid in U1. assert (n1 = n2) as -> by congruence.
  by rewrite create_connection_same.
Qed.

(** X14.  A payment whose two ids are the same user gets the friendship 0 or
    1, and so [Trusted] under each of the three thresholds. *)
Theorem X14_self_payment_is_trusted
    (both_ways : bool) (tie : nat → nat) (p : payment_t) :
  id1 p = id2 p →
  (∀ st, bfs_inv st →
     ∃ f st', Bfs.main_loop_body p st = Some (f, st') ∧ (f = 0 ∨ f = 1)%Z ∧
       verdict 1 f = "Trusted" ∧ verdict 2 f = "Trusted" ∧ verdict 4 f = "Trusted") ∧
  (∀ st, dij_inv st →
     ∃ f st', Dijkstra.main_loop_body both_ways tie p st = Some (f, st') ∧
       (f = 0 ∨ f = 1)%Z ∧
       verdict 1 f = "Trusted" ∧ verdict 2 f = "Trusted" ∧ verdict 4 f = "Trusted").
Proof.
  intros Hid.
  assert (Hv : ∀ f, (f = 0 ∨ f = 1)%Z →
            verdict 1 f = "Trusted" ∧ verdict 2 f = "Trusted" ∧ verdict 4 f = "Trusted").
  { intros f Hf. rewrite !verdict_trusted. lia. }
  split.
  - intros st I. rewrite bfs_body_unfold. cbv zeta.
    destruct (bfs_resolve_spec p st I) as (I2 & _ & Hc & Hn).
    pose proof (bfs_resolve_self p st Hid) as Hself.
    destruct (bfs_resolve p st) as [[c1 c2] st2]. cbn [fst snd] in *. subst c1.
    destruct (bfs_is_connected _ _).
    + eexists _, _. split; [done|]. split; [by right|]. apply Hv. by right.
    + rewrite bfs_self_degree by done. simpl.
      eexists _, _. split; [done|]. split; [by left|]. apply Hv. by left.
  - intros st I. rewrite dij_body_unfold. cbv zeta.
    destruct (dij_resolve_spec p st I) as (I2 & _ & Hc & Hn).
    pose proof (dij_resolve_self p st Hid) as Hself.
    destruct (dij_resolve p st) as [[c1 c2] st2]. cbn [fst snd] in *. subst c1.
    destruct (dij_is_connected _ _).
    + eexists _, _. split; [done|]. split; [by right|]. apply Hv. by right.
    + rewrite dij_self_degree; [|apply I2|done]. simpl.
      eexists _, _. split; [done|]. split; [by left|]. apply Hv. by left.
Qed.

Lemma X14_self_payment_is_trusted_witness :
  ∃ f st', Bfs.main_loop_body (pay 7 7) bfs_history = Some (f, st') ∧ (f = 0 ∨ f = 1)%Z ∧
    verdict 1 f = "Trusted" ∧ verdict 2 f = "Trusted" ∧ verdict 4 f = "Trusted".
Proof.
  destruct (X14_self_payment_is_trusted true (λ _, 0) (pay 7 7) eq_refl) as [HB _].
  exact (HB bfs_history bfs_history_inv).
Defined.


Lemma dij_write_verdicts_foldl fs : ∀ out,
  foldl (λ o f, Dijkstra.write_verdicts f o) out fs =
    Dijkstra.mk_output (Dijkstra.output1 out ++ (verdict 1 <$> fs))
                       (Dijkstra.output2 out ++ (verdict 2 <$> fs))
                       (Dijkstra.output3 out ++ (verdict 4 <$> fs)).
Proof.
  induction fs as [|f fs IH]; intros out; simpl.
  - rewrite !app_nil_r. by destruct out.
  - rewrite IH. unfold Dijkstra.write_verdicts.
    cbn [Dijkstra.output1 Dijkstra.output2 Dijkstra.output3].
    by rewrite <- !app_assoc.
Qed.







(** ** Payments of users not seen before *)

Lemma walk_from_isolated {W} (g : Graph W) x k t :
  (∀ v, ¬ adjacent g x v) → walk g x k t → t = x.
Proof.
  intros Hx Hw. induction Hw as [|k u v Hw IH Hadj]; [done|].
  subst u. by destruct (Hx v).
Qed.

Lemma isolated_unreachable {W} (g : Graph W) s t x :
  graph_ok g → s ≠ t → x = s ∨ x = t → (∀ v, ¬ adjacent g x v) → ¬ reachable g s t.
Proof.
  intros Hg Hne [-> | ->] Hx [k Hw].
  - by apply (walk_from_isolated _ _ _ _ Hx) in Hw.
  - apply (walk_rev _ _ _ _ Hg), (walk_from_isolated _ _ _ _ Hx) in Hw. done.
Qed.

Lemma degree_of_unreachable {W} (g : Graph W) s t d :
  ¬ reachable g s t → degree_of g s t d → d = INT_MAX.
Proof.
  intros Hn [[-> _]|(k & _ & [Hw _] & _)]; [done|]. destruct Hn. by exists k.
Qed.

Lemma bfs_add_user_adjacent uid st u v :
  adjacent (Bfs.g (Bfs.add_user uid st).2) u v ↔ adjacent (Bfs.g st) u v.
Proof.
  unfold Bfs.add_user. destruct (Bfs.users st !! uid); [done|].
  cbn [add_vertex fst snd Bfs.g].
  apply (adjacent_add_vertex (Bfs.g st)).
Qed.

Lemma dij_add_user_adjacent uid st u v :
  adjacent (Dijkstra.g (Dijkstra.add_user uid st).2) u v ↔ adjacent (Dijkstra.g st) u v.
Proof.
  unfold Dijkstra.add_user. destruct (Dijkstra.users st !! uid); [done|].
  cbn [add_vertex fst snd Dijkstra.g].
  apply (adjacent_add_vertex (Dijkstra.g st)).
Qed.

(** A payment with a user not yet registered: its two vertices differ and
    one of them has no edge. *)
Lemma bfs_resolve_fresh p st :
  bfs_inv st → id1 p ≠ id2 p →
  Bfs.users st !! id1 p = None ∨ Bfs.users st !! id2 p = None →
  (bfs_resolve p st).1.1 ≠ (bfs_resolve p st).1.2 ∧
  ∃ x, (x = (bfs_resolve p st).1.1 ∨ x = (bfs_resolve p st).1.2) ∧
       ∀ v, ¬ adjacent (Bfs.g (bfs_resolve p st).2) x v.
Proof.
  intros I Hne Hnew.
  assert (Hold : ∀ x v, num_vertices (Bfs.g st) ≤ x →
            ¬ adjacent (Bfs.g (bfs_resolve p st).2) x v).
  { intros x v Hx. unfold bfs_resolve.
    pose proof (bfs_add_user_adjacent (id1 p) st x v) as A1.
    destruct (Bfs.add_user (id1 p) st) as [node1 st1]. cbn [snd] in A1.
    pose proof (bfs_add_user_adjacent (id2 p) st1 x v) as A2.
    destruct (Bfs.add_user (id2 p) st1) as [node2 st2]. cbn [snd] in *.
    rewrite A2, A1. intros Hadj%adjacent_lt. lia. }
  assert (Hv : ∃ node1 node2, (bfs_resolve p st).1 = create_connection node1 node2 ∧
            node1 ≠ node2 ∧
            (num_vertices (Bfs.g st) ≤ node1 ∨ num_vertices (Bfs.g st) ≤ node2)).
  { unfold bfs_resolve, Bfs.add_user.
    destruct (Bfs.users st !! id1 p) as [v1|] eqn:U1.
    - destruct Hnew as [?|U2]; [done|]. rewrite U2. cbn [add_vertex fst snd].
      exists v1, (num_vertices (Bfs.g st)). split; [done|].
      pose proof (binv_users _ I _ _ U1). lia.
    - cbn [add_vertex fst snd Bfs.users Bfs.g].
      rewrite (map_insert_new_lookup (id1 p)) by done.
      rewrite lookup_insert_ne by done.
      destruct (Bfs.users st !! id2 p) as [v2|] eqn:U2; cbn [fst snd].
      + exists (num_vertices (Bfs.g st)), v2. split; [done|].
        pose proof (binv_users _ I _ _ U2). lia.
      + eexists _, _. split; [done|].
        unfold num_vertices. cbn [m_vertices]. rewrite length_app. simpl. lia. }
  destruct Hv as (node1 & node2 & Hc & Hn12 & Hfresh). rewrite Hc.
  destruct (create_connection_elem node1 node2) as [[-> ->]|[-> ->]].
  - split; [done|]. destruct Hfresh; [exists node1|exists node2]; split; auto.
  - split; [done|]. destruct Hfresh; [exists node1|exists node2]; split; auto.
Qed.

Lemma dij_resolve_fresh p st :
  dij_inv st → id1 p ≠ id2 p →
  Dijkstra.users st !! id1 p = None ∨ Dijkstra.users st !! id2 p = None →
  (dij_resolve p st).1.1 ≠ (dij_resolve p st).1.2 ∧
  ∃ x, (x = (dij_resolve p st).1.1 ∨ x = (dij_resolve p st).1.2) ∧
       ∀ v, ¬ adjacent (Dijkstra.g (dij_resolve p st).2) x v.
Proof.
  intros I Hne Hnew.
  assert (Hold : ∀ x v, num_vertices (Dijkstra.g st) ≤ x →
            ¬ adjacent (Dijkstra.g (dij_resolve p st).2) x v).
  { intros x v Hx. unfold dij_resolve.
    pose proof (dij_add_user_adjacent (id1 p) st x v) as A1.
    destruct (Dijkstra.add_user (id1 p) st) as [node1 st1]. cbn [snd] in A1.
    pose proof (dij_add_user_adjacent (id2 p) st1 x v) as A2.
    destruct (Dijkstra.add_user (id2 p) st1) as [node2 st2]. cbn [snd] in *.
    rewrite A2, A1. intros Hadj%adjacent_lt. lia. }
  assert (Hv : ∃ node1 node2, (dij_resolve p st).1 = create_connection node1 node2 ∧
            node1 ≠ node2 ∧
            (num_vertices (Dijkstra.g st) ≤ node1 ∨ num_vertices (Dijkstra.g st) ≤ node2)).
  { unfold dij_resolve, Dijkstra.add_user.
    destruct (Dijkstra.users st !! id1 p) as [v1|] eqn:U1.
    - destruct Hnew as [?|U2]; [done|]. rewrite U2. cbn [add_vertex fst snd].
      exists v1, (num_vertices (Dijkstra.g st)). split; [done|].
      pose proof (dinv_users _ I _ _ U1). lia.
    - cbn [add_vertex fst snd Dijkstra.users Dijkstra.g].
      rewrite (map_insert_new_lookup (id1 p)) by done.
      rewrite lookup_insert_ne by done.
      destruct (Dijkstra.users st !! id2 p) as [v2|] eqn:U2; cbn [fst snd].
      + exists (num_vertices (Dijkstra.g st)), v2. split; [done|].
        pose proof (dinv_users _ I _ _ U2). lia.
      + eexists _, _. split; [done|].
        unfold num_vertices. cbn [m_vertices]. rewrite length_app. simpl. lia. }
  destruct Hv as (node1 & node2 & Hc & Hn12 & Hfresh). rewrite Hc.
  destruct (create_connection_elem node1 node2) as [[-> ->]|[-> ->]].
  - split; [done|]. destruct Hfresh; [exists node1|exists node2]; split; auto.
  - split; [done|]. destruct Hfresh; [exists node1|exists node2]; split; auto.
Qed.

(** X16.  A payment between two different users, one of whom is not registered
    yet, gets the friendship INT_MAX, and so [Unverified] under each of the
    three thresholds. *)
Theorem X16_new_user_is_unverified
    (both_ways : bool) (tie : nat → nat) (p : payment_t) :
  id1 p ≠ id2 p →
  (∀ st, bfs_inv st → (Z.of_nat (num_vertices (Bfs.g st)) + 2 ≤ INT_MAX)%Z →
     Bfs.users st !! id1 p = None ∨ Bfs.users st !! id2 p = None →
     ∃ st', Bfs.main_loop_body p st = Some (INT_MAX, st') ∧
       verdict 1 INT_MAX = "Unverified" ∧ verdict 2 INT_MAX = "Unverified" ∧
       verdict 4 INT_MAX = "Unverified") ∧
  (∀ st, dij_inv st → (Z.of_nat (num_vertices (Dijkstra.g st)) + 2 ≤ INT_MAX)%Z →
     Dijkstra.users st !! id1 p = None ∨ Dijkstra.users st !! id2 p = None →
     ∃ st', Dijkstra.main_loop_body both_ways tie p st = Some (INT_MAX, st') ∧
       verdict 1 INT_MAX = "Unverified" ∧ verdict 2 INT_MAX = "Unverified" ∧
       verdict 4 INT_MAX = "Unverified").
Proof.
  intros Hne. split.
  - intros st I Hsz Hnew. rewrite bfs_body_unfold. cbv zeta.
    destruct (bfs_resolve_spec p st I) as (I2 & E2 & Hc & Hn).
    pose proof (num_vertices_bfs_resolve p st) as Hle.
    destruct (bfs_resolve_fresh p st I Hne Hnew) as (Hd & x & Hx & Hiso).
    pose proof (isolated_unreachable _ _ _ x (binv_graph _ I2) Hd Hx Hiso) as Hun.
    unfold canonical in Hc.
    rewrite bfs_index_exact; [|done|unfold INT_MAX in *; lia|done..].
    destruct (edge _ _ _) eqn:He.
    { destruct Hun. exists 1. eapply walk_step; [constructor|]. by apply edge_adjacent. }
    destruct (bfs_degree_of (Bfs.g (bfs_resolve p st).2)
                (bfs_resolve p st).1.1 (bfs_resolve p st).1.2) as (d & Hdeg & Hof);
      [apply I2|lia|lia|done|].
    rewrite <- surjective_pairing in Hdeg. rewrite Hdeg. simpl.
    rewrite (degree_of_unreachable _ _ _ _ Hun Hof). by eexists.
  - intros st I Hsz Hnew. rewrite dij_body_unfold. cbv zeta.
    destruct (dij_resolve_spec p st I) as (I2 & E2 & Hc & Hn).
    pose proof (num_vertices_dij_resolve p st) as Hle.
    destruct (dij_resolve_fresh p st I Hne Hnew) as (Hd & x & Hx & Hiso).
    pose proof (isolated_unreachable _ _ _ x (dinv_graph _ I2) Hd Hx Hiso) as Hun.
    unfold canonical in Hc.
    rewrite dij_connected_edge by done.
    destruct (edge _ _ _) eqn:He.
    { destruct Hun. exists 1. eapply walk_step; [constructor|]. by apply edge_adjacent. }
    destruct (dijkstra_degree_of both_ways tie (Dijkstra.g (dij_resolve p st).2)
                (dij_resolve p st).1.1 (dij_resolve p st).1.2 true) as (d & Hdeg & Hof);
      [apply I2|apply I2|lia|lia|done|].
    rewrite <- surjective_pairing in Hdeg. rewrite Hdeg. simpl.
    rewrite (degree_of_unreachable _ _ _ _ Hun Hof). by eexists.
Qed.

Lemma X16_new_user_is_unverified_witness :
  ∃ st', Bfs.main_loop_body (pay 1 99) bfs_history = Some (INT_MAX, st') ∧
    verdict 1 INT_MAX = "Unverified" ∧ verdict 2 INT_MAX = "Unverified" ∧
    verdict 4 INT_MAX = "Unverified".
Proof.
  destruct (X16_new_user_is_unverified true (λ _, 0) (pay 1 99)) as [HB _].
  - vm_compute. discriminate.
  - apply (HB bfs_history bfs_history_inv).
    + vm_compute. discriminate.
    + right. vm_compute. reflexivity.
Defined.

(** ** The verdicts in terms of the payments *)

Lemma linked_sym {W} (g : Graph W) u v : linked g u v → linked g v u.
Proof. intros [w Hw]. exists w. tauto. Qed.

Lemma path_cons {W} (g : Graph W) s u k t :
  linked g s u → path g u k t → path g s (S k) t.
Proof.
  intros Hl Hp. induction Hp as [|k x y Hp IH Hxy].
  - eapply path_step; [constructor|done].
  - eapply path_step; [exact IH|done].
Qed.

Lemma path_rev {W} (g : Graph W) s k t : path g s k t → path g t k s.
Proof.
  intros Hp. induction Hp as [|k u v Hp IH Hl]; [constructor|].
  eapply path_cons; [|exact IH]. by apply linked_sym.
Qed.

Lemma verdict_is_iff th f P :
  (verdict th f = "Trusted" ↔ P) → verdict_is (verdict th f) P.
Proof.
  unfold verdict_is, verdict. destruct (th <? f)%Z; intros [H1 H2].
  - right. split; [|done]. intros HP. by specialize (H2 HP).
  - left. split; [|done]. by apply H1.
Qed.

(** Paths of a graph whose vertices are users and whose edges are the pairs
    of the payments are chains of payments. *)
Section chains.
Context {W : Type} (users : gmap Z nat) (g : Graph W) (data : data_t).
Hypothesis users_inj :
  ∀ a b v, users !! a = Some v → users !! b = Some v → a = b.
Hypothesis linked_pays :
  ∀ u v, linked g u v →
    ∃ a b q, users !! a = Some u ∧ users !! b = Some v ∧ q ∈ data ∧ pays q a b.
Hypothesis pays_linked :
  ∀ q a b, q ∈ data → pays q a b →
    ∃ u v, users !! a = Some u ∧ users !! b = Some v ∧ linked g u v.

Lemma path_chain s k t a :
  users !! a = Some s → path g s k t → ∃ b, users !! b = Some t ∧ chain data a k b.
Proof.
  intros Ha Hp. induction Hp as [|k u v Hp IH Hl].
  - exists a. split; [done|constructor].
  - destruct IH as (bu & Hbu & Hch).
    destruct (linked_pays u v Hl) as (a' & b' & q & Ha' & Hb' & Hq & Hpay).
    rewrite (users_inj _ _ _ Ha' Hbu) in Hpay.
    exists b'. split; [done|]. by eapply chain_step.
Qed.

Lemma chain_path a k b s :
  users !! a = Some s → chain data a k b → ∃ t, users !! b = Some t ∧ path g s k t.
Proof.
  intros Ha Hch. induction Hch as [|k u v q Hch IH Hq Hpay].
  - exists s. split; [done|constructor].
  - destruct IH as (tu & Htu & Hp).
    destruct (pays_linked q u v Hq Hpay) as (u' & v' & Hu' & Hv' & Hl).
    assert (u' = tu) as -> by congruence.
    exists v'. split; [done|]. by eapply path_step.
Qed.
End chains.

Lemma dij_resolve_adjacent p st u v :
  adjacent (Dijkstra.g (dij_resolve p st).2) u v ↔ adjacent (Dijkstra.g st) u v.
Proof.
  unfold dij_resolve.
  pose proof (dij_add_user_adjacent (id1 p) st u v) as A1.
  destruct (Dijkstra.add_user (id1 p) st) as [node1 st1]. cbn [snd] in A1.
  pose proof (dij_add_user_adjacent (id2 p) st1 u v) as A2.
  destruct (Dijkstra.add_user (id2 p) st1) as [node2 st2]. cbn [snd] in *.
  by rewrite A2, A1.
Qed.

Lemma dij_init_joined data a b :
  dij_joined (Dijkstra.build_paymo_network data Dijkstra.init) a b ↔
  ∃ q, q ∈ data ∧ pays q a b.
Proof.
  rewrite <- (same_network_joined (Bfs.build_paymo_network data Bfs.init));
    [|apply same_network_build, same_network_init].
  rewrite bfs_build_joined by (apply bfs_init_inv || apply bfs_registry_ok_init).
  split; [|by right]. intros [(va & vb & Ha & _)|?]; [|done].
  simpl in Ha. by rewrite lookup_empty in Ha.
Qed.

(** A round of the main loop of [fraud-alert.cpp] in a state whose edges are
    the pairs of the payments of [data]. *)
Lemma dij_body_near both_ways tie data p st th :
  (1 ≤ th < INT_MAX)%Z →
  dij_inv st → dij_registry_ok st →
  (Z.of_nat (num_vertices (Dijkstra.g st)) + 2 ≤ INT_MAX)%Z →
  (∀ a b, dij_joined st a b ↔ ∃ q, q ∈ data ∧ pays q a b) →
  ∃ f st', Dijkstra.main_loop_body both_ways tie p st = Some (f, st') ∧
           (verdict th f = "Trusted" ↔ near data p th).
Proof.
  intros Hth I R Hsz J.
  destruct (dij_body_trusted both_ways tie p st th Hth I Hsz) as (f & st' & Hrun & Hiff).
  exists f, st'. split; [done|]. rewrite Hiff. clear Hrun Hiff.
  destruct (dij_resolve_spec p st I) as (I2 & E2 & _ & _).
  destruct (dij_registry_ok_resolve p st R) as (R2 & _ & _).
  destruct (dij_resolve_users p st) as (n1 & n2 & Ec & U1 & U2).
  pose proof (dinv_graph _ I2) as Hg2. pose proof (dinv_graph _ I) as Hg.
  set (st2 := (dij_resolve p st).2) in *.
  assert (Hinj : ∀ a b v, Dijkstra.users st2 !! a = Some v →
            Dijkstra.users st2 !! b = Some v → a = b).
  { intros a b v. apply (registry_ok_inj _ _ _ _ _ _ R2). }
  assert (Hlp : ∀ u v, linked (Dijkstra.g st2) u v →
            ∃ a b q, Dijkstra.users st2 !! a = Some u ∧
                     Dijkstra.users st2 !! b = Some v ∧ q ∈ data ∧ pays q a b).
  { intros u v Hl. apply (ok_edges _ Hg2), dij_resolve_adjacent in Hl.
    pose proof (adjacent_lt _ _ _ Hl) as Hu. pose proof (ok_range _ Hg _ _ Hl) as Hv.
    apply (reg_dense _ _ _ R) in Hu as [a Ha]. apply (reg_dense _ _ _ R) in Hv as [b Hb].
    apply (reg_inverse _ _ _ R) in Ha, Hb.
    destruct (J a b) as [(q & Hq & Hpay) _].
    { exists u, v. split_and!; [done..|]. by apply edge_adjacent. }
    exists a, b, q. split_and!; [by apply (dext_users _ _ E2)..|done|done]. }
  assert (Hpl : ∀ q a b, q ∈ data → pays q a b →
            ∃ u v, Dijkstra.users st2 !! a = Some u ∧
                   Dijkstra.users st2 !! b = Some v ∧ linked (Dijkstra.g st2) u v).
  { intros q a b Hq Hpay. destruct (J a b) as [_ (u & v & Ha & Hb & He)]; [by exists q|].
    exists u, v. split_and!; [by apply (dext_users _ _ E2)..|].
    apply (ok_edges _ Hg2), dij_resolve_adjacent. by apply edge_adjacent. }
  assert (Hnear : near data p th ↔
            ∃ k, (Z.of_nat k ≤ th)%Z ∧ path (Dijkstra.g st2) n1 k n2).
  { unfold near. split; intros (k & Hk & H); exists k; (split; [done|]).
    - destruct (chain_path _ _ _ Hpl _ _ _ _ U1 H) as (t & Ht & Hp).
      by assert (t = n2) as <- by congruence.
    - destruct (path_chain _ _ _ Hinj Hlp _ _ _ _ U1 H) as (b & Hb & Hch).
      by rewrite (Hinj _ _ _ U2 Hb). }
  rewrite Hnear, Ec.
  destruct (create_connection_elem n1 n2) as [[-> ->]|[-> ->]]; [done|].
  split; intros (k & Hk & Hp); exists k; (split; [done|by apply path_rev]).
Qed.

Lemma dij_degrees_lookup both_ways tie stream : ∀ st fs i p,
  dij_inv st → dij_degrees both_ways tie stream st = Some fs → stream !! i = Some p →
  ∃ f st', fs !! i = Some f ∧
    Dijkstra.main_loop_body both_ways tie p
      (Dijkstra.build_paymo_network (take i stream) st) = Some (f, st').
Proof.
  unfold Dijkstra.build_paymo_network.
  induction stream as [|q stream IH]; intros st fs i p I Hfs Hp; [done|].
  simpl in Hfs.
  destruct (dij_body_state both_ways tie q st I) as [f0 Hf0].
  destruct (dij_body_spec both_ways tie q st I) as (f' & st1 & Hrun & I1 & _).
  rewrite Hf0 in Hrun. injection Hrun as -> <-.
  rewrite Hf0 in Hfs. simpl in Hfs.
  destruct (dij_degrees both_ways tie stream _) as [fs'|] eqn:Hfs'; [|done].
  simpl in Hfs. injection Hfs as <-.
  destruct i as [|i]; simpl in Hp.
  - injection Hp as ->. simpl. by eexists _, _.
  - simpl. rewrite dij_bulk_unfold. by eapply IH.
Qed.

Lemma dij_main_degrees both_ways tie batch stream out st :
  Dijkstra.main both_ways tie batch stream = Some (out, st) →
  ∃ fs, dij_degrees both_ways tie stream
          (Dijkstra.build_paymo_network batch Dijkstra.init) = Some fs ∧
        Dijkstra.output1 out = verdict 1 <$> fs ∧
        Dijkstra.output2 out = verdict 2 <$> fs ∧
        Dijkstra.output3 out = verdict 4 <$> fs.
Proof.
  intros Hrun.
  pose proof (dij_main_loop_degrees both_ways tie stream
                (Dijkstra.build_paymo_network batch Dijkstra.init)
                (Dijkstra.mk_output [] [] [])) as Hd.
  unfold Dijkstra.main in Hrun. rewrite Hrun in Hd. simpl in Hd.
  destruct (dij_degrees both_ways tie stream _) as [fs|] eqn:Hfs; [|done]. simpl in Hd.
  rewrite dij_write_verdicts_foldl in Hd. injection Hd as Hout.
  exists fs. split; [done|]. rewrite Hout.
  by cbn [Dijkstra.output1 Dijkstra.output2 Dijkstra.output3 app].
Qed.

(** X17.  The outputs in terms of the payments alone. When twice the number of
    payments fits an [int], both programs end, and line [i] of the first,
    second and third output is [Trusted] exactly when a chain of at most 1, 2
    and 4 payments, taken in either direction from the batch and from the
    stream before line [i], leads from one user of the payment to the other (a
    payment of a user to itself needs none); it is [Unverified] otherwise. *)
Theorem X17_verdicts_by_payment_chains
    (both_ways : bool) (tie : nat → nat) (batch stream : data_t) :
  (2 * (Z.of_nat (length batch) + Z.of_nat (length stream)) ≤ INT_MAX)%Z →
  ∃ ob sb od sd,
    Bfs.main batch stream = Some (ob, sb) ∧
    Dijkstra.main both_ways tie batch stream = Some (od, sd) ∧
    ∀ i p, stream !! i = Some p →
      ∃ v1 v2 v3,
        Bfs.output1 ob !! i = Some v1 ∧ Dijkstra.output1 od !! i = Some v1 ∧
        Bfs.output2 ob !! i = Some v2 ∧ Dijkstra.output2 od !! i = Some v2 ∧
        Bfs.output3 ob !! i = Some v3 ∧ Dijkstra.output3 od !! i = Some v3 ∧
        verdict_is v1 (near (batch ++ take i stream) p 1) ∧
        verdict_is v2 (near (batch ++ take i stream) p 2) ∧
        verdict_is v3 (near (batch ++ take i stream) p 4).
Proof.
  intros Hsz.
  destruct (main_same_outputs both_ways tie batch stream Hsz)
    as (ob & sb & od & sd & Hb & Hd & O1 & O2 & O3 & _).
  exists ob, sb, od, sd. split; [done|]. split; [done|]. intros i p Hp.
  destruct (dij_main_degrees _ _ _ _ _ _ Hd) as (fs & Hfs & D1 & D2 & D3).
  destruct (dij_build_spec batch Dijkstra.init dij_init_inv) as [I0 _].
  destruct (dij_degrees_lookup _ _ _ _ _ _ _ I0 Hfs Hp) as (f & st' & Hf & Hrun).
  set (data := batch ++ take i stream).
  assert (Dijkstra.build_paymo_network (take i stream)
            (Dijkstra.build_paymo_network batch Dijkstra.init)
          = Dijkstra.build_paymo_network data Dijkstra.init) as Est.
  { unfold data, Dijkstra.build_paymo_network. by rewrite foldl_app. }
  rewrite Est in Hrun.
  destruct (dij_build_spec data Dijkstra.init dij_init_inv) as [I _].
  pose proof (dij_registry_ok_build data _ dij_registry_ok_init) as R.
  pose proof (dij_build_vertices data _ dij_init_inv) as Hn.
  assert (Hlen : length data < length batch + length stream).
  { unfold data. rewrite length_app, length_take.
    apply lookup_lt_Some in Hp. lia. }
  assert (Hnear : ∀ th, (1 ≤ th < INT_MAX)%Z → verdict_is (verdict th f) (near data p th)).
  { intros th Hth. apply verdict_is_iff.
    destruct (dij_body_near both_ways tie data p _ th Hth I R) as (f' & st'' & Hrun' & Hiff).
    - simpl in Hn. lia.
    - intros a b. apply dij_init_joined.
    - rewrite Hrun in Hrun'. by injection Hrun' as <- <-. }
  exists (verdict 1 f), (verdict 2 f), (verdict 4 f).
  rewrite O1, O2, O3, D1, D2, D3, !list_lookup_fmap, Hf. simpl.
  split_and!; try done; apply Hnear; unfold INT_MAX; lia.
Qed.

Lemma X17_verdicts_by_payment_chains_witness :
  ∃ ob sb od sd,
    Bfs.main batch3 [pay 1 3; pay 4 5] = Some (ob, sb) ∧
    Dijkstra.main true (λ _, 0) batch3 [pay 1 3; pay 4 5] = Some (od, sd) ∧
    ∀ i p, [pay 1 3; pay 4 5] !! i = Some p →
      ∃ v1 v2 v3,
        Bfs.output1 ob !! i = Some v1 ∧ Dijkstra.output1 od !! i = Some v1 ∧
        Bfs.output2 ob !! i = Some v2 ∧ Dijkstra.output2 od !! i = Some v2 ∧
        Bfs.output3 ob !! i = Some v3 ∧ Dijkstra.output3 od !! i = Some v3 ∧
        verdict_is v1 (near (batch3 ++ take i [pay 1 3; pay 4 5]) p 1) ∧
        verdict_is v2 (near (batch3 ++ take i [pay 1 3; pay 4 5]) p 2) ∧
        verdict_is v3 (near (batch3 ++ take i [pay 1 3; pay 4 5]) p 4).
Proof.
  apply (X17_verdicts_by_payment_chains true (λ _, 0) batch3 [pay 1 3; pay 4 5]).
  vm_compute. discriminate.
Defined.

(** ** Reading a file line by line *)

Lemma until_delim_free delim s : free_of delim s → until_delim delim s = (s, None).
Proof.
  induction s as [|c s IH]; simpl; [done|]. intros [Hc Hs].
  rewrite decide_False by done. by rewrite IH.
Qed.

Lemma until_delim_app delim s r :
  free_of delim s → until_delim delim (s +:+ String delim r) = (s, Some r).
Proof.
  induction s as [|c s IH]; simpl.
  - intros _. by rewrite decide_True.
  - intros [Hc Hs]. rewrite decide_False by done. by rewrite IH.
Qed.

Lemma until_delim_Some delim s l r :
  until_delim delim s = (l, Some r) →
  s = l +:+ String delim r ∧ free_of delim l ∧ String.length r < String.length s.
Proof.
  revert l. induction s as [|c s IH]; intros l; simpl; [done|].
  case_decide as Hc.
  - intros [= <- <-]. subst. simpl. split_and!; [done..|lia].
  - destruct (until_delim delim s) as [l' r'] eqn:E. intros [= <- ->].
    destruct (IH l' eq_refl) as (-> & Hf & Hlen). simpl. split_and!; [done..|lia].
Qed.

Lemma until_delim_None delim s l :
  until_delim delim s = (l, None) → l = s ∧ free_of delim s.
Proof.
  revert l. induction s as [|c s IH]; intros l; simpl; [by intros [= <-]|].
  case_decide as Hc; [done|].
  destruct (until_delim delim s) as [l' r'] eqn:E. intros [= <- ->].
  destruct (IH l' eq_refl) as [-> Hf]. done.
Qed.

Lemma lines_cons c s :
  c ≠ "010"%char →
  lines (String c s) =
    match lines s with [] => [String c ""] | l :: ls => String c l :: ls end.
Proof. intros Hc. cbn [lines]. by destruct (decide (c = "010"%char)). Qed.

Lemma lines_newline s : lines (String "010" s) = "" :: lines s.
Proof. done. Qed.

Lemma lines_free s : s ≠ "" → free_of "010" s → lines s = [s].
Proof.
  induction s as [|c s IH]; [done|]. intros _ [Hc Hs]. rewrite lines_cons by done.
  destruct s as [|c' s']; [done|]. by rewrite IH.
Qed.

Lemma lines_app l r : free_of "010" l → lines (l +:+ String "010" r) = l :: lines r.
Proof.
  induction l as [|c l IH]; [done|]. intros [Hc Hl].
  replace (String c l +:+ String "010" r) with (String c (l +:+ String "010" r)) by done.
  rewrite lines_cons by done. by rewrite IH.
Qed.

Lemma getline_stringstream l str :
  free_of "010" l → (getline (stringstream l) str "010").2 = l.
Proof.
  intros Hf. unfold getline, stringstream. cbn [good eofbit failbit buffer negb andb].
  by rewrite until_delim_free.
Qed.

Lemma extract_payment_record input record :
  free_of "010" (getline input "" "010").2 →
  (extract_payment input record).2 = parse_line record (getline input "" "010").2.
Proof.
  intros Hf. unfold parse_line, extract_payment.
  pose proof (getline_stringstream _ "" Hf) as Hl.
  destruct (getline input "" "010") as [input' l]. cbn [snd] in *.
  destruct (getline (stringstream l) "" "010") as [input2 l2]. cbn [snd] in Hl. subst l2.
  destruct (getline (stringstream l) (time record) ",") as [ss1 time'].
  destruct (getline ss1 "" ",") as [ss2 id1_field].
  destruct (getline ss2 "" ",") as [ss3 id2_field].
  destruct (getline ss3 (amount record) ",") as [ss4 amount'].
  by destruct (getline ss4 (message record) "010") as [ss5 message'].
Qed.

Lemma extract_payment_stream input record :
  (extract_payment input record).1 = (getline input "" "010").1.
Proof.
  unfold extract_payment.
  destruct (getline input "" "010") as [input' l].
  destruct (getline (stringstream l) (time record) ",") as [ss1 time'].
  destruct (getline ss1 "" ",") as [ss2 id1_field].
  destruct (getline ss2 "" ",") as [ss3 id2_field].
  destruct (getline ss3 (amount record) ",") as [ss4 amount'].
  by destruct (getline ss4 (message record) "010") as [ss5 message'].
Qed.

Lemma extract_records_spec fuel : ∀ input record data,
  String.length (buffer input) < fuel →
  ∃ input', extract_records fuel input record data =
              Some (input', data ++ parse_lines (pending input) record) ∧
            eofbit input' = eofbit input || good input ∧ failbit input' = true.
Proof.
  induction fuel as [|fuel IH]; intros input record data Hlen; [lia|].
  cbn [extract_records].
  pose proof (extract_payment_stream input record) as Hs.
  pose proof (extract_payment_record input record) as Hr.
  destruct (extract_payment input record) as [input1 record1]. cbn [fst snd] in *.
  unfold pending. unfold getline in Hs, Hr.
  destruct (good input) eqn:Hgood.
  - destruct (until_delim "010" (buffer input)) as [l [r|]] eqn:Hu; cbn [fst snd] in *.
    + apply until_delim_Some in Hu as (Hb & Hf & Hlt).
      subst input1. cbn [failbit]. rewrite Hr by done.
      edestruct (IH (mk_istream r false false) (parse_line record l)
                   (data ++ [parse_line record l])) as (input' & -> & He & Hfl);
        [cbn [buffer]; lia|].
      exists input'. rewrite Hb, lines_app by done. cbn [parse_lines].
      rewrite <- app_assoc. unfold pending. cbn [good eofbit failbit buffer negb andb].
      split_and!; [reflexivity| |exact Hfl].
      rewrite He. cbn [eofbit good failbit negb andb orb]. by destruct (eofbit input).
    + apply until_delim_None in Hu as [-> Hf]. subst input1. cbn [failbit].
      case_bool_decide as Hempty.
      * eexists. rewrite Hempty. cbn [lines parse_lines]. rewrite app_nil_r.
        split_and!; [done| |done]. cbn [eofbit]. by destruct (eofbit input).
      * rewrite Hr by done.
        edestruct (IH (mk_istream "" true false) (parse_line record (buffer input))
                     (data ++ [parse_line record (buffer input)]))
          as (input' & -> & He & Hfl).
        { cbn [buffer String.length]. destruct (buffer input); simpl in *; [done|lia]. }
        exists input'. rewrite lines_free by done. unfold pending.
        cbn [parse_lines good eofbit failbit negb andb].
        rewrite app_nil_r. split_and!; [done| |done].
        rewrite He. cbn [eofbit]. by destruct (eofbit input).
  - subst input1. cbn [failbit]. eexists. rewrite app_nil_r.
    split_and!; [done| |done]. cbn [eofbit]. by destruct (eofbit input).
Qed.

Lemma extract_data_spec text uninit :
  ∃ input', extract_data (ifstream (Some text)) uninit =
              Some (input', parse_lines (tail (lines text))
                              (mk_payment "" uninit.1 uninit.2 "" "")) ∧
            eofbit input' = true.
Proof.
  unfold extract_data, ifstream, getline.
  cbn [good eofbit failbit buffer negb andb].
  destruct (until_delim "010" text) as [l [r|]] eqn:Hu.
  - apply until_delim_Some in Hu as (-> & Hf & _).
    edestruct (extract_records_spec (S (S (String.length r))) (mk_istream r false false))
      as (input' & -> & He & _); [cbn [buffer]; lia|].
    exists input'. rewrite lines_app by done. split; [done|]. by rewrite He.
  - apply until_delim_None in Hu as [-> Hf].
    edestruct (extract_records_spec 2 (mk_istream "" true (bool_decide (text = ""))))
      as (input' & -> & He & _); [cbn [buffer String.length]; lia|].
    exists input'. split; [|by rewrite He].
    unfold pending. cbn [good eofbit negb andb]. simpl.
    destruct text as [|c s]; [done|]. by rewrite lines_free.
Qed.

Lemma extract_data_no_file uninit :
  extract_data (ifstream None) uninit = Some (mk_istream "" false true, []).
Proof. done. Qed.

(** X18.  [operator>>] for [data_t] always ends. On a file that opens it
    reaches the end of the file and yields one record per line after the
    first, each read into the record the line before left; on a file that does
    not open it yields no record and [eofbit] stays clear. *)
Theorem X18_extract_data_reads_lines (file : option string) (uninit : Z * Z) :
  ∃ input' data, extract_data (ifstream file) uninit = Some (input', data) ∧
    match file with
    | Some text =>
        eofbit input' = true ∧
        data = parse_lines (tail (lines text)) (mk_payment "" uninit.1 uninit.2 "" "") ∧
        length data = length (lines text) - 1
    | None => eofbit input' = false ∧ data = []
    end.
Proof.
  destruct file as [text|].
  - destruct (extract_data_spec text uninit) as (input' & -> & He).
    eexists _, _. split; [done|]. split_and!; [done..|].
    generalize (mk_payment "" uninit.1 uninit.2 "" "").
    destruct (lines text) as [|h ls]; [done|]. simpl. rewrite Nat.sub_0_r.
    induction ls as [|l ls IH]; intros r; simpl; [done|]. by rewrite IH.
  - eexists _, _. split; [apply extract_data_no_file|]. done.
Qed.

(** The fields of a well-formed line. *)
Lemma getline_app s r str delim :
  free_of delim s →
  getline (stringstream (s +:+ String delim r)) str delim = (stringstream r, s).
Proof.
  intros Hf. unfold getline, stringstream. cbn [good eofbit failbit buffer negb andb].
  by rewrite until_delim_app.
Qed.

Lemma free_of_app c s r : free_of c s → free_of c r → free_of c (s +:+ r).
Proof. induction s as [|c' s IH]; simpl; [done|]. intros [? ?] ?. auto. Qed.

(** X19.  A line of five fields separated by commas, the first four without a
    comma and none with a newline, followed by a newline: [operator>>] for
    [payment_t] consumes the line and its newline, the stream stays good, and
    the record holds the first, fourth and fifth field as they are (the fifth
    keeps its commas) and the second and third read as [int]s. *)
Theorem X19_extract_payment_fields
    (t a b amt msg rest : string) (record : payment_t) :
  free_of "," t → free_of "," a → free_of "," b → free_of "," amt →
  free_of "010" t → free_of "010" a → free_of "010" b → free_of "010" amt →
  free_of "010" msg →
  let line := t +:+ "," +:+ a +:+ "," +:+ b +:+ "," +:+ amt +:+ "," +:+ msg in
  extract_payment (mk_istream (line +:+ String "010" rest) false false) record =
  (mk_istream rest false false,
   mk_payment t (extract_int a (id1 record)) (extract_int b (id2 record)) amt msg).
Proof.
  intros Ht Ha Hb Hamt Nt Na Nb Namt Nmsg line. unfold extract_payment.
  assert (Hline : free_of "010" line).
  { unfold line. repeat (apply free_of_app || split || done). }
  change (mk_istream (line +:+ String "010" rest) false false)
    with (stringstream (line +:+ String "010" rest)).
  rewrite getline_app by done. unfold line.
  assert (Hcomma : ∀ x, "," +:+ x = String "," x) by done.
  rewrite !Hcomma.
  rewrite (getline_app t) by done.
  rewrite (getline_app a) by done.
  rewrite (getline_app b) by done.
  rewrite (getline_app amt) by done.
  unfold getline, stringstream. cbn [good eofbit failbit buffer negb andb].
  by rewrite until_delim_free.
Qed.

Lemma X19_extract_payment_fields_witness :
  extract_payment
    (mk_istream ("2016-11-02 09:49:29, 52575, 1120, 25.32, Spam, and eggs"
                 +:+ String "010" "rest") false false)
    (mk_payment "" 0 0 "" "") =
  (mk_istream "rest" false false,
   mk_payment "2016-11-02 09:49:29" 52575 1120 " 25.32" " Spam, and eggs").
Proof.
  apply (X19_extract_payment_fields "2016-11-02 09:49:29" " 52575" " 1120" " 25.32"
           " Spam, and eggs" "rest" (mk_payment "" 0 0 "" ""));
    cbn [free_of]; repeat split; discriminate.
Defined.

(** ** Reading an [int] *)

Lemma clamp_range lo hi z : (lo ≤ hi)%Z → (lo ≤ clamp lo hi z ≤ hi)%Z.
Proof. unfold clamp. lia. Qed.

Lemma clamp_id lo hi z : (lo ≤ z ≤ hi)%Z → clamp lo hi z = z.
Proof. unfold clamp. lia. Qed.

Lemma clamp_int_long z :
  clamp INT_MIN INT_MAX (clamp LONG_MIN LONG_MAX z) = clamp INT_MIN INT_MAX z.
Proof. unfold clamp, INT_MIN, INT_MAX, LONG_MIN, LONG_MAX. lia. Qed.

Lemma extract_int_is_int field val : is_int val → is_int (extract_int field val).
Proof.
  intros Hv. unfold extract_int. destruct (skipws field); [done|].
  apply clamp_range. unfold INT_MIN, INT_MAX. lia.
Qed.

Lemma digit_of_pretty d : (d < 10)%N → digit_of (pretty_N_char d) = Some (Z.of_N d).
Proof.
  intros Hd.
  assert (d = 0 ∨ d = 1 ∨ d = 2 ∨ d = 3 ∨ d = 4 ∨ d = 5 ∨ d = 6 ∨ d = 7 ∨ d = 8 ∨ d = 9)%N
    as Hcases by lia.
  repeat (destruct Hcases as [->|Hcases]; [done|]). by subst.
Qed.

Lemma digits_pretty_go x s :
  (0 < x)%N → digits (pretty_N_go x s) None = digits s (Some (Z.of_N x)).
Proof.
  revert s. induction (N.lt_wf_0 x) as [x _ IH]; intros s Hx.
  rewrite pretty_N_go_step by done.
  assert (x `mod` 10 < 10)%N as Hm by (apply N.mod_lt; lia).
  assert (Z.of_N x = 10 * Z.of_N (x `div` 10) + Z.of_N (x `mod` 10))%Z as Hdm.
  { rewrite <- (N2Z.inj_mul 10), <- N2Z.inj_add. f_equal. apply N.div_mod. lia. }
  destruct (decide (x `div` 10 = 0)%N) as [Hz|Hnz].
  - rewrite Hz in *. rewrite pretty_N_go_0. cbn [digits].
    rewrite digit_of_pretty by done. cbn [default]. f_equal. f_equal.
    symmetry. exact Hdm.
  - rewrite IH; [|apply N.div_lt; lia|by apply N.neq_0_lt_0]. cbn [digits].
    rewrite digit_of_pretty by done. cbn [default]. f_equal. f_equal.
    symmetry. exact Hdm.
Qed.

Lemma pretty_go_head x s :
  (0 < x)%N → ∃ c r, pretty_N_go x s = String c r ∧ is_Some (digit_of c).
Proof.
  revert s. induction (N.lt_wf_0 x) as [x _ IH]; intros s Hx.
  rewrite pretty_N_go_step by done.
  assert (x `mod` 10 < 10)%N as Hm by (apply N.mod_lt; lia).
  destruct (decide (x `div` 10 = 0)%N) as [Hz|Hnz].
  - rewrite Hz, pretty_N_go_0. eexists _, _. split; [done|].
    rewrite digit_of_pretty by done. by eexists.
  - apply IH; [apply N.div_lt; lia|by apply N.neq_0_lt_0].
Qed.

Lemma pretty_go_app x s r : pretty_N_go x s +:+ r = pretty_N_go x (s +:+ r).
Proof.
  revert s. induction (N.lt_wf_0 x) as [x _ IH]; intros s.
  destruct (decide (x = 0)%N) as [->|Hx]; [by rewrite !pretty_N_go_0|].
  rewrite (pretty_N_go_step x s), (pretty_N_go_step x (s +:+ r)) by lia.
  rewrite IH; [reflexivity|]. apply N.div_lt; lia.
Qed.

Lemma digits_no_digit s acc : no_digit_ahead s → digits s acc = acc.
Proof. destruct s as [|c s]; [done|]. simpl. by intros ->. Qed.

Lemma digit_not_space c : is_Some (digit_of c) → isspace c = false.
Proof.
  destruct c as [[] [] [] [] [] [] [] []]; intros H;
    (reflexivity || (destruct H as [? H]; vm_compute in H; discriminate H)).
Qed.

Lemma digit_not_sign c : is_Some (digit_of c) → c ≠ "-"%char ∧ c ≠ "+"%char.
Proof.
  destruct c as [[] [] [] [] [] [] [] []]; intros H;
    ((split; discriminate) || (destruct H as [? H]; vm_compute in H; discriminate H)).
Qed.

Lemma skipws_app ws s : skipws ws = "" → skipws (ws +:+ s) = skipws s.
Proof.
  induction ws as [|c ws IH]; [done|]. simpl. destruct (isspace c); [done|done].
Qed.

Lemma num_get_long_digit c r :
  is_Some (digit_of c) →
  num_get_long (String c r) =
    match digits (String c r) None with
    | None => 0%Z
    | Some v => clamp LONG_MIN LONG_MAX v
    end.
Proof.
  intros Hc. destruct (digit_not_sign c Hc) as [H1 H2]. unfold num_get_long.
  destruct c as [[] [] [] [] [] [] [] []]; try done.
Qed.

Lemma extract_int_positive x rest val :
  (0 < x)%N → no_digit_ahead rest →
  extract_int (pretty_N_go x "" +:+ rest) val = clamp INT_MIN INT_MAX (Z.of_N x).
Proof.
  intros Hx Hrest. rewrite pretty_go_app. change ("" +:+ rest) with rest.
  destruct (pretty_go_head x rest Hx) as (c & r & Hcr & Hc).
  pose proof (digits_pretty_go x rest Hx) as Hd. rewrite Hcr in *.
  unfold extract_int. cbn [skipws]. rewrite digit_not_space by done.
  rewrite num_get_long_digit by done. rewrite Hd, digits_no_digit by done.
  apply clamp_int_long.
Qed.

Lemma extract_int_skipws ws s val :
  skipws ws = "" → extract_int (ws +:+ s) val = extract_int s val.
Proof. intros Hws. unfold extract_int. by rewrite skipws_app. Qed.

Lemma pretty_positive_go (p : positive) : pretty p = pretty_N_go (N.pos p) "".
Proof. done. Qed.

(** X20.  Reading back what was printed: the decimal text of [z], after white
    space and before anything that does not begin with a digit, is read as [z]
    cut to the range of [int], hence as [z] itself when [z] is an [int]. *)
Theorem X20_extract_int_reads_what_is_printed (z val : Z) (ws rest : string) :
  skipws ws = "" → no_digit_ahead rest →
  extract_int (ws +:+ pretty z +:+ rest) val = clamp INT_MIN INT_MAX z ∧
  (is_int z → extract_int (ws +:+ pretty z +:+ rest) val = z).
Proof.
  intros Hws Hrest.
  assert (extract_int (ws +:+ pretty z +:+ rest) val = clamp INT_MIN INT_MAX z) as H.
  { rewrite extract_int_skipws by done. destruct z as [|p|p].
    - change (pretty 0%Z +:+ rest) with (String "0" rest).
      unfold extract_int. cbn [skipws]. rewrite digit_not_space by (by eexists).
      rewrite num_get_long_digit by (by eexists). cbn [digits].
      change (digit_of "0") with (Some 0%Z). cbv iota beta.
      rewrite digits_no_digit by done. reflexivity.
    - change (pretty (Z.pos p)) with (pretty p). rewrite pretty_positive_go.
      by apply extract_int_positive.
    - change (pretty (Z.neg p)) with ("-" +:+ pretty p). rewrite pretty_positive_go.
      change (("-" +:+ pretty_N_go (N.pos p) "") +:+ rest)
        with (String "-" (pretty_N_go (N.pos p) "" +:+ rest)).
      rewrite pretty_go_app. change ("" +:+ rest) with rest.
      unfold extract_int. cbn [skipws].
      change (isspace "-") with false. cbv iota. unfold num_get_long.
      rewrite digits_pretty_go, digits_no_digit by done.
      apply clamp_int_long. }
  split; [done|]. intros Hz. rewrite H. by apply clamp_id.
Qed.

Lemma X20_extract_int_reads_what_is_printed_witness :
  extract_int " 52575" 0 = 52575%Z.
Proof.
  apply (X20_extract_int_reads_what_is_printed 52575 0 " " "").
  - reflexivity.
  - exact I.
  - unfold is_int, INT_MIN, INT_MAX. lia.
Defined.

(** X21.  An id field read into an [int]. The result is an [int] when the old
    value is one; an empty or blank field leaves the old value; a field that
    after its white space begins with neither a sign nor a digit, or with a
    sign that no digit follows, gives 0. *)
Theorem X21_extract_int_edge_cases (field : string) (val : Z) :
  (is_int val → is_int (extract_int field val)) ∧
  (skipws field = "" → extract_int field val = val) ∧
  (∀ c r, skipws field = String c r → c ≠ "-"%char → c ≠ "+"%char →
          digit_of c = None → extract_int field val = 0%Z) ∧
  (∀ c r, skipws field = String c r → (c = "-"%char ∨ c = "+"%char) →
          no_digit_ahead r → extract_int field val = 0%Z).
Proof.
  split_and!.
  - apply extract_int_is_int.
  - intros Hs. unfold extract_int. by rewrite Hs.
  - intros c r Hs H1 H2 Hd. unfold extract_int. rewrite Hs. unfold num_get_long.
    assert (digits (String c r) None = None) as Hn by (simpl; by rewrite Hd).
    destruct c as [[] [] [] [] [] [] [] []]; try done; by rewrite Hn.
  - intros c r Hs Hc Hr. unfold extract_int. rewrite Hs. unfold num_get_long.
    destruct Hc as [-> | ->]; by rewrite digits_no_digit.
Qed.

(** ** The payments of a file, and the figure *)

Lemma parse_line_int record l : int_payment record → int_payment (parse_line record l).
Proof.
  intros [H1 H2]. unfold parse_line, extract_payment.
  destruct (getline (stringstream l) "" "010") as [input' l'].
  destruct (getline (stringstream l') (time record) ",") as [ss1 time'].
  destruct (getline ss1 "" ",") as [ss2 id1_field].
  destruct (getline ss2 "" ",") as [ss3 id2_field].
  destruct (getline ss3 (amount record) ",") as [ss4 amount'].
  destruct (getline ss4 (message record) "010") as [ss5 message'].
  split; cbn [snd id1 id2]; by apply extract_int_is_int.
Qed.

Lemma parse_lines_int ls : ∀ record,
  int_payment record → Forall int_payment (parse_lines ls record).
Proof.
  induction ls as [|l ls IH]; intros record Hr; simpl; [constructor|].
  pose proof (parse_line_int record l Hr). constructor; [done|]. by apply IH.
Qed.

Lemma parse_lines_length ls : ∀ record, length (parse_lines ls record) = length ls.
Proof. induction ls as [|l ls IH]; intros record; simpl; [done|]. by rewrite IH. Qed.

Lemma extract_data_payments text uninit :
  ∃ input', extract_data (ifstream (Some text)) uninit
              = Some (input', payments_of text uninit) ∧ eofbit input' = true.
Proof. apply extract_data_spec. Qed.

(** X22.  Whatever the file holds, every record [operator>>] for [data_t]
    yields has both ids in the range of [int], the two indeterminate [int]s of
    the local record being [int]s. *)
Theorem X22_extracted_ids_are_ints (file : option string) (uninit : Z * Z) :
  is_int uninit.1 → is_int uninit.2 →
  ∃ input' data, extract_data (ifstream file) uninit = Some (input', data) ∧
                 Forall int_payment data.
Proof.
  intros H1 H2. destruct file as [text|].
  - destruct (extract_data_spec text uninit) as (input' & -> & _).
    eexists _, _. split; [done|]. by apply parse_lines_int.
  - eexists _, _. split; [apply extract_data_no_file|]. constructor.
Qed.

Lemma X22_extracted_ids_are_ints_witness :
  ∃ input' data,
    extract_data (ifstream (Some ("h" +:+ String "010" "t,x,,a,m"))) (7, 8)%Z
      = Some (input', data) ∧ Forall int_payment data.
Proof.
  apply (X22_extracted_ids_are_ints (Some ("h" +:+ String "010" "t,x,,a,m")) (7, 8)%Z);
    unfold is_int, INT_MIN, INT_MAX; simpl; lia.
Defined.

(** The lines of the figure. *)
Lemma nodes_index_found v nodes :
  is_Some (nodes !! v) → nodes_index v nodes = (uid_of nodes v, nodes).
Proof. intros [uid Hu]. unfold nodes_index, uid_of. by rewrite Hu. Qed.

Lemma dot_edges_registered {W} (label : W → string) es nodes :
  (∀ e, e ∈ es → is_Some (nodes !! e.1.1) ∧ is_Some (nodes !! e.1.2)) →
  dot_edges label es nodes = (dot_line label nodes <$> es, nodes).
Proof.
  induction es as [|e es IH]; intros Hes; simpl; [done|].
  destruct (Hes e) as [H1 H2]; [by left|].
  rewrite (nodes_index_found _ _ H1), (nodes_index_found _ _ H2).
  rewrite IH by (intros; apply Hes; by right). done.
Qed.

Lemma dot_edges_forget (label1 : unit → string) (label2 : Z → string) es : ∀ nodes,
  (∀ e, e ∈ es → label2 e.2 = label1 ()) →
  dot_edges label1 (forget_weight <$> es) nodes = dot_edges label2 es nodes.
Proof.
  unfold forget_weight.
  induction es as [|e es IH]; intros nodes Hl; simpl; [done|].
  destruct (nodes_index e.1.1 nodes) as [src nodes1].
  destruct (nodes_index e.1.2 nodes1) as [tgt nodes2].
  rewrite IH by (intros; apply Hl; by right).
  rewrite (Hl e) by (by left). done.
Qed.

Lemma edges_registered {W} (g : Graph W) users nodes e :
  graph_ok g → registry_ok users nodes (num_vertices g) → e ∈ m_edges g →
  users !! uid_of nodes e.1.1 = Some e.1.1 ∧ users !! uid_of nodes e.1.2 = Some e.1.2.
Proof.
  intros Hg R He. destruct e as [[u v] w]. cbn [fst snd].
  assert (adjacent g u v) as Hadj.
  { apply (ok_edges _ Hg). exists w. by left. }
  pose proof (adjacent_lt _ _ _ Hadj) as Hu.
  pose proof (ok_range _ Hg _ _ Hadj) as Hv.
  apply (reg_dense _ _ _ R) in Hu as [a Ha]. apply (reg_dense _ _ _ R) in Hv as [b Hb].
  unfold uid_of. rewrite Ha, Hb. cbn [default].
  split; by apply (reg_inverse _ _ _ R).
Qed.

Lemma build_visualization_registered {W} (label : W → string) (g : Graph W) users nodes :
  graph_ok g → registry_ok users nodes (num_vertices g) →
  build_visualization label g nodes =
    (dot_header ++ (dot_line label nodes <$> m_edges g) ++ ["}"], nodes).
Proof.
  intros Hg R. unfold build_visualization.
  rewrite dot_edges_registered; [done|].
  intros e He. destruct (edges_registered g users nodes e Hg R He) as [H1 H2].
  apply (reg_inverse _ _ _ R) in H1, H2. split; by eexists.
Qed.

Lemma unit_edge_list_add_user uid st :
  unit_edge_list (Dijkstra.g st) → unit_edge_list (Dijkstra.g (Dijkstra.add_user uid st).2).
Proof.
  unfold Dijkstra.add_user. destruct (Dijkstra.users st !! uid); [done|].
  by cbn [add_vertex fst snd Dijkstra.g].
Qed.

Lemma unit_edge_list_update_network c st :
  unit_edge_list (Dijkstra.g st) → unit_edge_list (Dijkstra.g (Dijkstra.update_network c st)).
Proof.
  intros Hu. unfold Dijkstra.update_network. destruct (negb _); [|done].
  cbn [Dijkstra.g]. unfold unit_edge_list, add_edge. cbn [m_edges].
  intros e [He| ->%list_elem_of_singleton]%elem_of_app; [by apply Hu|done].
Qed.

Lemma unit_edge_list_build data : ∀ st,
  unit_edge_list (Dijkstra.g st) →
  unit_edge_list (Dijkstra.g (Dijkstra.build_paymo_network data st)).
Proof.
  unfold Dijkstra.build_paymo_network.
  induction data as [|p data IH]; intros st Hu; simpl; [done|].
  apply IH.
  pose proof (unit_edge_list_add_user (id1 p) st Hu) as H1.
  destruct (Dijkstra.add_user (id1 p) st) as [n1 st1]. cbn [snd] in H1.
  pose proof (unit_edge_list_add_user (id2 p) st1 H1) as H2.
  destruct (Dijkstra.add_user (id2 p) st1) as [n2 st2]. cbn [snd] in H2.
  by apply unit_edge_list_update_network.
Qed.

Lemma same_network_figure sb sd :
  same_network sb sd → unit_edge_list (Dijkstra.g sd) →
  build_visualization BfsMain.label (Bfs.g sb) (Bfs.nodes sb) =
  build_visualization DijkstraMain.label (Dijkstra.g sd) (Dijkstra.nodes sd).
Proof.
  intros [_ Hn Hg] Hu. unfold build_visualization. rewrite Hn, Hg.
  unfold forget_weights. cbn [m_edges].
  rewrite (dot_edges_forget BfsMain.label DijkstraMain.label); [done|].
  intros e He. unfold DijkstraMain.label. by rewrite (Hu e He).
Qed.

Lemma bfs_main_files b s u :
  ∃ out st, Bfs.main (payments_of b u.1) (payments_of s u.2) = Some (out, st) ∧
    BfsMain.main (Some b) (Some s) u =
      Some (0%Z, Some (mk_files (Bfs.output1 out) (Bfs.output2 out) (Bfs.output3 out)
        (build_visualization BfsMain.label (Bfs.g st) (Bfs.nodes st)).1)).
Proof.
  destruct (bfs_main_spec (payments_of b u.1) (payments_of s u.2)) as (out & st & Hrun & _).
  exists out, st. split; [done|]. unfold BfsMain.main.
  destruct (extract_data_payments b u.1) as (i1 & -> & E1).
  destruct (extract_data_payments s u.2) as (i2 & -> & E2).
  cbn [mbind option_bind]. rewrite E1. cbn [negb]. rewrite E2. cbn [negb].
  unfold Bfs.main in Hrun. rewrite Hrun. cbn [mbind option_bind].
  by destruct (build_visualization _ _ _).
Qed.

Lemma dij_main_files both_ways tie b s u :
  ∃ out st,
    Dijkstra.main both_ways tie (payments_of b u.1) (payments_of s u.2) = Some (out, st) ∧
    DijkstraMain.main both_ways tie (Some b) (Some s) u =
      Some (0%Z, Some (mk_files (Dijkstra.output1 out) (Dijkstra.output2 out)
        (Dijkstra.output3 out)
        (build_visualization DijkstraMain.label (Dijkstra.g st) (Dijkstra.nodes st)).1)).
Proof.
  destruct (dij_main_spec both_ways tie (payments_of b u.1) (payments_of s u.2))
    as (out & st & Hrun & _).
  exists out, st. split; [done|]. unfold DijkstraMain.main.
  destruct (extract_data_payments b u.1) as (i1 & -> & E1).
  destruct (extract_data_payments s u.2) as (i2 & -> & E2).
  cbn [mbind option_bind]. rewrite E1. cbn [negb]. rewrite E2. cbn [negb].
  unfold Dijkstra.main in Hrun. rewrite Hrun. cbn [mbind option_bind].
  by destruct (build_visualization _ _ _).
Qed.

(** ** [main] with its files *)

Lemma payments_of_length text uninit :
  length (payments_of text uninit) = length (lines text) - 1.
Proof.
  unfold payments_of. rewrite parse_lines_length.
  destruct (lines text); simpl; lia.
Qed.


(** X24.  After a run [build_visualization] writes the header, one line per
    entry of the edge list, in order, with the ids of its two users, and the
    closing brace. Every vertex printed is registered, so the reads
    [nodes[...]] insert nothing and print its user; in [fraud-alert.cpp] every
    label printed is 1. *)
Theorem X24_figure_lists_the_edges
    (both_ways : bool) (tie : nat → nat) (batch stream : data_t) :
  (∃ out st, Bfs.main batch stream = Some (out, st) ∧
     build_visualization BfsMain.label (Bfs.g st) (Bfs.nodes st) =
       (dot_header ++ (dot_line BfsMain.label (Bfs.nodes st) <$> m_edges (Bfs.g st))
          ++ ["}"], Bfs.nodes st) ∧
     ∀ e, e ∈ m_edges (Bfs.g st) →
       Bfs.users st !! uid_of (Bfs.nodes st) e.1.1 = Some e.1.1 ∧
       Bfs.users st !! uid_of (Bfs.nodes st) e.1.2 = Some e.1.2) ∧
  (∃ out st, Dijkstra.main both_ways tie batch stream = Some (out, st) ∧
     build_visualization DijkstraMain.label (Dijkstra.g st) (Dijkstra.nodes st) =
       (dot_header ++
          (dot_line DijkstraMain.label (Dijkstra.nodes st) <$> m_edges (Dijkstra.g st))
          ++ ["}"], Dijkstra.nodes st) ∧
     ∀ e, e ∈ m_edges (Dijkstra.g st) →
       DijkstraMain.label e.2 = "1" ∧
       Dijkstra.users st !! uid_of (Dijkstra.nodes st) e.1.1 = Some e.1.1 ∧
       Dijkstra.users st !! uid_of (Dijkstra.nodes st) e.1.2 = Some e.1.2).
Proof.
  split.
  - destruct (bfs_main_spec batch stream) as (out & st & Hrun & I).
    assert (bfs_registry_ok st) as R.
    { unfold Bfs.main in Hrun. eapply bfs_registry_ok_main_loop; [|exact Hrun].
      apply bfs_registry_ok_build, bfs_registry_ok_init. }
    exists out, st. split_and!; [done| |].
    + eapply build_visualization_registered; [apply I|exact R].
    + intros e He. eapply edges_registered; [apply I|exact R|done].
  - destruct (dij_main_spec both_ways tie batch stream) as (out & st & Hrun & I).
    assert (dij_registry_ok st) as R.
    { unfold Dijkstra.main in Hrun. eapply dij_registry_ok_main_loop; [|exact Hrun].
      apply dij_registry_ok_build, dij_registry_ok_init. }
    assert (unit_edge_list (Dijkstra.g st)) as Hu.
    { unfold Dijkstra.main in Hrun.
      destruct (dij_build_spec batch Dijkstra.init dij_init_inv) as [Ib _].
      destruct (dij_main_loop_state both_ways tie stream _ (Dijkstra.mk_output [] [] []) Ib)
        as [out' Hrun'].
      rewrite Hrun in Hrun'. injection Hrun' as _ ->.
      do 2 apply unit_edge_list_build. intros e He. by apply not_elem_of_nil in He. }
    exists out, st. split_and!; [done| |].
    + eapply build_visualization_registered; [apply I|exact R].
    + intros e He. split; [unfold DijkstraMain.label; by rewrite (Hu e He)|].
      eapply edges_registered; [apply I|exact R|done].
Qed.

(** X25.  On the same two input files, twice whose number of lines fits an
    [int], the two programs end with the same exit status, the same three
    output files and the same figure. *)
Theorem X25_two_programs_write_same_files (both_ways : bool) (tie : nat → nat)
    (batch_text stream_text : string) (uninit : Z * Z * (Z * Z)) :
  (2 * (Z.of_nat (length (lines batch_text)) + Z.of_nat (length (lines stream_text)))
     ≤ INT_MAX)%Z →
  BfsMain.main (Some batch_text) (Some stream_text) uninit =
  DijkstraMain.main both_ways tie (Some batch_text) (Some stream_text) uninit.
Proof.
  intros Hsz.
  destruct (bfs_main_files batch_text stream_text uninit) as (ob & sb & Hb & ->).
  destruct (dij_main_files both_ways tie batch_text stream_text uninit)
    as (od & sd & Hd & ->).
  destruct (main_same_outputs both_ways tie
              (payments_of batch_text uninit.1) (payments_of stream_text uninit.2))
    as (ob' & sb' & od' & sd' & Hb' & Hd' & O1 & O2 & O3 & S).
  { rewrite !payments_of_length. lia. }
  rewrite Hb in Hb'. rewrite Hd in Hd'. simplify_eq.
  assert (unit_edge_list (Dijkstra.g sd')) as Hu.
  { unfold Dijkstra.main in Hd.
    destruct (dij_build_spec (payments_of batch_text uninit.1) Dijkstra.init dij_init_inv)
      as [Ib _].
    destruct (dij_main_loop_state both_ways tie (payments_of stream_text uninit.2) _
                (Dijkstra.mk_output [] [] []) Ib) as [out' Hrun'].
    rewrite Hd in Hrun'. injection Hrun' as _ ->.
    do 2 apply unit_edge_list_build. intros e He. by apply not_elem_of_nil in He. }
  by rewrite O1, O2, O3, (same_network_figure _ _ S Hu).
Qed.

Lemma X25_two_programs_write_same_files_witness :
  BfsMain.main (Some ("h" +:+ String "010" "t, 1, 2, a, m"))
               (Some ("h" +:+ String "010" "t, 2, 1, a, m")) (0, 0, (0, 0))%Z =
  DijkstraMain.main true (λ _, 0) (Some ("h" +:+ String "010" "t, 1, 2, a, m"))
               (Some ("h" +:+ String "010" "t, 2, 1, a, m")) (0, 0, (0, 0))%Z.
Proof.
  apply (X25_two_programs_write_same_files true (λ _, 0)).
  vm_compute. discriminate.
Defined.

(** ** Lines without fields *)

(** X26.  A line with no comma, an empty line among them, becomes a record
    whose [time] is the whole line and whose ids, amount and message are those
    of the record read before: the reads that fail leave them alone. *)
Theorem X26_line_without_comma_keeps_ids (line : string) (record : payment_t) :
  free_of "," line → free_of "010" line →
  parse_line record line =
    mk_payment line (id1 record) (id2 record) (amount record) (message record).
Proof.
  intros Hc Hn. unfold parse_line, extract_payment.
  assert (getline (stringstream line) "" "010"
          = (mk_istream "" true (bool_decide (line = "")), line)) as ->.
  { unfold getline, stringstream. cbn [good eofbit failbit buffer negb andb].
    by rewrite until_delim_free. }
  assert (getline (stringstream line) (time record) ","
          = (mk_istream "" true (bool_decide (line = "")), line)) as ->.
  { unfold getline, stringstream. cbn [good eofbit failbit buffer negb andb].
    by rewrite until_delim_free. }
  unfold getline. cbn [good eofbit failbit buffer negb andb snd].
  by destruct record.
Qed.

Lemma X26_line_without_comma_keeps_ids_witness :
  parse_line (mk_payment "t" 1 2 "a" "m") "" = mk_payment "" 1 2 "a" "m".
Proof. apply (X26_line_without_comma_keeps_ids "" (mk_payment "t" 1 2 "a" "m")); exact I. Defined.
